(** * Tier ranking sheet: a shallow embedding of [script.js]

    The page is a column of tiers; every tier holds one list of player
    elements.  The script keeps no registry of its own: the order of the
    elements in the lists is the ranking state, and every function below
    is the corresponding function of [script.js] acting on that state.

    What is taken from the platform and how:
    - the document is the tiers, their lists and the players in them;
      an id is looked up among the lists, a player by its [dataset.id].
      These are the lookups of the platform for ids that name lists
      only and can be written into a selector ([names_list_only],
      [plain_id], [storage_fits]); the properties that rest on a lookup
      ask for such ids;
    - numbers are integers; the script's arithmetic is exact on them up
      to 2^53, and the properties about tier numbers ask for that
      ([exact_tiers]);
    - strings are byte strings, compared by their character codes; the
      case mappings and white space are those of ASCII ([ascii_text]);
    - [JSON.parse] and [JSON.stringify] are written out;
    - [localeCompare], the text of a number read from storage and the
      ids of the other elements of the page are left open, as
      parameters. *)

From Stdlib Require Import String Ascii.
From Stdlib Require Import List ZArith Lia Bool Permutation.
From Stdlib Require Import Sorting.Sorted DecimalString DecimalZ DecimalPos.
From Stdlib Require Import OrdersEx RelationClasses.
Import ListNotations.

Local Open Scope Z_scope.

(* ================================================================== *)
(** * Part I.  The program                                              *)
(* ================================================================== *)

(** ** Arrays *)

(** [l[i]] for a number [i]: [undefined] outside the array. *)
Definition array_get {A : Type} (l : list A) (i : Z) : option A :=
  if i <? 0 then None else nth_error l (Z.to_nat i).

(** [l.slice(start, end)]: a negative bound counts from the end, and both
    bounds are cut to the array. *)
Definition slice_bound (len k : Z) : Z :=
  if k <? 0 then Z.max (len + k) 0 else Z.min k len.

Definition slice {A : Type} (l : list A) (start stop : Z) : list A :=
  let len := Z.of_nat (length l) in
  let from := slice_bound len start in
  let to := slice_bound len stop in
  firstn (Z.to_nat (to - from)) (skipn (Z.to_nat from) l).

(** [l.forEach((x, i) => ...)] building a new array, the index first. *)
Fixpoint mapi_from {A B : Type} (f : nat -> A -> B) (i : nat) (l : list A)
  : list B :=
  match l with
  | [] => []
  | x :: l' => f i x :: mapi_from f (S i) l'
  end.

Definition mapi {A B : Type} (f : nat -> A -> B) (l : list A) : list B :=
  mapi_from f 0 l.

Definition remove_nth {A : Type} (i : nat) (l : list A) : list A :=
  firstn i l ++ skipn (S i) l.

Definition insert_nth {A : Type} (i : nat) (x : A) (l : list A) : list A :=
  firstn i l ++ x :: skipn i l.

(** ** Strings

    Strings are byte strings.  Case mapping and white space are those of
    ASCII, which is what player names, positions and ids are written in. *)

Definition is_upper (c : ascii) : bool :=
  let n := nat_of_ascii c in ((65 <=? n) && (n <=? 90))%nat.

Definition is_lower (c : ascii) : bool :=
  let n := nat_of_ascii c in ((97 <=? n) && (n <=? 122))%nat.

Definition lower_char (c : ascii) : ascii :=
  if is_upper c then ascii_of_nat (nat_of_ascii c + 32) else c.

Definition upper_char (c : ascii) : ascii :=
  if is_lower c then ascii_of_nat (nat_of_ascii c - 32) else c.

Fixpoint map_string (f : ascii -> ascii) (s : string) : string :=
  match s with
  | EmptyString => EmptyString
  | String c s' => String (f c) (map_string f s')
  end.

Definition toLowerCase : string -> string := map_string lower_char.
Definition toUpperCase : string -> string := map_string upper_char.

(** Tab, line feed, vertical tab, form feed, carriage return, space. *)
Definition is_space (c : ascii) : bool :=
  let n := nat_of_ascii c in (((9 <=? n) && (n <=? 13)) || (n =? 32))%nat.

Fixpoint trimStart (s : string) : string :=
  match s with
  | EmptyString => EmptyString
  | String c s' => if is_space c then trimStart s' else s
  end.

Fixpoint trimEnd (s : string) : string :=
  match s with
  | EmptyString => EmptyString
  | String c s' =>
      match trimEnd s' with
      | EmptyString => if is_space c then EmptyString else String c EmptyString
      | r => String c r
      end
  end.

Definition trim (s : string) : string := trimEnd (trimStart s).

(** The mappings above are those of the language on text made of ASCII
    characters; on other text [toUpperCase], [toLowerCase] and [trim] of
    the language do more (the capitals of a sharp s are two letters, a
    no-break space is white space).  [ascii_text s] says that [s] is such
    text. *)
Fixpoint ascii_text (s : string) : bool :=
  match s with
  | EmptyString => true
  | String c s' => (nat_of_ascii c <? 128)%nat && ascii_text s'
  end.

(** An id that can stand as it is between the double quotes of the
    selector [.player[data-id="..."]] (lines 156, 220 and 263): it has no
    double quote and no backslash, which would end the string or escape
    what follows, no line break, which a quoted string cannot hold, and
    no null character, which the style-sheet reader replaces.  For such
    an id the selector finds the elements whose [dataset.id] is the id;
    for another one it can throw or find other elements. *)
Definition plain_char (c : ascii) : bool :=
  let n := nat_of_ascii c in
  negb ((n =? 0) || (n =? 10) || (n =? 12) || (n =? 13)
        || (n =? 34) || (n =? 92))%nat.

Fixpoint plain_id (i : string) : bool :=
  match i with
  | EmptyString => true
  | String c i' => plain_char c && plain_id i'
  end.

(** [s.includes(q)] *)
Fixpoint includes (s q : string) : bool :=
  String.prefix q s ||
  match s with
  | EmptyString => false
  | String _ s' => includes s' q
  end.

(** [!s] for a string: only the empty string is falsy. *)
Definition is_empty (s : string) : bool :=
  match s with EmptyString => true | String _ _ => false end.

(** [x || ''] for a property that is a string, [null] or missing. *)
Definition or_empty (x : option string) : string :=
  match x with Some s => s | None => EmptyString end.

(** The text of an integer inside a template string. *)
Definition string_of_Z (n : Z) : string :=
  NilZero.string_of_int (Z.to_int n).

(** ** The page *)

(** A player element ([li.player]) with the fields the script reads and
    writes: [dataset.id], [dataset.name], [dataset.position], the text of
    the name span, the value the script last wrote to its rank input
    ([None] is the empty input) and whether [style.display] is ['']
    (shown) or ['none']. *)
Record element : Type := mkElement {
  data_id : string;
  data_name : string;
  data_position : string;
  name_text : string;
  rank_input : option Z;
  shown : bool
}.

(** [dataset.tier] of a tier: the reserved ["unranked"], or a number, as
    the add-tier handler writes it and [Number] reads it back. *)
Inductive tier_key : Type :=
| Unranked
| Numbered (n : Z).

(** A tier ([div.tier]) with its one list ([ul.player-list]): the list's
    [id] and its children, in order. *)
Record tier : Type := mkTier {
  data_tier : tier_key;
  list_id : string;
  children : list element
}.

(** The children of [#tiers], top to bottom. *)
Definition page : Type := list tier.

Definition is_unranked (t : tier) : bool :=
  match data_tier t with Unranked => true | Numbered _ => false end.

Definition set_children (t : tier) (l : list element) : tier :=
  mkTier (data_tier t) (list_id t) l.

Definition set_rank (r : option Z) (e : element) : element :=
  mkElement (data_id e) (data_name e) (data_position e) (name_text e)
            r (shown e).

Definition set_shown (b : bool) (e : element) : element :=
  mkElement (data_id e) (data_name e) (data_position e) (name_text e)
            (rank_input e) b.

(** Replace the children of the [ti]-th tier. *)
Fixpoint update_tier (ti : nat) (f : tier -> tier) (d : page) : page :=
  match d, ti with
  | [], _ => []
  | t :: d', O => f t :: d'
  | t :: d', S k => t :: update_tier k f d'
  end.

(** Every player element of the page, in document order. *)
Definition all_players (d : page) : list element :=
  flat_map children d.

Definition ids_of (l : list element) : list string := map data_id l.

Definition tier_order (t : tier) : list string := ids_of (children t).

(** ** Ranks (lines 173-184) *)

(** [updateRanks]: every tier but the unranked one writes [i + 1] into the
    rank input of its [i]-th player. *)
Definition number_players (l : list element) : list element :=
  mapi (fun i e => set_rank (Some (Z.of_nat i + 1)) e) l.

Definition updateRanks (d : page) : page :=
  map (fun t =>
         match data_tier t with
         | Unranked => t
         | Numbered _ => set_children t (number_players (children t))
         end) d.

(** ** Manual rank (lines 186-204) *)

(** [list.insertBefore(player, ref)] where [player] is the [pi]-th child of
    the list and [ref] is another child, the [ri]-th, or [null]: the
    player leaves its place and is put back in front of [ref], at the end
    when [ref] is [null]. *)
Definition insertBefore (pi : nat) (ref : option nat) (l : list element)
  : list element :=
  match nth_error l pi with
  | None => l
  | Some p =>
      let rest := remove_nth pi l in
      match ref with
      | None => rest ++ [p]
      | Some ri =>
          (* where [ref] stands once the player is taken out *)
          let at_ := if (ri <? pi)%nat then ri else pred ri in
          insert_nth at_ p rest
      end
  end.

(** The clamping of lines 192-194; [parsed] is [parseInt(input.value)],
    [None] being [NaN]. *)
Definition clamp_rank (parsed : option Z) (len : nat) : Z :=
  let newRank :=
    match parsed with
    | None => 1
    | Some r => if r <? 1 then 1 else r
    end in
  if newRank >? Z.of_nat len then Z.of_nat len else newRank.

(** [handleRankInputChange(player, input)] for the [pi]-th player of the
    [ti]-th tier.  The result carries the page and whether [delayedSave]
    was called. *)
Definition handleRankInputChange (ti pi : nat) (parsed : option Z) (d : page)
  : page * bool :=
  match nth_error d ti with
  | None => (d, false)
  | Some t =>
      match data_tier t with
      | Unranked => (d, false)
      | Numbered _ =>
          let players := children t in
          match nth_error players pi with
          | None => (d, false)
          | Some _ =>
              let newRank := clamp_rank parsed (length players) in
              let currentIndex := Z.of_nat pi in
              if currentIndex =? newRank - 1 then (updateRanks d, false)
              else
                let ref :=
                  match array_get players (newRank - 1) with
                  | Some _ => Some (Z.to_nat (newRank - 1))
                  | None => None
                  end in
                let d' :=
                  update_tier ti
                    (fun t => set_children t (insertBefore pi ref players)) d in
                (updateRanks d', true)
          end
      end
  end.

(** ** Players and their elements (lines 35-66) *)

(** A record of the pool: [{ id, ...p }] for an entry [[id, p]] of the
    fetched mapping.  A property is [None] when it is missing or [null]. *)
Record player : Type := mkPlayer {
  id : string;
  first_name : option string;
  last_name : option string;
  position : option string;
  team : option string
}.

(** [createPlayerElement(id, player)] *)
Definition createPlayerElement (i : string) (p : player) : element :=
  let fullName :=
    trim (or_empty (first_name p) ++ " " ++ or_empty (last_name p))%string in
  let team := or_empty (team p) in
  mkElement i
            (toLowerCase fullName)
            (toUpperCase (or_empty (position p)))
            (fullName ++ (if is_empty team then "" else " (" ++ team ++ ")"))%string
            None
            true.

(** ** Looking elements up *)

(** [document.getElementById(i)] among the lists: the place of the first
    tier whose list has that id.  The page has other elements with an id
    (the script takes five of them, lines 3-7), and no element has the
    empty id: this is the answer of the platform for an id that
    [names_list_only], below. *)
Fixpoint getElementById (i : string) (d : page) : option nat :=
  match d with
  | [] => None
  | t :: d' =>
      if String.eqb (list_id t) i then Some O
      else option_map S (getElementById i d')
  end.

Fixpoint find_index {A : Type} (f : A -> bool) (l : list A) : option nat :=
  match l with
  | [] => None
  | x :: l' => if f x then Some O else option_map S (find_index f l')
  end.

(** [document.querySelector(`.player[data-id="${i}"]`)]: the first player
    element, in document order, whose [dataset.id] is [i], as the tier it
    is in and its place there.  This is what the selector finds for a
    [plain_id]; the properties that rest on the lookup ask for it. *)
Fixpoint querySelector_player (i : string) (d : page) : option (nat * nat) :=
  match d with
  | [] => None
  | t :: d' =>
      match find_index (fun e => String.eqb (data_id e) i) (children t) with
      | Some pi => Some (O, pi)
      | None =>
          option_map (fun loc => (S (fst loc), snd loc))
                     (querySelector_player i d')
      end
  end.

(** [list.appendChild(el)] for the [ti]-th list and an element that is
    in no list. *)
Definition appendChild (ti : nat) (e : element) (d : page) : page :=
  update_tier ti (fun t => set_children t (children t ++ [e])) d.

(** ** Tiers (lines 102-123 and 289-297) *)

Definition tier_list_id (number : Z) : string :=
  ("tier-" ++ string_of_Z number)%string.

(** [tiersContainer.insertBefore(tierDiv, unranked)] with [unranked] the
    first tier whose [dataset.tier] is ["unranked"]; [appendChild] when
    there is none. *)
Fixpoint insert_before_unranked (tierDiv : tier) (d : page) : page :=
  match d with
  | [] => [tierDiv]
  | t :: d' =>
      if is_unranked t then tierDiv :: t :: d'
      else t :: insert_before_unranked tierDiv d'
  end.

(** [createTier(number)] *)
Definition createTier (number : Z) (d : page) : page :=
  insert_before_unranked (mkTier (Numbered number) (tier_list_id number) []) d.

(** The numbers of the tiers that are not the unranked one. *)
Fixpoint existingTiers (d : page) : list Z :=
  match d with
  | [] => []
  | t :: d' =>
      match data_tier t with
      | Unranked => existingTiers d'
      | Numbered n => n :: existingTiers d'
      end
  end.

(** [Math.max(...l)] for a non-empty [l]. *)
Definition Math_max (first : Z) (others : list Z) : Z :=
  fold_left Z.max others first.

(** [Math.max(...existingTiers) + 1], or 1.  The script computes with
    doubles, where adding 1 is exact up to 2^53: the sum below is the
    script's as long as the tiers are [exact_tiers]. *)
Definition newTierNumber (d : page) : Z :=
  match existingTiers d with
  | [] => 1
  | n :: l => Math_max n l + 1
  end.

(** ** The state of the script

    The globals of lines 10 and 25-27, the pending timer of [delayedSave],
    the value of the filter box, the item kept under the key ['rankings']
    in local storage, what was written to the console, and the page. *)
Record state : Type := mkState {
  allPlayers : list player;
  currentDisplayArray : list player;
  displayedCount : Z;
  activePosFilter : string;
  filterInput : string;
  saveTimeout : bool;
  rankings : option string;
  console : list string;
  doc : page
}.

Definition with_doc (d : page) (s : state) : state :=
  mkState (allPlayers s) (currentDisplayArray s) (displayedCount s)
          (activePosFilter s) (filterInput s) (saveTimeout s) (rankings s)
          (console s) d.

Definition with_console (c : list string) (s : state) : state :=
  mkState (allPlayers s) (currentDisplayArray s) (displayedCount s)
          (activePosFilter s) (filterInput s) (saveTimeout s) (rankings s)
          c (doc s).

Definition with_rankings (r : option string) (s : state) : state :=
  mkState (allPlayers s) (currentDisplayArray s) (displayedCount s)
          (activePosFilter s) (filterInput s) (saveTimeout s) r
          (console s) (doc s).

Definition with_saveTimeout (b : bool) (s : state) : state :=
  mkState (allPlayers s) (currentDisplayArray s) (displayedCount s)
          (activePosFilter s) (filterInput s) b (rankings s)
          (console s) (doc s).

Definition with_filterInput (v : string) (s : state) : state :=
  mkState (allPlayers s) (currentDisplayArray s) (displayedCount s)
          (activePosFilter s) v (saveTimeout s) (rankings s)
          (console s) (doc s).

Definition with_activePosFilter (v : string) (s : state) : state :=
  mkState (allPlayers s) (currentDisplayArray s) (displayedCount s)
          v (filterInput s) (saveTimeout s) (rankings s)
          (console s) (doc s).

Definition with_allPlayers (l : list player) (s : state) : state :=
  mkState l (currentDisplayArray s) (displayedCount s)
          (activePosFilter s) (filterInput s) (saveTimeout s) (rankings s)
          (console s) (doc s).

Definition with_cursor (l : list player) (n : Z) (s : state) : state :=
  mkState (allPlayers s) l n
          (activePosFilter s) (filterInput s) (saveTimeout s) (rankings s)
          (console s) (doc s).

(** [console.warn] and [console.log] *)
Definition console_write (m : string) (s : state) : state :=
  with_console (console s ++ [m]) s.

(** [delayedSave] (lines 126-130): one timer, set again on every call. *)
Definition delayedSave (s : state) : state := with_saveTimeout true s.

(** ** Rendering in chunks (lines 207-229) *)

Definition DISPLAY_CHUNK : Z := 100.
Definition LOAD_MORE_CHUNK : Z := 50.

(** The body of the loop of lines 218-225, also that of lines 262-266,
    for a list that exists. *)
Definition append_if_absent (unrankedList : nat) (d : page) (p : player)
  : page :=
  match querySelector_player (id p) d with
  | None => appendChild unrankedList (createPlayerElement (id p) p) d
  | Some _ => d
  end.

(** [renderMorePlayers(limit)] *)
Definition renderMorePlayers (limit : Z) (s : state) : state :=
  match getElementById "tier-unranked" (doc s) with
  | None => s
  | Some unrankedList =>
      let sl := slice (currentDisplayArray s) (displayedCount s)
                      (displayedCount s + limit) in
      let d := fold_left (append_if_absent unrankedList) sl (doc s) in
      with_doc d
        (with_cursor (currentDisplayArray s)
                     (displayedCount s + Z.of_nat (length sl)) s)
  end.

(** [renderInitialPlayers()] *)
Definition renderInitialPlayers (s : state) : state :=
  renderMorePlayers DISPLAY_CHUNK (with_cursor (allPlayers s) 0 s).

(** ** Filters (lines 233-243 and 311-326) *)

Definition matchesName (nameSearch : string) (p : element) : bool :=
  is_empty nameSearch || includes (data_name p) nameSearch.

Definition matchesPos (posFilter : string) (p : element) : bool :=
  is_empty posFilter || String.eqb (toUpperCase (data_position p)) posFilter.

(** What [applyFilters] does to one element. *)
Definition filter_element (nameSearch posFilter : string) (p : element)
  : element :=
  set_shown (matchesName nameSearch p && matchesPos posFilter p) p.

(** [applyFilters()] *)
Definition applyFilters (s : state) : state :=
  let nameSearch := toLowerCase (filterInput s) in
  with_doc
    (map (fun t =>
            set_children t
              (map (filter_element nameSearch (activePosFilter s))
                   (children t)))
         (doc s))
    s.

(** A click on a position button whose [dataset.pos] is [pos]. *)
Definition clickPosButton (pos : option string) (s : state) : state :=
  applyFilters (with_activePosFilter (toUpperCase (or_empty pos)) s).

(** The click handler of the add-tier button (lines 289-297). *)
Definition clickAddTier (s : state) : state :=
  delayedSave (with_doc (createTier (newTierNumber (doc s)) (doc s)) s).

(** A run of calls [renderMorePlayers(n)], one for every [n] of [limits]. *)
Definition reveal_all (limits : list Z) (s : state) : state :=
  fold_left (fun s n => renderMorePlayers n s) limits s.

(** ** What the platform and the rest of the page provide

    Two library functions are left open: [a.localeCompare(b)], whose
    order is the locale's, as the sign of its result; and the text
    [String(x)] of the number [x] that a JSON number literal denotes.
    So is the rest of the page: [other_element i] tells whether an
    element that is not one of the lists has the id [i], as the five
    elements of lines 3-7 do. *)
Record platform : Type := mkPlatform {
  localeCompare : string -> string -> comparison;
  Number_toString : string -> string;
  other_element : string -> bool
}.

(** The ids that the script itself takes elements by (lines 3-7). *)
Definition script_element_ids : list string :=
  ["tiers"; "add-tier"; "save"; "reset"; "filter"]%string.

(** [document.getElementById(k)] gives a list of the page or nothing:
    [k] is not the empty id, which no element has, and not the id of
    another element, to which line 158 would move the players. *)
Definition names_list_only (P : platform) (k : string) : bool :=
  negb (is_empty k) && negb (other_element P k)
  && negb (existsb (String.eqb k) script_element_ids).

(** [a < b] on strings: the order of the character codes. *)
Definition string_lt (a b : string) : bool :=
  match String_as_OT.compare a b with Lt => true | _ => false end.

(** ** The pool (lines 13-22 and 246-257) *)

(** A record of the fetched mapping.  [r_id] is the record's own [id]
    property, when it has one. *)
Record record : Type := mkRecord {
  r_id : option string;
  r_first_name : option string;
  r_last_name : option string;
  r_position : option string;
  r_team : option string
}.

(** The fetched mapping, as [Object.entries] lists it. *)
Definition mapping : Type := list (string * record).

(** [fetchPlayers()]: the parsed response, and [{}] when the request or
    the parsing failed. *)
Definition fetchPlayers (response : option mapping) : mapping :=
  match response with
  | Some data => data
  | None => []
  end.

(** [([id, p]) => ({ id, ...p })]: the properties of [p] come last, so an
    [id] of its own replaces the key. *)
Definition with_id (entry : string * record) : player :=
  let (key, p) := entry in
  mkPlayer (match r_id p with Some i => i | None => key end)
           (r_first_name p) (r_last_name p) (r_position p) (r_team p).

Definition POSITIONS : list string := ["QB"; "RB"; "WR"; "TE"]%string.

(** [p => ['QB','RB','WR','TE'].includes((p.position || '').toUpperCase())] *)
Definition has_position (p : player) : bool :=
  existsb (String.eqb (toUpperCase (or_empty (position p)))) POSITIONS.

(** The comparison function of lines 251-257, as the sign it returns. *)
Definition by_name (P : platform) (a b : player) : comparison :=
  let la := toLowerCase (or_empty (last_name a)) in
  let lb := toLowerCase (or_empty (last_name b)) in
  if string_lt la lb then Lt
  else if string_lt lb la then Gt
  else localeCompare P (toLowerCase (or_empty (first_name a)))
                       (toLowerCase (or_empty (first_name b))).

(** [l.sort(cmp)]: the stable sort.  (For a comparison function that is
    an order, which is all the language defines the result for.) *)
Fixpoint insert_sorted {A : Type} (cmp : A -> A -> comparison) (x : A)
         (l : list A) : list A :=
  match l with
  | [] => [x]
  | y :: l' =>
      match cmp x y with
      | Gt => y :: insert_sorted cmp x l'
      | _ => x :: l
      end
  end.

Definition sort {A : Type} (cmp : A -> A -> comparison) (l : list A)
  : list A :=
  fold_right (insert_sorted cmp) [] l.

(** Lines 248-257: the value given to [allPlayers]. *)
Definition pool_of (P : platform) (playersObj : mapping) : list player :=
  sort (by_name P) (filter has_position (map with_id playersObj)).

(** ** JSON text

    [JSON.parse] and [JSON.stringify], for the item kept in local
    storage.  A number keeps the literal it was read from. *)

Inductive json : Type :=
| JNull
| JBool (b : bool)
| JNumber (literal : string)
| JString (s : string)
| JArray (items : list json)
| JObject (props : list (string * json)).

Definition code (c : ascii) : N := N_of_ascii c.

Definition dquote : ascii := Eval cbv in ascii_of_N 34.
Definition backslash : ascii := Eval cbv in ascii_of_N 92.

Definition char_string (c : ascii) : string := String c EmptyString.

(** *** Own properties of an object, in the order the language lists them:
    array indices by value, then the other keys as they were created. *)

Definition is_digit (c : ascii) : bool :=
  (48 <=? code c)%N && (code c <=? 57)%N.

Fixpoint decimal_value (acc : N) (s : string) : option N :=
  match s with
  | EmptyString => Some acc
  | String c r =>
      if is_digit c then decimal_value (10 * acc + (code c - 48))%N r
      else None
  end.

(** The array index a key stands for: ["0"], or digits without a leading
    zero, up to 2^32 - 2. *)
Definition array_index (k : string) : option N :=
  match k with
  | EmptyString => None
  | String c r =>
      if (code c =? 48)%N && negb (is_empty r) then None
      else
        match decimal_value 0 k with
        | Some n => if (n <=? 4294967294)%N then Some n else None
        | None => None
        end
  end.

Definition has_key {V : Type} (k : string) (o : list (string * V)) : bool :=
  existsb (fun kv => String.eqb (fst kv) k) o.

Fixpoint insert_index {V : Type} (n : N) (k : string) (v : V)
         (o : list (string * V)) : list (string * V) :=
  match o with
  | [] => [(k, v)]
  | kv :: o' =>
      match array_index (fst kv) with
      | Some n' =>
          if (n' <? n)%N then kv :: insert_index n k v o' else (k, v) :: o
      | None => (k, v) :: o
      end
  end.

(** [o[k] = v] on a plain object, for a key that is not [__proto__]. *)
Definition obj_set {V : Type} (k : string) (v : V) (o : list (string * V))
  : list (string * V) :=
  if has_key k o then
    map (fun kv => if String.eqb (fst kv) k then (k, v) else kv) o
  else
    match array_index k with
    | Some n => insert_index n k v o
    | None => o ++ [(k, v)]
    end.

(** *** Writing *)

Definition hex_digit (n : N) : ascii :=
  if (n <? 10)%N then ascii_of_N (48 + n) else ascii_of_N (87 + n).

(** How [JSON.stringify] writes one character of a string. *)
Definition quote_char (c : ascii) : string :=
  match code c with
  | 8%N => "\b"
  | 9%N => "\t"
  | 10%N => "\n"
  | 12%N => "\f"
  | 13%N => "\r"
  | 34%N => String backslash (char_string dquote)
  | 92%N => "\\"
  | n =>
      if (n <? 32)%N
      then ("\u00" ++ String (hex_digit (n / 16))
                             (char_string (hex_digit (n mod 16))))%string
      else char_string c
  end.

Fixpoint quote_chars (s : string) : string :=
  match s with
  | EmptyString => EmptyString
  | String c r => (quote_char c ++ quote_chars r)%string
  end.

Definition quote (s : string) : string :=
  String dquote (quote_chars s ++ char_string dquote)%string.

(** [JSON.stringify(tiers)] for an object whose values are arrays of
    strings. *)
Definition stringify_array (l : list string) : string :=
  ("[" ++ String.concat "," (map quote l) ++ "]")%string.

Definition stringify_member (kv : string * list string) : string :=
  (quote (fst kv) ++ ":" ++ stringify_array (snd kv))%string.

Definition JSON_stringify (tiers : list (string * list string)) : string :=
  ("{" ++ String.concat "," (map stringify_member tiers) ++ "}")%string.

(** *** Reading *)

Definition is_json_ws (c : ascii) : bool :=
  match code c with
  | 9%N | 10%N | 13%N | 32%N => true
  | _ => false
  end.

Fixpoint skip_ws (s : string) : string :=
  match s with
  | EmptyString => EmptyString
  | String c r => if is_json_ws c then skip_ws r else s
  end.

Fixpoint span_digits (s : string) : string * string :=
  match s with
  | EmptyString => (EmptyString, EmptyString)
  | String c r =>
      if is_digit c
      then let (ds, r') := span_digits r in (String c ds, r')
      else (EmptyString, s)
  end.

Definition hex_value (c : ascii) : option N :=
  let n := code c in
  if (48 <=? n)%N && (n <=? 57)%N then Some (n - 48)%N
  else if (97 <=? n)%N && (n <=? 102)%N then Some (n - 87)%N
  else if (65 <=? n)%N && (n <=? 70)%N then Some (n - 55)%N
  else None.

Definition hex4 (a b c d : ascii) : option N :=
  match hex_value a, hex_value b, hex_value c, hex_value d with
  | Some x, Some y, Some z, Some w => Some (4096 * x + 256 * y + 16 * z + w)%N
  | _, _, _, _ => None
  end.

(** The bytes of a code point (a lone surrogate is written like any other
    code point of its size). *)
Definition utf8 (cp : N) : string :=
  if (cp <? 128)%N then char_string (ascii_of_N cp)
  else if (cp <? 2048)%N then
    String (ascii_of_N (192 + cp / 64))
      (char_string (ascii_of_N (128 + cp mod 64)))
  else if (cp <? 65536)%N then
    String (ascii_of_N (224 + cp / 4096))
      (String (ascii_of_N (128 + (cp / 64) mod 64))
         (char_string (ascii_of_N (128 + cp mod 64))))
  else
    String (ascii_of_N (240 + cp / 262144))
      (String (ascii_of_N (128 + (cp / 4096) mod 64))
         (String (ascii_of_N (128 + (cp / 64) mod 64))
            (char_string (ascii_of_N (128 + cp mod 64))))).

Definition is_high_surrogate (n : N) : bool :=
  (55296 <=? n)%N && (n <=? 56319)%N.

Definition is_low_surrogate (n : N) : bool :=
  (56320 <=? n)%N && (n <=? 57343)%N.

Definition prepend (a : string) (r : option (string * string))
  : option (string * string) :=
  match r with
  | Some (s, rest) => Some ((a ++ s)%string, rest)
  | None => None
  end.

(** The characters of a string literal, from just after its opening quote: the
    string, and the text after the closing quote. *)
Fixpoint parse_chars (s : string) : option (string * string) :=
  match s with
  | EmptyString => None
  | String c r =>
      match code c with
      | 34%N => Some (EmptyString, r)
      | 92%N =>
          match r with
          | EmptyString => None
          | String e r1 =>
              match code e with
              | 34%N => prepend (char_string dquote) (parse_chars r1)
              | 92%N => prepend (char_string backslash) (parse_chars r1)
              | 47%N => prepend "/" (parse_chars r1)
              | 98%N => prepend (char_string (ascii_of_N 8)) (parse_chars r1)
              | 102%N => prepend (char_string (ascii_of_N 12)) (parse_chars r1)
              | 110%N => prepend (char_string (ascii_of_N 10)) (parse_chars r1)
              | 114%N => prepend (char_string (ascii_of_N 13)) (parse_chars r1)
              | 116%N => prepend (char_string (ascii_of_N 9)) (parse_chars r1)
              | 117%N =>
                  match r1 with
                  | String h1 (String h2 (String h3 (String h4 r2))) =>
                      match hex4 h1 h2 h3 h4 with
                      | None => None
                      | Some hi =>
                          if is_high_surrogate hi then
                            match r2 with
                            | String b (String u (String l1 (String l2
                                (String l3 (String l4 r3))))) =>
                                match
                                  (if (code b =? 92)%N && (code u =? 117)%N
                                   then hex4 l1 l2 l3 l4 else None)
                                with
                                | Some lo =>
                                    if is_low_surrogate lo
                                    then prepend
                                           (utf8 (65536 + 1024 * (hi - 55296)
                                                  + (lo - 56320)))
                                           (parse_chars r3)
                                    else prepend (utf8 hi) (parse_chars r2)
                                | None => prepend (utf8 hi) (parse_chars r2)
                                end
                            | _ => prepend (utf8 hi) (parse_chars r2)
                            end
                          else prepend (utf8 hi) (parse_chars r2)
                      end
                  | _ => None
                  end
              | _ => None
              end
          end
      | n =>
          if (n <? 32)%N then None
          else prepend (char_string c) (parse_chars r)
      end
  end.

(** A number literal at the head of the text: the literal and what
    follows it. *)
Definition parse_int_part (s : string) : option (string * string) :=
  match s with
  | EmptyString => None
  | String c r =>
      if (code c =? 48)%N then Some (char_string c, r)
      else if is_digit c
      then let (ds, r') := span_digits r in Some (String c ds, r')
      else None
  end.

Definition parse_frac_part (s : string) : option (string * string) :=
  match s with
  | String c r =>
      if (code c =? 46)%N then
        let (ds, r') := span_digits r in
        if is_empty ds then None else Some (String c ds, r')
      else Some (EmptyString, s)
  | EmptyString => Some (EmptyString, s)
  end.

Definition parse_exp_part (s : string) : option (string * string) :=
  match s with
  | String c r =>
      if (code c =? 101)%N || (code c =? 69)%N then
        let (sign, r1) :=
          match r with
          | String g r' =>
              if (code g =? 43)%N || (code g =? 45)%N
              then (char_string g, r') else (EmptyString, r)
          | EmptyString => (EmptyString, r)
          end in
        let (ds, r2) := span_digits r1 in
        if is_empty ds then None
        else Some (String c (sign ++ ds)%string, r2)
      else Some (EmptyString, s)
  | EmptyString => Some (EmptyString, s)
  end.

Definition parse_number (s : string) : option (string * string) :=
  let (sign, s1) :=
    match s with
    | String c r => if (code c =? 45)%N then (char_string c, r)
                    else (EmptyString, s)
    | EmptyString => (EmptyString, s)
    end in
  match parse_int_part s1 with
  | None => None
  | Some (int, s2) =>
      match parse_frac_part s2 with
      | None => None
      | Some (frac, s3) =>
          match parse_exp_part s3 with
          | None => None
          | Some (exp, s4) => Some ((sign ++ int ++ frac ++ exp)%string, s4)
          end
      end
  end.

(** [word] at the head of the text. *)
Fixpoint parse_word (word s : string) : option string :=
  match word with
  | EmptyString => Some s
  | String w word' =>
      match s with
      | String c r => if Ascii.eqb w c then parse_word word' r else None
      | EmptyString => None
      end
  end.

(** A value at the head of the text (white space already skipped), and
    the text after it.  [fuel] bounds the depth of the calls; twice the
    length of the text is enough, since of any two nested calls one has
    read a character. *)
Fixpoint parse_value (fuel : nat) (s : string) : option (json * string) :=
  match fuel with
  | O => None
  | S fuel' =>
      match s with
      | EmptyString => None
      | String c r =>
          match code c with
          | 123%N =>
              match skip_ws r with
              | String c' r' =>
                  if (code c' =? 125)%N then Some (JObject [], r')
                  else
                    match parse_members fuel' (skip_ws r) with
                    | Some (ms, rest) =>
                        Some (JObject
                                (fold_left (fun o kv =>
                                              obj_set (fst kv) (snd kv) o)
                                           ms []),
                              rest)
                    | None => None
                    end
              | EmptyString => None
              end
          | 91%N =>
              match skip_ws r with
              | String c' r' =>
                  if (code c' =? 93)%N then Some (JArray [], r')
                  else
                    match parse_elements fuel' (skip_ws r) with
                    | Some (vs, rest) => Some (JArray vs, rest)
                    | None => None
                    end
              | EmptyString => None
              end
          | 34%N =>
              match parse_chars r with
              | Some (str, rest) => Some (JString str, rest)
              | None => None
              end
          | 116%N => option_map (pair (JBool true)) (parse_word "rue" r)
          | 102%N => option_map (pair (JBool false)) (parse_word "alse" r)
          | 110%N => option_map (pair JNull) (parse_word "ull" r)
          | _ =>
              match parse_number s with
              | Some (lit, rest) => Some (JNumber lit, rest)
              | None => None
              end
          end
      end
  end

(** The elements of an array from its first one, up to the closing
    bracket. *)
with parse_elements (fuel : nat) (s : string)
  : option (list json * string) :=
  match fuel with
  | O => None
  | S fuel' =>
      match parse_value fuel' s with
      | None => None
      | Some (v, r) =>
          match skip_ws r with
          | String c r' =>
              if (code c =? 44)%N then
                match parse_elements fuel' (skip_ws r') with
                | Some (vs, rest) => Some (v :: vs, rest)
                | None => None
                end
              else if (code c =? 93)%N then Some ([v], r')
              else None
          | EmptyString => None
          end
      end
  end

(** The members of an object from its first key, up to the closing
    brace. *)
with parse_members (fuel : nat) (s : string)
  : option (list (string * json) * string) :=
  match fuel with
  | O => None
  | S fuel' =>
      match s with
      | String q r0 =>
          if (code q =? 34)%N then
            match parse_chars r0 with
            | None => None
            | Some (k, r1) =>
                match skip_ws r1 with
                | String colon r2 =>
                    if (code colon =? 58)%N then
                      match parse_value fuel' (skip_ws r2) with
                      | None => None
                      | Some (v, r3) =>
                          match skip_ws r3 with
                          | String c r4 =>
                              if (code c =? 44)%N then
                                match parse_members fuel' (skip_ws r4) with
                                | Some (ms, rest) => Some ((k, v) :: ms, rest)
                                | None => None
                                end
                              else if (code c =? 125)%N
                              then Some ([(k, v)], r4)
                              else None
                          | EmptyString => None
                          end
                      end
                    else None
                | EmptyString => None
                end
            end
          else None
      | EmptyString => None
      end
  end.

(** [JSON.parse(text)]; [None] is the [SyntaxError] it throws. *)
Definition JSON_parse (text : string) : option json :=
  match parse_value (2 * String.length text + 2) (skip_ws text) with
  | Some (v, rest) =>
      if is_empty (skip_ws rest) then Some v else None
  | None => None
  end.

(** ** How a function ends *)

Inductive error : Type :=
| SyntaxError
| TypeError.

(** A call returns, or throws; either way it leaves a state behind. *)
Inductive outcome : Type :=
| Returns (s : state)
| Throws (e : error) (s : state).

Definition state_of (o : outcome) : state :=
  match o with
  | Returns s => s
  | Throws _ s => s
  end.

(** ** Saving (lines 133-145) *)

(** The object [tiers] built by lines 134-139.  (Assigning to
    [__proto__] creates no property.) *)
Definition tiers_of (d : page) : list (string * list string) :=
  fold_left (fun tiers list =>
               let tierId := list_id list in
               let players := tier_order list in
               if String.eqb tierId "__proto__" then tiers
               else obj_set tierId players tiers)
            d [].

(** [saveRankings()]; [stored] tells whether [localStorage.setItem] went
    through or threw. *)
Definition saveRankings (stored : bool) (s : state) : state :=
  let tiers := tiers_of (doc s) in
  if stored then with_rankings (Some (JSON_stringify tiers)) s
  else console_write "Could not save rankings:" s.

(** The timer set by [delayedSave] runs out. *)
Definition saveTimeout_fires (stored : bool) (s : state) : state :=
  if saveTimeout s then saveRankings stored (with_saveTimeout false s)
  else s.

(** ** Loading (lines 147-164) *)

(** [`${v}`] for a parsed value.  (An object that has a property
    [toString] of its own has no text: the template throws.  Such values
    are not [selector_safe], below.) *)
Fixpoint template_text (P : platform) (v : json) : string :=
  match v with
  | JNull => "null"
  | JBool true => "true"
  | JBool false => "false"
  | JNumber literal => Number_toString P literal
  | JString s => s
  | JArray items =>
      String.concat ","
        (map (fun x => match x with
                       | JNull => EmptyString
                       | _ => template_text P x
                       end) items)
  | JObject _ => "[object Object]"
  end.

Definition string_of_nat (i : nat) : string := string_of_Z (Z.of_nat i).

(** The pairs the loop of line 151 runs over.  [null], [false], [0] and
    [""] leave at line 149; [true] and the other numbers have no entries;
    so for all of these the loop has nothing to run over.  (A character
    of a string is a byte here.) *)
Definition saved_entries (saved : json) : list (string * json) :=
  match saved with
  | JObject props => props
  | JArray items => mapi (fun i v => (string_of_nat i, v)) items
  | JString str =>
      mapi (fun i c => (string_of_nat i, JString (char_string c)))
           (list_ascii_of_string str)
  | JNull | JBool _ | JNumber _ => []
  end.

(** The element at a place of the page. *)
Definition element_at (loc : nat * nat) (d : page) : option element :=
  match nth_error d (fst loc) with
  | Some t => nth_error (children t) (snd loc)
  | None => None
  end.

Definition detach (loc : nat * nat) (d : page) : page :=
  update_tier (fst loc)
    (fun t => set_children t (remove_nth (snd loc) (children t))) d.

(** [list.appendChild(player)] for a player that is on the page: it
    leaves its place and becomes the last child of the [ti]-th list. *)
Definition move_to_end (ti : nat) (loc : nat * nat) (d : page) : page :=
  match element_at loc d with
  | Some e => appendChild ti e (detach loc d)
  | None => d
  end.

(** Lines 155-162 for one id. *)
Definition place_player (P : platform) (list : nat) (s : state) (i : json)
  : state :=
  let text := template_text P i in
  match querySelector_player text (doc s) with
  | Some player => with_doc (move_to_end list player (doc s)) s
  | None =>
      console_write
        ("Player " ++ text ++ " missing from Sleeper data, skipping.")%string
        s
  end.

(** The loop of lines 151-163. *)
Fixpoint load_entries (P : platform) (entries : list (string * json))
         (s : state) : outcome :=
  match entries with
  | [] => Returns s
  | (tierId, playerIds) :: rest =>
      match getElementById tierId (doc s) with
      | None => load_entries P rest s
      | Some list =>
          match playerIds with
          | JArray ids =>
              load_entries P rest (fold_left (place_player P list) ids s)
          | _ => Throws TypeError s
          end
      end
  end.

(** [localStorage.getItem('rankings') || '{}'] *)
Definition stored_text (s : state) : string :=
  match rankings s with
  | Some text => if is_empty text then "{}" else text
  | None => "{}"
  end.

(** [loadRankings()] *)
Definition loadRankings (P : platform) (s : state) : outcome :=
  match JSON_parse (stored_text s) with
  | None => Throws SyntaxError s
  | Some saved => load_entries P (saved_entries saved) s
  end.

(** *** What the embedding of the loading takes for granted

    The lookups of lines 152 and 156 are those of the platform when the
    stored keys name lists only and the stored ids can be written into
    the selector. *)

(** A value that has a text (no object in it has a [toString] of its
    own) which is a [plain_id]. *)
Fixpoint has_text (v : json) : bool :=
  match v with
  | JArray items => forallb has_text items
  | JObject props => negb (has_key "toString" props)
  | _ => true
  end.

Definition selector_safe (P : platform) (v : json) : bool :=
  has_text v && plain_id (template_text P v).

Definition entry_fits (P : platform) (d : page) (e : string * json) : bool :=
  names_list_only P (fst e) &&
  match getElementById (fst e) d, snd e with
  | Some _, JArray ids => forallb (selector_safe P) ids
  | _, _ => true
  end.

(** The stored item, when it is JSON, has only such entries. *)
Definition storage_fits (P : platform) (s : state) : bool :=
  match JSON_parse (stored_text s) with
  | Some saved => forallb (entry_fits P (doc s)) (saved_entries saved)
  | None => true
  end.

(** ** Start of the page (lines 246-279) *)

(** [populateUnranked()], given what the request brought ([None] when it
    failed). *)
Definition populateUnranked (P : platform) (response : option mapping)
           (s : state) : outcome :=
  let s :=
    match response with
    | Some _ => s
    | None => console_write "Error fetching players:" s
    end in
  let playersObj := fetchPlayers response in
  let s := with_allPlayers (pool_of P playersObj) s in
  let rendered :=
    match getElementById "tier-unranked" (doc s) with
    | Some unrankedList =>
        Returns
          (with_doc (fold_left (append_if_absent unrankedList)
                               (allPlayers s) (doc s)) s)
    | None =>
        (* [unrankedList] is [null]: the first player to append throws *)
        if forallb (fun p => match querySelector_player (id p) (doc s) with
                             | Some _ => true
                             | None => false
                             end) (allPlayers s)
        then Returns s
        else Throws TypeError s
    end in
  match rendered with
  | Throws e s => Throws e s
  | Returns s =>
      match loadRankings P s with
      | Throws e s => Throws e s
      | Returns s =>
          let s := with_doc (updateRanks (doc s)) s in
          Returns
            (console_write
               ("Loaded " ++ string_of_nat (length (allPlayers s))
                ++ " players (positions filtered).")%string s)
      end
  end.

(** ** What the user does

    The drag library is not part of the script; what it does to the page
    when a drag ends is to take the dragged player out of its list and
    put it at a place of a list, the same or another.  The script then
    runs [updateRanks] and [delayedSave] (lines 90-95). *)
Definition drop_player (from : nat * nat) (to_tier to_index : nat)
           (d : page) : page :=
  match element_at from d, nth_error d to_tier with
  | Some e, Some _ =>
      update_tier to_tier
        (fun t => set_children t (insert_nth to_index e (children t)))
        (detach from d)
  | _, _ => d
  end.

Definition sortable_onEnd (from : nat * nat) (to_tier to_index : nat)
           (s : state) : state :=
  delayedSave
    (with_doc (updateRanks (drop_player from to_tier to_index (doc s))) s).

(** The change of a rank input (line 59). *)
Definition rank_input_change (ti pi : nat) (parsed : option Z) (s : state)
  : state :=
  let (d, save) := handleRankInputChange ti pi parsed (doc s) in
  let s := with_doc d s in
  if save then delayedSave s else s.

(** What can happen once the page has started. *)
Inductive event : Type :=
| AddTierClick
| SaveClick (stored : bool)
| TimerFires (stored : bool)
| DragEnd (from : nat * nat) (to_tier to_index : nat)
| RankChange (ti pi : nat) (parsed : option Z)
| FilterInput (text : string)
| PosClick (pos : option string)
| Scroll
| RenderMore (limit : Z)
| RenderInitial.

Definition handle (ev : event) (s : state) : state :=
  match ev with
  | AddTierClick => clickAddTier s
  | SaveClick stored => saveRankings stored s
  | TimerFires stored => saveTimeout_fires stored s
  | DragEnd from to_tier to_index => sortable_onEnd from to_tier to_index s
  | RankChange ti pi parsed => rank_input_change ti pi parsed s
  | FilterInput text => applyFilters (with_filterInput text s)
  | PosClick pos => clickPosButton pos s
  | Scroll => renderMorePlayers LOAD_MORE_CHUNK s
  | RenderMore limit => renderMorePlayers limit s
  | RenderInitial => renderInitialPlayers s
  end.

Definition run (evs : list event) (s : state) : state :=
  fold_left (fun s ev => handle ev s) evs s.

(** ** Notions used in the statements *)

(** The ids of all players of the page, tier after tier. *)
Definition page_ids (d : page) : list string := ids_of (all_players d).

(** What every step keeps: no id twice on the page, and no id leaves. *)
Definition keeps_players (d d' : page) : Prop :=
  (NoDup (page_ids d) -> NoDup (page_ids d')) /\
  incl (page_ids d) (page_ids d').


(** What [JSON.parse] makes of a member written for [tiers]. *)
Definition parsed_member (kv : string * list string) : string * json :=
  (fst kv, JArray (map JString (snd kv))).

Definition members_size (tiers : list (string * list string)) : nat :=
  list_sum (map (fun kv => length (snd kv) + 4)%nat tiers).

(** [l.includes(i)] for strings. *)
Definition mem (l : list string) (i : string) : bool :=
  existsb (String.eqb i) l.

(** The order of the [j]-th tier. *)
Definition order_at (d : page) (j : nat) : option (list string) :=
  option_map tier_order (nth_error d j).

(** A tier without the players whose id is [i]. *)
Definition without_id (i : string) (t : tier) : tier :=
  set_children t
    (filter (fun e => negb (String.eqb (data_id e) i)) (children t)).

(** The ids a saved tier brings to the [j]-th list of the page: its
    order when its key names that list, nothing otherwise. *)
Definition brings (d : page) (j : nat) (e : string * list string)
  : list string :=
  match getElementById (fst e) d with
  | Some k => if Nat.eqb j k then snd e else []
  | None => []
  end.

Definition placed_in (d : page) (j : nat)
           (saved : list (string * list string)) : list string :=
  flat_map (brings d j) saved.

(** The ids of the saved tiers whose key names a list of the page. *)
Definition restored (d : page) (saved : list (string * list string))
  : list string :=
  flat_map (fun e => match getElementById (fst e) d with
                     | Some _ => snd e
                     | None => []
                     end) saved.

(** A tier as [saveRankings] records it. *)
Definition saved_tier (t : tier) : string * list string :=
  (list_id t, tier_order t).

(** The round trip as the specification words it: after saving [s] and
    starting again on [s0] with what the request brings, every tier of
    [s] is there again with its order, as far as its ids are still in
    the pool, and a saved id that is not in the pool is in no tier. *)
Definition round_trip_reproduces (P : platform) (response : option mapping)
           (s s0 : state) : Prop :=
  let pool := map id (pool_of P (fetchPlayers response)) in
  let s' :=
    state_of
      (populateUnranked P response
         (with_rankings (rankings (saveRankings true s)) s0)) in
  (forall t, In t (doc s) ->
     exists t',
       In t' (doc s') /\ list_id t' = list_id t /\
       filter (mem (tier_order t)) (tier_order t')
       = filter (mem pool) (tier_order t)) /\
  (forall i, In i (page_ids (doc s)) -> ~ In i pool ->
             ~ In i (page_ids (doc s'))).

(** ** Further notions *)

(** The page with every player shown. *)
Definition show_all (d : page) : page :=
  map (fun t => set_children t (map (set_shown true) (children t))) d.

(** The tiers of the page without their players: [dataset.tier] and the
    id of the list. *)
Definition skeleton (d : page) : list (tier_key * string) :=
  map (fun t => (data_tier t, list_id t)) d.

(** The rank inputs of the numbered tiers are up to date. *)
Definition ranks_shown (d : page) : Prop := updateRanks d = d.

(** The list the script appends players to belongs to the unranked
    tier. *)
Definition unranked_list_ok (d : page) : Prop :=
  forall t, In t d -> list_id t = "tier-unranked"%string ->
            data_tier t = Unranked.

(** The lists are named as [createTier] names them, and the list of the
    unranked tier as the script looks it up. *)
Definition named_by_script (d : page) : Prop :=
  forall t, In t d ->
            list_id t = match data_tier t with
                        | Unranked => "tier-unranked"%string
                        | Numbered n => tier_list_id n
                        end.

(** The warning of line 160. *)
Definition missing_warning (i : string) : string :=
  ("Player " ++ i ++ " missing from Sleeper data, skipping.")%string.

(** The ids the loop of lines 151-163 looks up, in its order: those of
    the arrays stored under a key that names a list. *)
Definition looked_up (P : platform) (d : page)
           (entries : list (string * json)) : list string :=
  flat_map (fun e => match getElementById (fst e) d, snd e with
                     | Some _, JArray ids => map (template_text P) ids
                     | _, _ => []
                     end) entries.

(** The globals of the script and the stored item: the state but for the
    page and the console. *)
Definition globals (s : state)
  : list player * list player * Z * string * string * bool * option string :=
  (allPlayers s, currentDisplayArray s, displayedCount s, activePosFilter s,
   filterInput s, saveTimeout s, rankings s).

(** The players of [l] whose id is not in [seen], each id once, at its
    first place. *)
Fixpoint fresh_players (seen : list string) (l : list player) : list player :=
  match l with
  | [] => []
  | p :: l' =>
      if mem seen (id p) then fresh_players seen l'
      else p :: fresh_players (id p :: seen) l'
  end.

(** The elements made for them. *)
Definition elements_for (l : list player) : list element :=
  map (fun p => createPlayerElement (id p) p) l.

(** The stored item is the page as [saveRankings] writes it. *)
Definition in_sync (s : state) : Prop :=
  rankings s = Some (JSON_stringify (tiers_of (doc s))).

(** What the user can do on the page as the script wires it, with a
    storage that takes what is written to it: the events but the calls of
    the rendering functions and a save that fails. *)
Definition user_event (ev : event) : bool :=
  match ev with
  | AddTierClick | DragEnd _ _ _ | RankChange _ _ _
  | FilterInput _ | PosClick _ | SaveClick true | TimerFires true => true
  | SaveClick false | TimerFires false
  | Scroll | RenderMore _ | RenderInitial => false
  end.

(** Every stored value that belongs to a list of the page is an array. *)
Definition arrays_for_lists (d : page) (entries : list (string * json))
  : bool :=
  forallb (fun e => match getElementById (fst e) d, snd e with
                    | Some _, JArray _ => true
                    | Some _, _ => false
                    | None, _ => true
                    end) entries.

(** The largest integer up to which doubles hold every integer. *)
Definition MAX_SAFE_INTEGER : Z := 2 ^ 53 - 1.

(** The numbers of the tiers are read, compared and increased as doubles
    (lines 290-294).  [exact_tiers clicks d]: they are held exactly, and
    so are the numbers that [clicks] further tiers get (counted from 0
    on a page without a numbered tier, whose first tier gets 1). *)
Definition exact_tiers (clicks : Z) (d : page) : Prop :=
  Forall (fun m => - MAX_SAFE_INTEGER <= m /\ m + clicks <= MAX_SAFE_INTEGER)
         (0 :: existingTiers d).

Definition is_add_tier (ev : event) : bool :=
  match ev with AddTierClick => true | _ => false end.

Definition add_tier_clicks (evs : list event) : Z :=
  Z.of_nat (length (filter is_add_tier evs)).

(** The ids of players that can be written into the selector. *)
Definition plain_ids (l : list player) : Prop :=
  Forall (fun p => plain_id (id p) = true) l.

(** ** Sample pages *)

Definition sample_element (i : string) : element :=
  mkElement i (toLowerCase i) "QB" i None true.

Definition tier1_xyz : tier :=
  mkTier (Numbered 1) "tier-1"
         [sample_element "X"; sample_element "Y"; sample_element "Z"].

Definition unranked_empty : tier := mkTier Unranked "tier-unranked" [].

Definition page_xyz : page := [tier1_xyz; unranked_empty].

Definition state_of_page (d : page) : state :=
  mkState [] [] 0 "" "" false None [] d.

(** A platform whose collation is the order of the character codes and
    which prints a number literal as it is written, and a page that has,
    besides the lists and the five elements of lines 3-7, the box of the
    position buttons (line 312). *)
Definition sample_platform : platform :=
  mkPlatform String_as_OT.compare (fun literal => literal)
             (fun i => String.eqb i "position-buttons").

Definition sample_record (first last : string) : record :=
  mkRecord None (Some first) (Some last) (Some "qb"%string)
           (Some "KC"%string).

Definition sample_mapping : mapping :=
  [("1", sample_record "Ann" "Able");
   ("2", sample_record "Bob" "Baker");
   ("3", sample_record "Cy" "Cole")]%string.

(** The page as it is loaded: tier 1 and the unranked tier, both empty. *)
Definition fresh_page : page :=
  [mkTier (Numbered 1) "tier-1" []; unranked_empty].

Definition fresh_state : state := state_of_page fresh_page.

(** A first visit: the page starts with nothing in storage; the user adds
    a tier, drags Baker and then Able into it, and saves. *)
Definition started_state : state :=
  state_of (populateUnranked sample_platform (Some sample_mapping) fresh_state).

Definition saved_state : state :=
  run [AddTierClick; DragEnd (2, 1) 1 0; DragEnd (2, 0) 1 1; SaveClick true]%nat
      started_state.

(** The next visit starts on the fresh page with what was saved. *)
Definition reloaded_state : state :=
  state_of
    (populateUnranked sample_platform (Some sample_mapping)
       (with_rankings (rankings saved_state) fresh_state)).

(* ================================================================== *)
(** * Part II.  Properties                                              *)
(* ================================================================== *)

(** ** Lists *)

Lemma mapi_from_length {A B : Type} (f : nat -> A -> B) (l : list A) :
  forall k, length (mapi_from f k l) = length l.
Proof.
  induction l as [|x l IH]; intros k; simpl; [reflexivity|].
  now rewrite IH.
Qed.

Lemma mapi_from_map {A B C : Type} (f : nat -> A -> B) (g : B -> C)
      (h : nat -> C) (l : list A) :
  (forall i x, g (f i x) = h i) ->
  forall k, map g (mapi_from f k l) = map h (seq k (length l)).
Proof.
  intros Hgf. induction l as [|x l IH]; intros k; simpl; [reflexivity|].
  now rewrite Hgf, IH.
Qed.

Lemma mapi_from_keep {A B C : Type} (f : nat -> A -> B) (g : B -> C)
      (g' : A -> C) (l : list A) :
  (forall i x, g (f i x) = g' x) ->
  forall k, map g (mapi_from f k l) = map g' l.
Proof.
  intros Hgf. induction l as [|x l IH]; intros k; simpl; [reflexivity|].
  now rewrite Hgf, IH.
Qed.

Lemma mapi_from_idem {A : Type} (f : nat -> A -> A) (l : list A) :
  (forall i x, f i (f i x) = f i x) ->
  forall k, mapi_from f k (mapi_from f k l) = mapi_from f k l.
Proof.
  intros Hf. induction l as [|x l IH]; intros k; simpl; [reflexivity|].
  now rewrite Hf, IH.
Qed.

(** ** Ranks *)

Lemma number_players_ids (l : list element) :
  ids_of (number_players l) = ids_of l.
Proof.
  unfold ids_of, number_players, mapi.
  now apply mapi_from_keep.
Qed.

Lemma number_players_length (l : list element) :
  length (number_players l) = length l.
Proof. apply mapi_from_length. Qed.

Lemma number_players_ranks (l : list element) :
  map rank_input (number_players l)
  = map (fun i => Some (Z.of_nat i + 1)) (seq 0 (length l)).
Proof.
  unfold number_players, mapi.
  now apply mapi_from_map.
Qed.

Lemma number_players_idem (l : list element) :
  number_players (number_players l) = number_players l.
Proof.
  unfold number_players, mapi.
  now apply mapi_from_idem.
Qed.

Lemma updateRanks_nth (d : page) (ti : nat) :
  nth_error (updateRanks d) ti
  = option_map (fun t =>
                  match data_tier t with
                  | Unranked => t
                  | Numbered _ => set_children t (number_players (children t))
                  end) (nth_error d ti).
Proof. unfold updateRanks. apply nth_error_map. Qed.

Lemma updateRanks_orders (d : page) :
  map tier_order (updateRanks d) = map tier_order d.
Proof.
  unfold updateRanks. rewrite map_map. apply map_ext.
  intros t. destruct (data_tier t); [reflexivity|].
  unfold tier_order. simpl. apply number_players_ids.
Qed.

Lemma updateRanks_idem (d : page) :
  updateRanks (updateRanks d) = updateRanks d.
Proof.
  unfold updateRanks. rewrite map_map. apply map_ext.
  intros t. destruct (data_tier t) eqn:E; rewrite ?E; [reflexivity|].
  simpl. rewrite E. unfold set_children. simpl.
  now rewrite number_players_idem.
Qed.

(** C5.  After [updateRanks], a tier that is not the unranked one shows
    the ranks 1, 2, ..., N down its N players, in that order, so every
    rank from 1 to N exactly once; the unranked tier is left as it was,
    and no tier changes its order. *)
Theorem updateRanks_contiguous (d : page) (ti : nat) (t' : tier) :
  nth_error (updateRanks d) ti = Some t' ->
  exists t,
    nth_error d ti = Some t /\
    data_tier t' = data_tier t /\
    tier_order t' = tier_order t /\
    match data_tier t' with
    | Numbered _ =>
        map rank_input (children t')
        = map (fun k => Some (Z.of_nat k)) (seq 1 (length (children t')))
    | Unranked => t' = t
    end.
Proof.
  rewrite updateRanks_nth.
  destruct (nth_error d ti) as [t|]; simpl; [|discriminate].
  intros [= <-]. exists t. split; [reflexivity|].
  destruct (data_tier t) eqn:E; simpl; rewrite ?E; auto.
  repeat split.
  - unfold tier_order. simpl. apply number_players_ids.
  - rewrite number_players_ranks, number_players_length.
    rewrite <- seq_shift, map_map. apply map_ext. intros k. f_equal. lia.
Qed.

(** ** Manual rank *)

Lemma clamp_rank_bounds (parsed : option Z) (len : nat) :
  (0 < len)%nat -> 1 <= clamp_rank parsed len <= Z.of_nat len.
Proof.
  intros Hlen. unfold clamp_rank.
  destruct parsed as [r|].
  - destruct (r <? 1) eqn:E1.
    + destruct (1 >? Z.of_nat len) eqn:E2; lia.
    + destruct (r >? Z.of_nat len) eqn:E2; lia.
  - destruct (1 >? Z.of_nat len) eqn:E2; lia.
Qed.

(** What the handler does to the tier it is called in: the player is put
    back in front of the player that stood at the requested rank. *)
Lemma handleRankInputChange_moves (d : page) (ti pi : nat) (parsed : option Z)
      (t : tier) (n : Z) (p : element) :
  nth_error d ti = Some t ->
  data_tier t = Numbered n ->
  nth_error (children t) pi = Some p ->
  let r := clamp_rank parsed (length (children t)) in
  Z.of_nat pi <> r - 1 ->
  handleRankInputChange ti pi parsed d
  = (updateRanks
       (update_tier ti
          (fun t => set_children t
             (insert_nth
                (if (Z.to_nat (r - 1) <? pi)%nat
                 then Z.to_nat (r - 1) else pred (Z.to_nat (r - 1)))
                p (remove_nth pi (children t)))) d),
     true).
Proof.
  intros Ht Hk Hp r Hne.
  assert (Hlen : (0 < length (children t))%nat).
  { destruct (children t); [destruct pi; discriminate | simpl; lia]. }
  pose proof (clamp_rank_bounds parsed _ Hlen) as Hr. fold r in Hr.
  unfold handleRankInputChange. rewrite Ht, Hk, Hp. fold r.
  destruct (Z.of_nat pi =? r - 1) eqn:E; [lia|].
  unfold array_get. destruct (r - 1 <? 0) eqn:E0; [lia|].
  destruct (nth_error (children t) (Z.to_nat (r - 1))) eqn:En.
  - f_equal. f_equal.
    (* both functions are applied to the tier at [ti], which is [t] *)
    clear - Ht Hp. revert ti Ht.
    induction d as [|t0 d IH]; intros [|ti] Ht; simpl in *; try discriminate.
    + injection Ht as ->. unfold insertBefore. now rewrite Hp.
    + f_equal. now apply IH.
  - apply nth_error_None in En. lia.
Qed.

(** C1.  Tier 1 holds X, Y, Z and rank 3 is typed into the input of X:
    the clamped rank is 3, yet X ends second, in front of Z, and is shown
    rank 2.  (Typing 1 into the input of Z, an upward move, does put Z
    first.) *)
Theorem manual_rank_downward_falls_short :
  clamp_rank (Some 3) 3 = 3 /\
  map tier_order (fst (handleRankInputChange 0 0 (Some 3) page_xyz))
  = [["Y"; "X"; "Z"]; []]%string /\
  map (fun t => map rank_input (children t))
      (fst (handleRankInputChange 0 0 (Some 3) page_xyz))
  = [[Some 1; Some 2; Some 3]; []] /\
  map tier_order (fst (handleRankInputChange 0 2 (Some 1) page_xyz))
  = [["Z"; "X"; "Y"]; []]%string.
Proof. repeat split. Qed.

(** C6.  When the clamped rank is the rank the player already has, the
    handler only runs [updateRanks] and calls no [delayedSave]: no tier
    changes its order, and the ranks shown are those [updateRanks]
    computes for the page as it was (the page itself, when its ranks were
    up to date). *)
Theorem manual_rank_same_position (d : page) (ti pi : nat)
        (parsed : option Z) (t : tier) (n : Z) (p : element) :
  nth_error d ti = Some t ->
  data_tier t = Numbered n ->
  nth_error (children t) pi = Some p ->
  clamp_rank parsed (length (children t)) = Z.of_nat pi + 1 ->
  let d' := fst (handleRankInputChange ti pi parsed d) in
  handleRankInputChange ti pi parsed d = (updateRanks d, false) /\
  map tier_order d' = map tier_order d /\
  updateRanks d' = updateRanks d /\
  (updateRanks d = d -> d' = d).
Proof.
  intros Ht Hk Hp Hr d'. subst d'.
  unfold handleRankInputChange. rewrite Ht, Hk, Hp, Hr.
  replace (Z.of_nat pi =? Z.of_nat pi + 1 - 1) with true
    by (symmetry; apply Z.eqb_eq; lia).
  simpl. repeat split.
  - apply updateRanks_orders.
  - apply updateRanks_idem.
  - auto.
Qed.

Lemma manual_rank_same_position_witness :
  handleRankInputChange 0 1 (Some 2) page_xyz = (updateRanks page_xyz, false).
Proof.
  apply (manual_rank_same_position page_xyz 0 1 (Some 2) tier1_xyz 1
           (sample_element "Y"));
    reflexivity.
Defined.

(** ** Rendering in chunks *)

Lemma slice_from_length {A : Type} (l : list A) (start stop : Z) :
  0 <= start <= Z.of_nat (length l) ->
  Z.of_nat (length (slice l start stop)) <= Z.of_nat (length l) - start.
Proof.
  intros Hs. unfold slice, slice_bound.
  rewrite length_firstn, length_skipn.
  destruct (Z.ltb_spec start 0) as [E|E]; [exfalso; lia|].
  rewrite (Z.min_l start) by lia.
  generalize (if stop <? 0
              then Z.max (Z.of_nat (length l) + stop) 0
              else Z.min stop (Z.of_nat (length l))).
  intros z. lia.
Qed.

Lemma state_eta (s : state) :
  with_doc (doc s)
    (with_cursor (currentDisplayArray s) (displayedCount s) s) = s.
Proof. now destruct s. Qed.

(** One call of [renderMorePlayers] from a cursor inside its sequence. *)
Lemma renderMorePlayers_cursor (n : Z) (s : state) :
  0 <= displayedCount s <= Z.of_nat (length (currentDisplayArray s)) ->
  let s' := renderMorePlayers n s in
  currentDisplayArray s' = currentDisplayArray s /\
  displayedCount s <= displayedCount s' /\
  displayedCount s' <= Z.of_nat (length (currentDisplayArray s)) /\
  (displayedCount s = Z.of_nat (length (currentDisplayArray s)) -> s' = s).
Proof.
  intros Hc s'. subst s'. unfold renderMorePlayers.
  destruct (getElementById "tier-unranked" (doc s)) as [u|].
  2:{ repeat split; lia. }
  set (sl := slice _ _ _).
  pose proof (slice_from_length (currentDisplayArray s) (displayedCount s)
                (displayedCount s + n) Hc) as Hsl.
  fold sl in Hsl. simpl. repeat split; try lia.
  intros Hend.
  assert (Hnil : sl = []).
  { destruct sl; [reflexivity|simpl in Hsl; lia]. }
  rewrite Hnil. simpl. rewrite Z.add_0_r. apply state_eta.
Qed.

Lemma reveal_all_cursor (limits : list Z) :
  forall s,
    0 <= displayedCount s <= Z.of_nat (length (currentDisplayArray s)) ->
    currentDisplayArray (reveal_all limits s) = currentDisplayArray s /\
    displayedCount s <= displayedCount (reveal_all limits s) /\
    displayedCount (reveal_all limits s)
    <= Z.of_nat (length (currentDisplayArray s)).
Proof.
  induction limits as [|n limits IH]; intros s Hc; simpl.
  - repeat split; lia.
  - destruct (renderMorePlayers_cursor n s Hc) as (Ha & Hlo & Hhi & _).
    destruct (IH (renderMorePlayers n s)) as (Ha' & Hlo' & Hhi').
    + rewrite Ha. lia.
    + unfold reveal_all in *. rewrite Ha', Ha in *. repeat split; lia.
Qed.

(** C7.  Start from a cursor at 0 ([renderInitialPlayers] sets it there,
    and the script starts there) and call [renderMorePlayers] any number
    of times with any limits.  The next call, with any limit, never
    lowers [displayedCount], never takes it past the length of
    [currentDisplayArray], leaves that array alone, and changes nothing
    at all, page included, once [displayedCount] is that length. *)
Theorem displayedCount_monotone (s0 : state) (limits : list Z) (n : Z) :
  displayedCount s0 = 0 ->
  let s := reveal_all limits s0 in
  let s' := renderMorePlayers n s in
  currentDisplayArray s' = currentDisplayArray s0 /\
  0 <= displayedCount s /\
  displayedCount s <= displayedCount s' /\
  displayedCount s' <= Z.of_nat (length (currentDisplayArray s0)) /\
  (displayedCount s = Z.of_nat (length (currentDisplayArray s0)) -> s' = s).
Proof.
  intros H0 s s'.
  destruct (reveal_all_cursor limits s0) as (Ha & Hlo & Hhi); [lia|].
  fold s in Ha, Hlo, Hhi.
  destruct (renderMorePlayers_cursor n s) as (Ha' & Hlo' & Hhi' & Hend).
  { rewrite Ha. lia. }
  fold s' in Ha', Hlo', Hhi', Hend. rewrite Ha in *.
  repeat split; try lia; auto; congruence.
Qed.

(** ** Filters *)

Lemma prefix_app (q s : string) :
  String.prefix q s = true <-> exists b, s = (q ++ b)%string.
Proof.
  revert s. induction q as [|c q IH]; intros s; simpl.
  - split; [intros _; now exists s|intros _; now destruct s].
  - destruct s as [|c' s]; simpl.
    + split; [discriminate|intros [b Hb]; discriminate].
    + destruct (ascii_dec c c') as [->|Hne].
      * rewrite IH. split; intros [b Hb]; exists b; congruence.
      * split; [discriminate|]. intros [b Hb]. congruence.
Qed.

(** [includes] is the substring test. *)
Lemma includes_spec (s q : string) :
  includes s q = true <-> exists a b, s = (a ++ q ++ b)%string.
Proof.
  induction s as [|c s IH].
  - cbn [includes]. rewrite orb_false_r, prefix_app. split.
    + intros [b Hb]. now exists ""%string, b.
    + intros (a & b & Hab). destruct a; [now exists b|discriminate].
  - cbn [includes]. rewrite orb_true_iff, prefix_app, IH. split.
    + intros [[b Hb]|(a & b & Hab)].
      * now exists ""%string, b.
      * exists (String c a), b. simpl. congruence.
    + intros (a & b & Hab). destruct a as [|c' a].
      * left. now exists b.
      * right. exists a, b. simpl in Hab. congruence.
Qed.

Lemma is_empty_spec (s : string) : is_empty s = true <-> s = ""%string.
Proof. destruct s; simpl; split; congruence. Qed.

Lemma applyFilters_nth (s : state) (ti pi : nat) :
  option_map (fun t => nth_error (children t) pi)
             (nth_error (doc (applyFilters s)) ti)
  = option_map (fun t =>
       option_map (filter_element (toLowerCase (filterInput s))
                                  (activePosFilter s))
                  (nth_error (children t) pi))
     (nth_error (doc s) ti).
Proof.
  unfold applyFilters. simpl. rewrite nth_error_map.
  destruct (nth_error (doc s) ti) as [t|]; simpl; [|reflexivity].
  now rewrite nth_error_map.
Qed.

(** C8.  [applyFilters] gives the [pi]-th player of the [ti]-th tier the
    visibility "name matches and position matches": the name matches when
    the search text (the filter box, lowercased) is empty or occurs in
    the element's lowercase name; the position matches when no position
    filter is active or it equals the element's position.  Nothing else
    of the element changes, and what it showed before plays no part. *)
Theorem applyFilters_visibility (s : state) (ti pi : nat)
        (t : tier) (p : element) :
  nth_error (doc s) ti = Some t ->
  nth_error (children t) pi = Some p ->
  let nameSearch := toLowerCase (filterInput s) in
  exists t' p',
    nth_error (doc (applyFilters s)) ti = Some t' /\
    nth_error (children t') pi = Some p' /\
    tier_order t' = tier_order t /\
    set_shown (shown p) p' = p /\
    (shown p' = true <->
       (nameSearch = ""%string \/
        exists a b, data_name p = (a ++ nameSearch ++ b)%string) /\
       (activePosFilter s = ""%string \/
        toUpperCase (data_position p) = activePosFilter s)) /\
    (forall b, filter_element nameSearch (activePosFilter s) (set_shown b p)
               = p').
Proof.
  intros Ht Hp nameSearch.
  pose proof (applyFilters_nth s ti pi) as H.
  rewrite Ht in H. simpl in H. rewrite Hp in H. simpl in H.
  unfold applyFilters in *. simpl in *. rewrite nth_error_map, Ht in *.
  simpl in *. injection H as H.
  eexists. eexists. split; [reflexivity|]. split; [exact H|].
  split.
  { unfold tier_order, ids_of. simpl. rewrite map_map. now apply map_ext. }
  split.
  { now destruct p. }
  split; [|reflexivity].
  unfold filter_element, matchesName, matchesPos. simpl.
  fold nameSearch.
  rewrite andb_true_iff, !orb_true_iff, !is_empty_spec, includes_spec.
  now rewrite String.eqb_eq.
Qed.

(** ** Tiers *)

Lemma Math_max_upper (l : list Z) :
  forall first, first <= Math_max first l /\
                Forall (fun m => m <= Math_max first l) l.
Proof.
  unfold Math_max. induction l as [|x l IH]; intros first; simpl.
  - split; [lia|constructor].
  - destruct (IH (Z.max first x)) as [H1 H2]. split; [lia|].
    constructor; [lia|assumption].
Qed.

Lemma Math_max_in (l : list Z) :
  forall first, In (Math_max first l) (first :: l).
Proof.
  unfold Math_max. induction l as [|x l IH]; intros first; simpl.
  - now left.
  - destruct (IH (Z.max first x)) as [H|H].
    + rewrite <- H. destruct (Z.max_spec first x) as [[_ ->]|[_ ->]]; auto.
    + auto.
Qed.

Lemma existingTiers_app (d1 d2 : page) :
  existingTiers (d1 ++ d2) = existingTiers d1 ++ existingTiers d2.
Proof.
  induction d1 as [|t d1 IH]; simpl; [reflexivity|].
  destruct (data_tier t); simpl; now rewrite IH.
Qed.

Lemma existingTiers_in (d : page) (m : Z) :
  In m (existingTiers d) <-> exists t, In t d /\ data_tier t = Numbered m.
Proof.
  induction d as [|t d IH]; simpl.
  - split; [tauto|intros (t & [] & _)].
  - destruct (data_tier t) eqn:E; simpl; rewrite IH; split.
    + intros (t' & Hin & Ht'). eauto.
    + intros (t' & [<-|Hin] & Ht'); [congruence|eauto].
    + intros [<-|(t' & Hin & Ht')]; eauto.
    + intros (t' & [<-|Hin] & Ht'); [left; congruence|eauto].
Qed.

(** Wherever the unranked tier stands, the new tier goes right in front
    of the first unranked tier, and last when there is none. *)
Lemma insert_before_unranked_split (tierDiv : tier) (d : page) :
  exists above below,
    d = above ++ below /\
    Forall (fun t => is_unranked t = false) above /\
    match below with [] => True | u :: _ => is_unranked u = true end /\
    insert_before_unranked tierDiv d = above ++ tierDiv :: below.
Proof.
  induction d as [|t d (above & below & Hd & Ha & Hb & Hi)]; simpl.
  - exists [], []. repeat split; constructor.
  - destruct (is_unranked t) eqn:E.
    + exists [], (t :: d). repeat split; auto.
    + exists (t :: above), below. rewrite Hi, Hd.
      repeat split; auto.
Qed.

Lemma insert_before_unranked_last (tierDiv : tier) (above : list tier)
      (below : page) :
  Forall (fun t => is_unranked t = false) above ->
  match below with [] => True | u :: _ => is_unranked u = true end ->
  insert_before_unranked tierDiv (above ++ below) = above ++ tierDiv :: below.
Proof.
  intros Ha Hb. induction Ha as [|t above Ht Ha IH]; simpl.
  - destruct below as [|u below]; simpl; [reflexivity|now rewrite Hb].
  - now rewrite Ht, IH.
Qed.

(** The click on a page of numbered tiers followed by the unranked one. *)
Lemma clickAddTier_inserts (s : state) (numbered : list tier) (u : tier) :
  doc s = numbered ++ [u] ->
  Forall (fun t => is_unranked t = false) numbered ->
  is_unranked u = true ->
  let n := newTierNumber (doc s) in
  doc (clickAddTier s)
  = numbered ++ [mkTier (Numbered n) (tier_list_id n) []; u] /\
  (numbered = [] -> n = 1) /\
  (numbered <> [] ->
   (exists t, In t numbered /\ data_tier t = Numbered (n - 1)) /\
   (forall t m, In t numbered -> data_tier t = Numbered m -> m <= n - 1)).
Proof.
  intros Hd Hn Hu n. split; [|split].
  - unfold clickAddTier, createTier. simpl. fold n. rewrite Hd.
    now apply insert_before_unranked_last.
  - intros ->. subst n. rewrite Hd. simpl.
    unfold newTierNumber. simpl.
    unfold is_unranked in Hu. now destruct (data_tier u).
  - intros Hne.
    assert (He : existingTiers (doc s) = existingTiers numbered).
    { rewrite Hd, existingTiers_app. simpl.
      unfold is_unranked in Hu. destruct (data_tier u); [|discriminate].
      apply app_nil_r. }
    assert (Hcons : exists m l, existingTiers numbered = m :: l).
    { destruct numbered as [|t l]; [congruence|].
      inversion Hn as [|? ? Ht _]; subst. simpl.
      unfold is_unranked in Ht. destruct (data_tier t); [discriminate|].
      eauto. }
    destruct Hcons as (m0 & l & Hml).
    assert (Hnum : n - 1 = Math_max m0 l).
    { subst n. unfold newTierNumber. rewrite He, Hml. lia. }
    rewrite Hnum. split.
    + apply existingTiers_in. rewrite Hml. apply Math_max_in.
    + intros t m Hin Hm.
      assert (Him : In m (m0 :: l)).
      { rewrite <- Hml. apply existingTiers_in. eauto. }
      destruct (Math_max_upper l m0) as [H1 H2].
      destruct Him as [<-|Him]; [assumption|].
      rewrite Forall_forall in H2. now apply H2.
Qed.

Lemma newTierNumber_exact (d : page) :
  exact_tiers 1 d -> Z.abs (newTierNumber d) <= MAX_SAFE_INTEGER.
Proof.
  unfold exact_tiers, newTierNumber. intros H.
  destruct (existingTiers d) as [|m l] eqn:E; [vm_compute; discriminate|].
  rewrite Forall_forall in H.
  specialize (H _ (or_intror (Math_max_in l m))). lia.
Qed.

(** C9.  On a page made of numbered tiers followed by the unranked tier,
    the numbers of the tiers and the next one being integers that the
    doubles of the script hold exactly (below 2^53 in size), the add-tier
    click puts one new, empty tier between the last numbered tier and the
    unranked tier and moves no other tier.  Its number is 1 when there
    was no numbered tier, and otherwise one more than the highest number
    among them; it is held exactly, too. *)
Theorem clickAddTier_appends (s : state) (numbered : list tier) (u : tier) :
  doc s = numbered ++ [u] ->
  Forall (fun t => is_unranked t = false) numbered ->
  is_unranked u = true ->
  exact_tiers 1 (doc s) ->
  let n := newTierNumber (doc s) in
  doc (clickAddTier s)
  = numbered ++ [mkTier (Numbered n) (tier_list_id n) []; u] /\
  (numbered = [] -> n = 1) /\
  (numbered <> [] ->
   (exists t, In t numbered /\ data_tier t = Numbered (n - 1)) /\
   (forall t m, In t numbered -> data_tier t = Numbered m -> m <= n - 1)) /\
  Z.abs n <= MAX_SAFE_INTEGER.
Proof.
  intros Hd Hn Hu Hx n.
  destruct (clickAddTier_inserts s numbered u Hd Hn Hu) as (H1 & H2 & H3).
  repeat split; try assumption; try (now apply H3).
  now apply newTierNumber_exact.
Qed.

(** ** The pool *)

Section Sorting.
Context {A : Type} (cmp : A -> A -> comparison).


Hypothesis cmp_total : forall a b, cmp a b = Gt -> cmp b a <> Gt.
Hypothesis cmp_trans :
  forall a b c, cmp a b <> Gt -> cmp b c <> Gt -> cmp a c <> Gt.

Lemma insert_sorted_perm (x : A) (l : list A) :
  Permutation (insert_sorted cmp x l) (x :: l).
Proof.
  induction l as [|y l IH]; simpl; [reflexivity|].
  destruct (cmp x y); try reflexivity.
  rewrite IH. apply perm_swap.
Qed.

Lemma sort_perm (l : list A) : Permutation (sort cmp l) l.
Proof.
  induction l as [|x l IH]; simpl; [reflexivity|].
  rewrite insert_sorted_perm. now constructor.
Qed.


End Sorting.








Lemma has_position_spec (p : player) :
  has_position p = true <->
  In (toUpperCase (or_empty (position p))) POSITIONS.
Proof.
  unfold has_position. rewrite existsb_exists. split.
  - intros (x & Hin & Hx). apply String.eqb_eq in Hx. now subst.
  - intros Hin. eexists. split; [exact Hin|apply String.eqb_refl].
Qed.


(** ** The players on the page *)

Lemma page_ids_app (d1 d2 : page) :
  page_ids (d1 ++ d2) = page_ids d1 ++ page_ids d2.
Proof.
  unfold page_ids, all_players, ids_of.
  now rewrite flat_map_app, map_app.
Qed.

Lemma page_ids_cons (t : tier) (d : page) :
  page_ids (t :: d) = tier_order t ++ page_ids d.
Proof.
  unfold page_ids, all_players, ids_of, tier_order. simpl.
  now rewrite map_app.
Qed.

Lemma update_tier_split (f : tier -> tier) (d : page) :
  forall ti t,
    nth_error d ti = Some t ->
    d = firstn ti d ++ t :: skipn (S ti) d /\
    update_tier ti f d = firstn ti d ++ f t :: skipn (S ti) d.
Proof.
  induction d as [|t0 d IH]; intros [|ti] t Ht; simpl in *; try discriminate.
  - injection Ht as ->. auto.
  - destruct (IH ti t Ht) as [H1 H2]. split; congruence.
Qed.

Lemma update_tier_none (f : tier -> tier) (d : page) :
  forall ti, nth_error d ti = None -> update_tier ti f d = d.
Proof.
  induction d as [|t0 d IH]; intros [|ti] Ht; simpl in *;
    try discriminate; try reflexivity.
  now rewrite IH.
Qed.

Lemma update_tier_nth (f : tier -> tier) (d : page) :
  forall ti tj,
    nth_error (update_tier ti f d) tj
    = if Nat.eqb tj ti then option_map f (nth_error d tj)
      else nth_error d tj.
Proof.
  induction d as [|t0 d IH]; intros [|ti] [|tj]; simpl; try reflexivity.
  - now destruct (Nat.eqb tj ti).
  - apply IH.
Qed.

Lemma update_tier_length (f : tier -> tier) (d : page) :
  forall ti, length (update_tier ti f d) = length d.
Proof.
  induction d as [|t0 d IH]; intros [|ti]; simpl; auto.
Qed.

(** Changing the children of one tier into a permutation of [extra]
    followed by what they were changes the ids of the page likewise. *)
Lemma page_ids_update (f : tier -> tier) (d : page) (ti : nat) (t : tier)
      (extra : list string) :
  nth_error d ti = Some t ->
  Permutation (tier_order (f t)) (extra ++ tier_order t) ->
  Permutation (page_ids (update_tier ti f d)) (extra ++ page_ids d).
Proof.
  intros Ht Hp.
  destruct (update_tier_split f d ti t Ht) as [Hd Hu].
  rewrite Hu. rewrite Hd at 3.
  rewrite !page_ids_app, !page_ids_cons, Hp.
  rewrite !app_assoc. apply Permutation_app_tail.
  rewrite <- !app_assoc. apply Permutation_app_swap_app.
Qed.

Lemma remove_nth_perm {A : Type} (l : list A) :
  forall i x, nth_error l i = Some x ->
              Permutation l (x :: remove_nth i l).
Proof.
  unfold remove_nth.
  induction l as [|y l IH]; intros [|i] x Hx; simpl in *; try discriminate.
  - now injection Hx as ->.
  - rewrite (IH i x Hx) at 1. apply perm_swap.
Qed.

Lemma insert_nth_perm {A : Type} (i : nat) (x : A) (l : list A) :
  Permutation (insert_nth i x l) (x :: l).
Proof.
  unfold insert_nth. rewrite <- Permutation_middle.
  now rewrite firstn_skipn.
Qed.

Lemma element_at_tier (loc : nat * nat) (d : page) (e : element) :
  element_at loc d = Some e ->
  exists t, nth_error d (fst loc) = Some t /\
            nth_error (children t) (snd loc) = Some e.
Proof.
  unfold element_at. destruct (nth_error d (fst loc)) as [t|]; [|discriminate].
  intros H. now exists t.
Qed.

Lemma detach_ids (loc : nat * nat) (d : page) (e : element) :
  element_at loc d = Some e ->
  Permutation (page_ids d) (data_id e :: page_ids (detach loc d)).
Proof.
  intros He. destruct (element_at_tier loc d e He) as (t & Ht & Hp).
  destruct (update_tier_split
              (fun t => set_children t (remove_nth (snd loc) (children t)))
              d (fst loc) t Ht) as [Hd Hu].
  unfold detach. rewrite Hu. rewrite Hd at 1.
  rewrite !page_ids_app, !page_ids_cons.
  unfold tier_order, ids_of. simpl.
  rewrite (remove_nth_perm (children t) (snd loc) e Hp) at 1. simpl.
  now rewrite <- Permutation_middle.
Qed.

Lemma detach_length (loc : nat * nat) (d : page) :
  length (detach loc d) = length d.
Proof. apply update_tier_length. Qed.

Lemma nth_error_in_range {A : Type} (l l' : list A) (i : nat) (x : A) :
  length l' = length l -> nth_error l i = Some x ->
  exists y, nth_error l' i = Some y.
Proof.
  intros Hlen Hx.
  destruct (nth_error l' i) as [y|] eqn:E; [now exists y|].
  apply nth_error_None in E.
  assert (i < length l)%nat by (apply nth_error_Some; congruence). lia.
Qed.

Lemma appendChild_ids (ti : nat) (e : element) (d : page) (t : tier) :
  nth_error d ti = Some t ->
  Permutation (page_ids (appendChild ti e d)) (data_id e :: page_ids d).
Proof.
  intros Ht. unfold appendChild.
  apply (page_ids_update _ d ti t [data_id e] Ht).
  unfold tier_order, ids_of. simpl. rewrite map_app. simpl.
  apply Permutation_app_comm.
Qed.

Lemma move_to_end_ids (ti : nat) (loc : nat * nat) (d : page) (t : tier) :
  nth_error d ti = Some t ->
  Permutation (page_ids (move_to_end ti loc d)) (page_ids d).
Proof.
  intros Ht. unfold move_to_end.
  destruct (element_at loc d) as [e|] eqn:He; [|reflexivity].
  destruct (nth_error_in_range d (detach loc d) ti t (detach_length loc d) Ht)
    as [t' Ht'].
  rewrite (appendChild_ids ti e _ t' Ht').
  symmetry. now apply detach_ids.
Qed.

Lemma drop_player_ids (from : nat * nat) (to_tier to_index : nat) (d : page) :
  Permutation (page_ids (drop_player from to_tier to_index d)) (page_ids d).
Proof.
  unfold drop_player.
  destruct (element_at from d) as [e|] eqn:He; [|reflexivity].
  destruct (nth_error d to_tier) as [t|] eqn:Ht; [|reflexivity].
  destruct (nth_error_in_range d (detach from d) to_tier t
              (detach_length from d) Ht) as [t' Ht'].
  rewrite (page_ids_update _ _ to_tier t' [data_id e] Ht').
  - symmetry. now apply detach_ids.
  - unfold tier_order, ids_of. simpl.
    now rewrite insert_nth_perm.
Qed.

Lemma updateRanks_ids (d : page) : page_ids (updateRanks d) = page_ids d.
Proof.
  induction d as [|t d IH]; [reflexivity|].
  change (updateRanks (t :: d)) with
    ((match data_tier t with
      | Unranked => t
      | Numbered _ => set_children t (number_players (children t))
      end) :: updateRanks d).
  rewrite !page_ids_cons, IH. f_equal.
  destruct (data_tier t); [reflexivity|].
  unfold tier_order. simpl. apply number_players_ids.
Qed.

Lemma createTier_ids (n : Z) (d : page) :
  page_ids (createTier n d) = page_ids d.
Proof.
  unfold createTier.
  destruct (insert_before_unranked_split
              (mkTier (Numbered n) (tier_list_id n) []) d)
    as (above & below & Hd & _ & _ & Hi).
  rewrite Hi, Hd, !page_ids_app, page_ids_cons. reflexivity.
Qed.

Lemma insertBefore_perm (pi : nat) (ref : option nat) (l : list element) :
  Permutation (insertBefore pi ref l) l.
Proof.
  unfold insertBefore. destruct (nth_error l pi) as [p|] eqn:Hp; [|reflexivity].
  destruct ref as [ri|].
  - rewrite insert_nth_perm. symmetry. now apply remove_nth_perm.
  - rewrite Permutation_app_comm. simpl. symmetry. now apply remove_nth_perm.
Qed.

Lemma handleRankInputChange_ids (ti pi : nat) (parsed : option Z) (d : page) :
  Permutation (page_ids (fst (handleRankInputChange ti pi parsed d)))
              (page_ids d).
Proof.
  unfold handleRankInputChange.
  destruct (nth_error d ti) as [t|] eqn:Ht; [|reflexivity].
  destruct (data_tier t); [reflexivity|].
  destruct (nth_error (children t) pi); [|reflexivity].
  destruct (_ =? _); simpl; rewrite updateRanks_ids; [reflexivity|].
  apply (page_ids_update _ d ti t [] Ht).
  unfold tier_order, ids_of. simpl.
  apply Permutation_map, insertBefore_perm.
Qed.

Lemma applyFilters_ids (s : state) :
  page_ids (doc (applyFilters s)) = page_ids (doc s).
Proof.
  unfold applyFilters. simpl.
  induction (doc s) as [|t d IH]; [reflexivity|].
  simpl. rewrite !page_ids_cons, IH. f_equal.
  unfold tier_order, ids_of. simpl. rewrite map_map. now apply map_ext.
Qed.

(** *** Looking up *)

Lemma getElementById_some (i : string) (d : page) :
  forall ti, getElementById i d = Some ti ->
             exists t, nth_error d ti = Some t /\ list_id t = i.
Proof.
  induction d as [|t d IH]; intros ti; simpl; [discriminate|].
  destruct (String.eqb_spec (list_id t) i) as [E|E].
  - intros [= <-]. now exists t.
  - destruct (getElementById i d) as [tj|]; simpl; [|discriminate].
    intros [= <-]. now apply IH.
Qed.

Lemma find_index_none {A : Type} (f : A -> bool) (l : list A) :
  find_index f l = None -> forall x, In x l -> f x = false.
Proof.
  induction l as [|y l IH]; simpl; [tauto|].
  destruct (f y) eqn:E; [discriminate|].
  destruct (find_index f l); simpl; [discriminate|].
  intros _ x [<-|Hx]; auto.
Qed.

Lemma find_index_some {A : Type} (f : A -> bool) (l : list A) :
  forall i, find_index f l = Some i ->
            exists x, nth_error l i = Some x /\ f x = true /\
                      forall j y, (j < i)%nat -> nth_error l j = Some y ->
                                  f y = false.
Proof.
  induction l as [|y l IH]; intros i; simpl; [discriminate|].
  destruct (f y) eqn:E.
  - intros [= <-]. exists y. repeat split; auto. intros j z Hj. lia.
  - destruct (find_index f l) as [k|]; simpl; [|discriminate].
    intros [= <-]. destruct (IH k eq_refl) as (x & Hx & Hfx & Hlt).
    exists x. repeat split; auto.
    intros [|j] z Hj Hz; simpl in Hz; [congruence|].
    apply (Hlt j z); [lia|assumption].
Qed.

Lemma querySelector_player_none (i : string) (d : page) :
  querySelector_player i d = None -> ~ In i (page_ids d).
Proof.
  induction d as [|t d IH]; simpl; [tauto|].
  destruct (find_index _ (children t)) as [pi|] eqn:E; [discriminate|].
  destruct (querySelector_player i d); simpl; [discriminate|].
  intros _. rewrite page_ids_cons, in_app_iff. intros [H|H].
  - unfold tier_order, ids_of in H. apply in_map_iff in H.
    destruct H as (e & He & Hin).
    pose proof (find_index_none _ _ E e Hin) as Hf. simpl in Hf.
    rewrite He, String.eqb_refl in Hf. discriminate.
  - now apply IH.
Qed.

Lemma querySelector_player_some (i : string) (d : page) :
  forall loc, querySelector_player i d = Some loc ->
              exists e, element_at loc d = Some e /\ data_id e = i.
Proof.
  unfold element_at.
  induction d as [|t d IH]; intros loc; simpl; [discriminate|].
  destruct (find_index _ (children t)) as [pi|] eqn:E.
  - intros [= <-]. simpl.
    destruct (find_index_some _ _ _ E) as (x & Hx & Hfx & _).
    exists x. split; [assumption|]. now apply String.eqb_eq.
  - destruct (querySelector_player i d) as [[tj pj]|]; simpl; [|discriminate].
    intros [= <-]. simpl. apply (IH (tj, pj) eq_refl).
Qed.

(** *** Where a manual rank lands *)

Lemma mapi_from_nth {A B : Type} (f : nat -> A -> B) (l : list A) :
  forall i k, nth_error (mapi_from f i l) k
              = option_map (f (i + k)%nat) (nth_error l k).
Proof.
  induction l as [|x l IH]; intros i [|k]; simpl; try reflexivity.
  - now rewrite Nat.add_0_r.
  - rewrite IH. now rewrite Nat.add_succ_r.
Qed.

Lemma insert_nth_at {A : Type} (k : nat) (x : A) (l : list A) :
  (k <= length l)%nat -> nth_error (insert_nth k x l) k = Some x.
Proof.
  intros Hk. unfold insert_nth.
  rewrite nth_error_app2 by (rewrite length_firstn; lia).
  rewrite length_firstn, Nat.min_l, Nat.sub_diag by assumption.
  reflexivity.
Qed.

Lemma remove_nth_length {A : Type} (i : nat) (l : list A) :
  (i < length l)%nat -> length (remove_nth i l) = pred (length l).
Proof.
  intros Hi. unfold remove_nth.
  rewrite length_app, length_firstn, length_skipn. lia.
Qed.

(** Where a manual rank puts the player: at the rank asked for when that
    is above its place, one rank short of it when it is below. *)
Lemma manual_rank_lands (d : page) (ti pi : nat) (parsed : option Z)
      (t : tier) (n : Z) (p : element) :
  nth_error d ti = Some t ->
  data_tier t = Numbered n ->
  nth_error (children t) pi = Some p ->
  let r := clamp_rank parsed (length (children t)) in
  Z.of_nat pi <> r - 1 ->
  let shown_rank := if r - 1 <? Z.of_nat pi then r else r - 1 in
  exists t' p',
    nth_error (fst (handleRankInputChange ti pi parsed d)) ti = Some t' /\
    nth_error (children t') (Z.to_nat (shown_rank - 1)) = Some p' /\
    data_id p' = data_id p /\
    rank_input p' = Some shown_rank.
Proof.
  intros Ht Hk Hp r Hne shown_rank.
  assert (Hpi : (pi < length (children t))%nat)
    by (apply nth_error_Some; congruence).
  pose proof (clamp_rank_bounds parsed (length (children t))) as Hr.
  fold r in Hr. specialize (Hr ltac:(lia)).
  rewrite (handleRankInputChange_moves d ti pi parsed t n p Ht Hk Hp Hne).
  fold r. cbn [fst].
  rewrite updateRanks_nth, update_tier_nth, Nat.eqb_refl, Ht. simpl.
  rewrite Hk. eexists. eexists. split; [reflexivity|]. simpl.
  unfold number_players, mapi. rewrite mapi_from_nth.
  set (k := if (Z.to_nat (r - 1) <? pi)%nat
            then Z.to_nat (r - 1) else pred (Z.to_nat (r - 1))).
  assert (Hk' : Z.to_nat (shown_rank - 1) = k).
  { subst k shown_rank.
    destruct (Z.ltb_spec (r - 1) (Z.of_nat pi));
      destruct (Nat.ltb_spec (Z.to_nat (r - 1)) pi); lia. }
  rewrite Hk'.
  rewrite insert_nth_at.
  - simpl. repeat split. unfold set_rank. cbn [rank_input]. f_equal. fold k.
    assert (shown_rank >= 1).
    { subst shown_rank. destruct (Z.ltb_spec (r - 1) (Z.of_nat pi)); lia. }
    clearbody k shown_rank. lia.
  - rewrite remove_nth_length by assumption. subst k.
    destruct (Nat.ltb_spec (Z.to_nat (r - 1)) pi); lia.
Qed.

(** ** Every player once *)

Lemma keeps_players_refl (d : page) : keeps_players d d.
Proof. split; [auto|apply incl_refl]. Qed.

Lemma keeps_players_trans (d1 d2 d3 : page) :
  keeps_players d1 d2 -> keeps_players d2 d3 -> keeps_players d1 d3.
Proof.
  intros [H1 H2] [H3 H4]. split; [auto|].
  eapply incl_tran; eassumption.
Qed.

Lemma keeps_players_perm (d d' : page) :
  Permutation (page_ids d') (page_ids d) -> keeps_players d d'.
Proof.
  intros Hp. split.
  - intros Hn. eapply Permutation_NoDup; [symmetry; exact Hp|exact Hn].
  - intros i Hi. eapply Permutation_in; [symmetry; exact Hp|exact Hi].
Qed.

Lemma keeps_players_eq (d d' : page) :
  page_ids d' = page_ids d -> keeps_players d d'.
Proof. intros H. apply keeps_players_perm. now rewrite H. Qed.

(** A player is appended only when its id is not on the page. *)
Lemma append_if_absent_keeps (u : nat) (d : page) (p : player) (t : tier) :
  nth_error d u = Some t ->
  keeps_players d (append_if_absent u d p) /\
  In (id p) (page_ids (append_if_absent u d p)) /\
  length (append_if_absent u d p) = length d.
Proof.
  intros Ht. unfold append_if_absent.
  destruct (querySelector_player (id p) d) as [loc|] eqn:E.
  - split; [apply keeps_players_refl|]. split; [|reflexivity].
    destruct (querySelector_player_some _ _ _ E) as (e & He & Hid).
    eapply Permutation_in; [symmetry; apply (detach_ids loc d e He)|].
    left. assumption.
  - pose proof (appendChild_ids u (createPlayerElement (id p) p) d t Ht) as Hp.
    simpl in Hp. repeat split.
    + intros Hn. eapply Permutation_NoDup; [symmetry; exact Hp|].
      constructor; [now apply querySelector_player_none|assumption].
    + intros i Hi. eapply Permutation_in; [symmetry; exact Hp|now right].
    + eapply Permutation_in; [symmetry; exact Hp|now left].
    + apply update_tier_length.
Qed.

Lemma fold_append_if_absent_keeps (u : nat) (l : list player) :
  forall d t,
    nth_error d u = Some t ->
    let d' := fold_left (append_if_absent u) l d in
    keeps_players d d' /\
    incl (map id l) (page_ids d') /\
    length d' = length d.
Proof.
  induction l as [|p l IH]; intros d t Ht; simpl.
  - split; [apply keeps_players_refl|]. split; [intros i []|reflexivity].
  - destruct (append_if_absent_keeps u d p t Ht) as (Hk & Hin & Hlen).
    destruct (nth_error_in_range d (append_if_absent u d p) u t Hlen Ht)
      as [t' Ht'].
    destruct (IH _ t' Ht') as (Hk' & Hin' & Hlen').
    split; [eapply keeps_players_trans; eassumption|].
    split; [|congruence].
    intros i [<-|Hi]; [|now apply Hin'].
    now apply (proj2 Hk').
Qed.

Lemma renderMorePlayers_keeps (limit : Z) (s : state) :
  keeps_players (doc s) (doc (renderMorePlayers limit s)) /\
  allPlayers (renderMorePlayers limit s) = allPlayers s.
Proof.
  unfold renderMorePlayers.
  destruct (getElementById "tier-unranked" (doc s)) as [u|] eqn:E.
  - destruct (getElementById_some _ _ _ E) as (t & Ht & _).
    split; [|reflexivity]. simpl.
    apply (fold_append_if_absent_keeps u _ (doc s) t Ht).
  - split; [apply keeps_players_refl|reflexivity].
Qed.

Lemma place_player_keeps (P : platform) (ti : nat) (s : state) (i : json)
      (t : tier) :
  nth_error (doc s) ti = Some t ->
  let s' := place_player P ti s i in
  Permutation (page_ids (doc s')) (page_ids (doc s)) /\
  allPlayers s' = allPlayers s /\
  length (doc s') = length (doc s).
Proof.
  intros Ht. unfold place_player.
  destruct (querySelector_player _ (doc s)) as [loc|]; simpl.
  - split; [now apply (move_to_end_ids ti loc (doc s) t)|].
    split; [reflexivity|].
    unfold move_to_end. destruct (element_at loc (doc s)); [|reflexivity].
    unfold appendChild. now rewrite update_tier_length, detach_length.
  - auto.
Qed.

Lemma fold_place_player_keeps (P : platform) (ti : nat) (ids : list json) :
  forall s t,
    nth_error (doc s) ti = Some t ->
    let s' := fold_left (place_player P ti) ids s in
    Permutation (page_ids (doc s')) (page_ids (doc s)) /\
    allPlayers s' = allPlayers s /\
    length (doc s') = length (doc s).
Proof.
  induction ids as [|i ids IH]; intros s t Ht; simpl; [auto|].
  destruct (place_player_keeps P ti s i t Ht) as (Hp & Ha & Hl).
  destruct (nth_error_in_range (doc s) (doc (place_player P ti s i)) ti t Hl Ht)
    as [t' Ht'].
  destruct (IH _ t' Ht') as (Hp' & Ha' & Hl').
  split; [now rewrite Hp'|]. split; congruence.
Qed.

Lemma load_entries_keeps (P : platform) (entries : list (string * json)) :
  forall s,
    let s' := state_of (load_entries P entries s) in
    Permutation (page_ids (doc s')) (page_ids (doc s)) /\
    allPlayers s' = allPlayers s.
Proof.
  induction entries as [|[tierId playerIds] entries IH]; intros s; simpl;
    [auto|].
  destruct (getElementById tierId (doc s)) as [ti|] eqn:E; [|apply IH].
  destruct (getElementById_some _ _ _ E) as (t & Ht & _).
  destruct playerIds; simpl; auto.
  destruct (fold_place_player_keeps P ti items s t Ht) as (Hp & Ha & _).
  destruct (IH (fold_left (place_player P ti) items s)) as (Hp' & Ha').
  split; [now rewrite Hp'|congruence].
Qed.

Lemma loadRankings_keeps (P : platform) (s : state) :
  let s' := state_of (loadRankings P s) in
  Permutation (page_ids (doc s')) (page_ids (doc s)) /\
  allPlayers s' = allPlayers s.
Proof.
  unfold loadRankings.
  destruct (JSON_parse (stored_text s)); [apply load_entries_keeps|].
  simpl. auto.
Qed.

(** The start of the page, on a page that has the unranked list: every
    player of the pool is on the page afterwards, also when loading
    throws. *)
Lemma populateUnranked_keeps (P : platform) (response : option mapping)
      (s0 : state) :
  getElementById "tier-unranked" (doc s0) <> None ->
  let s := state_of (populateUnranked P response s0) in
  keeps_players (doc s0) (doc s) /\
  allPlayers s = pool_of P (fetchPlayers response) /\
  incl (map id (allPlayers s)) (page_ids (doc s)).
Proof.
  intros Hu. unfold populateUnranked.
  set (s1 := with_allPlayers _ _).
  assert (Hd1 : doc s1 = doc s0) by (subst s1; now destruct response).
  assert (Ha1 : allPlayers s1 = pool_of P (fetchPlayers response))
    by reflexivity.
  rewrite Hd1.
  destruct (getElementById "tier-unranked" (doc s0)) as [u|] eqn:E;
    [|congruence].
  destruct (getElementById_some _ _ _ E) as (t & Ht & _).
  destruct (fold_append_if_absent_keeps u (allPlayers s1) (doc s0) t Ht)
    as (Hk & Hin & _).
  set (s2 := with_doc _ s1) in *.
  destruct (loadRankings_keeps P s2) as (Hp & Ha).
  assert (Hk2 : keeps_players (doc s0) (doc (state_of (loadRankings P s2)))).
  { eapply keeps_players_trans; [exact Hk|].
    now apply keeps_players_perm. }
  assert (Hin2 : incl (map id (allPlayers s1))
                      (page_ids (doc (state_of (loadRankings P s2))))).
  { intros i Hi. eapply Permutation_in; [symmetry; exact Hp|]. now apply Hin. }
  destruct (loadRankings P s2) as [s3|e s3]; simpl in *.
  - unfold keeps_players in *. rewrite !updateRanks_ids, Ha.
    repeat split; try apply Hk2; assumption.
  - rewrite Ha. repeat split; try apply Hk2; assumption.
Qed.

Lemma handle_keeps (ev : event) (s : state) :
  keeps_players (doc s) (doc (handle ev s)) /\
  allPlayers (handle ev s) = allPlayers s.
Proof.
  destruct ev; simpl.
  - split; [|reflexivity]. apply keeps_players_eq. apply createTier_ids.
  - unfold saveRankings. destruct stored; split;
      try reflexivity; apply keeps_players_refl.
  - unfold saveTimeout_fires, saveRankings.
    destruct (saveTimeout s), stored; split;
      try reflexivity; apply keeps_players_refl.
  - split; [|reflexivity]. apply keeps_players_perm. simpl.
    rewrite updateRanks_ids. apply drop_player_ids.
  - unfold rank_input_change.
    pose proof (handleRankInputChange_ids ti pi parsed (doc s)) as Hp.
    destruct (handleRankInputChange ti pi parsed (doc s)) as [d save].
    simpl in Hp. destruct save; split; try reflexivity;
      now apply keeps_players_perm.
  - split; [|reflexivity]. apply keeps_players_eq.
    apply (applyFilters_ids (with_filterInput text s)).
  - split; [|reflexivity]. apply keeps_players_eq.
    apply (applyFilters_ids (with_activePosFilter _ s)).
  - apply renderMorePlayers_keeps.
  - apply renderMorePlayers_keeps.
  - apply (renderMorePlayers_keeps DISPLAY_CHUNK (with_cursor (allPlayers s) 0 s)).
Qed.

Lemma run_keeps (evs : list event) :
  forall s, keeps_players (doc s) (doc (run evs s)) /\
            allPlayers (run evs s) = allPlayers s.
Proof.
  induction evs as [|ev evs IH]; intros s; simpl.
  - split; [apply keeps_players_refl|reflexivity].
  - destruct (handle_keeps ev s) as [Hk Ha].
    destruct (IH (handle ev s)) as [Hk' Ha'].
    split; [eapply keeps_players_trans; eassumption|congruence].
Qed.

(** An id that is once on the page is in one tier only. *)
Lemma one_tier (d : page) (i : string) :
  NoDup (page_ids d) -> In i (page_ids d) ->
  exists ti t,
    nth_error d ti = Some t /\ In i (tier_order t) /\
    forall tj t', nth_error d tj = Some t' -> In i (tier_order t') -> tj = ti.
Proof.
  induction d as [|t d IH]; [intros _ []|].
  rewrite page_ids_cons. intros Hn Hi.
  pose proof (NoDup_app_remove_l _ _ Hn) as Hnd.
  apply in_app_or in Hi. destruct Hi as [Hi|Hi].
  - exists O, t. repeat split; auto.
    intros [|tj] t' Ht' Hi'; [reflexivity|exfalso].
    simpl in Ht'.
    assert (In i (page_ids d)).
    { apply nth_error_split in Ht'. destruct Ht' as (a & b & -> & _).
      rewrite page_ids_app, page_ids_cons, !in_app_iff. auto. }
    revert Hn Hi H. clear. intros Hn Hi H.
    induction (tier_order t) as [|x l IHl]; [destruct Hi|].
    simpl in Hn. inversion Hn as [|? ? Hx Hn']; subst.
    destruct Hi as [->|Hi]; [apply Hx, in_or_app; auto|now apply IHl].
  - destruct (IH Hnd Hi) as (ti & t0 & Ht0 & Hi0 & Huniq).
    exists (S ti), t0. repeat split; auto.
    intros [|tj] t' Ht' Hi'.
    + exfalso. simpl in Ht'. injection Ht' as <-.
      revert Hn Hi Hi'. clear. intros Hn Hi Hi'.
      induction (tier_order t) as [|x l IHl]; [destruct Hi'|].
      simpl in Hn. inversion Hn as [|? ? Hx Hn']; subst.
      destruct Hi' as [->|Hi']; [apply Hx, in_or_app; auto|now apply IHl].
    + f_equal. now apply (Huniq tj t').
Qed.

(** Every step keeps the players of the page. *)
Lemma players_stay_in_one_tier (P : platform) (response : option mapping)
        (s0 : state) (evs : list event) :
  NoDup (page_ids (doc s0)) ->
  getElementById "tier-unranked" (doc s0) <> None ->
  let s := run evs (state_of (populateUnranked P response s0)) in
  allPlayers s = pool_of P (fetchPlayers response) /\
  NoDup (page_ids (doc s)) /\
  forall p, In p (allPlayers s) ->
    count_occ string_dec (page_ids (doc s)) (id p) = 1%nat /\
    exists ti t,
      nth_error (doc s) ti = Some t /\ In (id p) (tier_order t) /\
      forall tj t', nth_error (doc s) tj = Some t' ->
                    In (id p) (tier_order t') -> tj = ti.
Proof.
  intros Hn Hu s.
  destruct (populateUnranked_keeps P response s0 Hu) as (Hk & Ha & Hin).
  destruct (run_keeps evs (state_of (populateUnranked P response s0)))
    as (Hk' & Ha').
  fold s in Hk', Ha'.
  assert (Hnd : NoDup (page_ids (doc s))) by (apply Hk', Hk, Hn).
  split; [congruence|]. split; [assumption|].
  intros p Hp.
  assert (Hi : In (id p) (page_ids (doc s))).
  { apply Hk', Hin. rewrite <- Ha'. now apply in_map. }
  split.
  - apply NoDup_count_occ'; assumption.
  - now apply one_tier.
Qed.

(** C4.  Start the script on a page that has the unranked list and no id
    twice (a page without players, say), with any answer to the request,
    and let any events follow: drags, rank changes, added tiers, saves,
    filters, further rendering.  The ids that the script looks up can be
    written into its selector (those of the pool and of
    [currentDisplayArray], and those stored under the id of a list), and
    the stored keys name lists only, not another element of the page.
    Then every id of the pool is exactly once among the players of the
    page, and so in the order of exactly one tier; this holds also when
    loading threw, on text that is not JSON or on a stored value that is
    not an array.  No id is ever on the page twice. *)
Theorem every_player_in_one_tier (P : platform) (response : option mapping)
        (s0 : state) (evs : list event) :
  NoDup (page_ids (doc s0)) ->
  getElementById "tier-unranked" (doc s0) <> None ->
  storage_fits P s0 = true ->
  plain_ids (pool_of P (fetchPlayers response)) ->
  plain_ids (currentDisplayArray s0) ->
  let s := run evs (state_of (populateUnranked P response s0)) in
  allPlayers s = pool_of P (fetchPlayers response) /\
  NoDup (page_ids (doc s)) /\
  forall p, In p (allPlayers s) ->
    count_occ string_dec (page_ids (doc s)) (id p) = 1%nat /\
    exists ti t,
      nth_error (doc s) ti = Some t /\ In (id p) (tier_order t) /\
      forall tj t', nth_error (doc s) tj = Some t' ->
                    In (id p) (tier_order t') -> tj = ti.
Proof.
  intros Hn Hu _ _ _. now apply players_stay_in_one_tier.
Qed.

(** ** Written and read back *)

Lemma append_assoc (a b c : string) :
  ((a ++ b) ++ c = a ++ b ++ c)%string.
Proof. induction a as [|x a IH]; simpl; [reflexivity|now rewrite IH]. Qed.

Lemma append_nil_r (a : string) : (a ++ "" = a)%string.
Proof. induction a as [|x a IH]; simpl; [reflexivity|now rewrite IH]. Qed.

Lemma length_append (a b : string) :
  String.length (a ++ b) = (String.length a + String.length b)%nat.
Proof. induction a as [|x a IH]; simpl; [reflexivity|now rewrite IH]. Qed.

(** One character, written by [quote_char], is read back by
    [parse_chars]. *)
Lemma parse_chars_quote_char (c : ascii) (text : string)
      (r : option (string * string)) :
  parse_chars text = r ->
  parse_chars (quote_char c ++ text) = prepend (char_string c) r.
Proof.
  intros <-.
  destruct c as [b0 b1 b2 b3 b4 b5 b6 b7];
    destruct b0, b1, b2, b3, b4, b5, b6, b7; reflexivity.
Qed.

Lemma parse_chars_quote_chars (s rest : string) :
  parse_chars (quote_chars s ++ String dquote rest) = Some (s, rest).
Proof.
  induction s as [|c s IH]; [reflexivity|].
  cbn [quote_chars]. rewrite append_assoc.
  now rewrite (parse_chars_quote_char c _ _ IH).
Qed.

Lemma quote_app (s rest : string) :
  (quote s ++ rest = String dquote (quote_chars s ++ String dquote rest))%string.
Proof. unfold quote. simpl. now rewrite append_assoc. Qed.

Lemma quote_length (s : string) : (2 <= String.length (quote s))%nat.
Proof. unfold quote. simpl. rewrite length_append. simpl. lia. Qed.

Lemma parse_value_quote (fuel : nat) (s rest : string) :
  (0 < fuel)%nat ->
  parse_value fuel (quote s ++ rest) = Some (JString s, rest).
Proof.
  destruct fuel as [|fuel]; [lia|intros _].
  rewrite quote_app. cbn. now rewrite parse_chars_quote_chars.
Qed.

Lemma parse_elements_step (fuel : nat) (s : string) :
  parse_elements (S fuel) s
  = match parse_value fuel s with
    | None => None
    | Some (v, r) =>
        match skip_ws r with
        | String c r' =>
            if (code c =? 44)%N then
              match parse_elements fuel (skip_ws r') with
              | Some (vs, rest) => Some (v :: vs, rest)
              | None => None
              end
            else if (code c =? 93)%N then Some ([v], r')
            else None
        | EmptyString => None
        end
    end.
Proof. reflexivity. Qed.

Lemma concat_quote_head (x : string) (l : list string) :
  exists t, String.concat "," (map quote (x :: l)) = String dquote t.
Proof.
  destruct l as [|y l]; unfold quote; simpl; eexists; reflexivity.
Qed.

Lemma skip_ws_concat_quote (x : string) (l : list string) (rest : string) :
  skip_ws (String.concat "," (map quote (x :: l)) ++ rest)
  = (String.concat "," (map quote (x :: l)) ++ rest)%string.
Proof.
  destruct (concat_quote_head x l) as [t ->]. reflexivity.
Qed.

Lemma concat_cons (sep x y : string) (l : list string) :
  String.concat sep (x :: y :: l)
  = (x ++ sep ++ String.concat sep (y :: l))%string.
Proof. reflexivity. Qed.

(** The elements of an array of strings. *)
Lemma parse_elements_strings (l : list string) :
  forall fuel x rest,
    (length l + 1 < fuel)%nat ->
    parse_elements fuel
      (String.concat "," (map quote (x :: l)) ++ String "]" rest)
    = Some (map JString (x :: l), rest).
Proof.
  induction l as [|y l IH]; intros fuel x rest Hf;
    (destruct fuel as [|fuel]; [simpl in Hf; lia|]);
    rewrite parse_elements_step.
  - cbn [map String.concat].
    rewrite parse_value_quote by (simpl in Hf; lia). reflexivity.
  - cbn [map]. rewrite concat_cons, !append_assoc.
    rewrite parse_value_quote by (simpl in Hf; lia).
    change (skip_ws ("," ++ ?r)%string) with (String ","%char r).
    cbn [append]. change (skip_ws (String "," ?r)) with (String ","%char r).
    cbv beta iota.
    change (code ","%char =? 44)%N with true. cbv iota.
    change (quote y :: map quote l) with (map quote (y :: l)).
    rewrite skip_ws_concat_quote.
    rewrite IH by (simpl in Hf |- *; lia).
    reflexivity.
Qed.

Lemma parse_value_array (l : list string) (fuel : nat) (rest : string) :
  (length l + 2 < fuel)%nat ->
  parse_value fuel (stringify_array l ++ rest)
  = Some (JArray (map JString l), rest).
Proof.
  intros Hf. destruct fuel as [|fuel]; [lia|].
  unfold stringify_array. destruct l as [|x l].
  - reflexivity.
  - rewrite !append_assoc.
    change ("[" ++ ?r)%string with (String "["%char r).
    change ("]" ++ ?r)%string with (String "]"%char r).
    cbn [parse_value]. change (code "["%char) with 91%N. cbv iota.
    rewrite skip_ws_concat_quote.
    destruct (concat_quote_head x l) as [t Ht]. rewrite Ht at 1.
    cbn [append]. change (code dquote =? 93)%N with false. cbv iota.
    rewrite parse_elements_strings by (simpl in Hf |- *; lia).
    reflexivity.
Qed.

Lemma parse_members_step (fuel : nat) (q : ascii) (r0 : string) :
  parse_members (S fuel) (String q r0)
  = if (code q =? 34)%N then
      match parse_chars r0 with
      | None => None
      | Some (k, r1) =>
          match skip_ws r1 with
          | String colon r2 =>
              if (code colon =? 58)%N then
                match parse_value fuel (skip_ws r2) with
                | None => None
                | Some (v, r3) =>
                    match skip_ws r3 with
                    | String c r4 =>
                        if (code c =? 44)%N then
                          match parse_members fuel (skip_ws r4) with
                          | Some (ms, rest) => Some ((k, v) :: ms, rest)
                          | None => None
                          end
                        else if (code c =? 125)%N
                        then Some ([(k, v)], r4)
                        else None
                    | EmptyString => None
                    end
                end
              else None
          | EmptyString => None
          end
      end
    else None.
Proof. reflexivity. Qed.

Lemma stringify_member_head (kv : string * list string) (rest : string) :
  (stringify_member kv ++ rest
   = String dquote
       (quote_chars (fst kv)
        ++ String dquote (String ":" (stringify_array (snd kv) ++ rest))))%string.
Proof.
  unfold stringify_member. rewrite !append_assoc, quote_app. reflexivity.
Qed.

Lemma concat_member_head (kv : string * list string)
      (l : list (string * list string)) (rest : string) :
  exists t,
    (String.concat "," (map stringify_member (kv :: l)) ++ rest
     = String dquote t)%string.
Proof.
  destruct l as [|kv' l].
  - cbn [map String.concat]. rewrite stringify_member_head. eauto.
  - cbn [map]. rewrite concat_cons, append_assoc, stringify_member_head. eauto.
Qed.

Lemma skip_ws_array (l : list string) (rest : string) :
  skip_ws (stringify_array l ++ rest) = (stringify_array l ++ rest)%string.
Proof. reflexivity. Qed.

Lemma parse_members_tiers (l : list (string * list string)) :
  forall fuel kv rest,
    (members_size (kv :: l) < fuel)%nat ->
    parse_members fuel
      (String.concat "," (map stringify_member (kv :: l)) ++ String "}" rest)
    = Some (map parsed_member (kv :: l), rest).
Proof.
  induction l as [|kv' l IH]; intros fuel kv rest Hf;
    (destruct fuel as [|fuel]; [simpl in Hf; lia|]);
    unfold members_size in Hf; cbn [map list_sum fold_right] in Hf.
  - cbn [map String.concat]. rewrite stringify_member_head.
    rewrite parse_members_step.
    change (code dquote =? 34)%N with true. cbv iota.
    rewrite parse_chars_quote_chars.
    change (skip_ws (String ":" ?r)) with (String ":"%char r). cbv iota beta.
    change (code ":"%char =? 58)%N with true. cbv iota.
    rewrite skip_ws_array, parse_value_array by lia.
    reflexivity.
  - cbn [map]. rewrite concat_cons, append_assoc, stringify_member_head.
    rewrite parse_members_step.
    change (code dquote =? 34)%N with true. cbv iota.
    rewrite parse_chars_quote_chars.
    change (skip_ws (String ":" ?r)) with (String ":"%char r). cbv iota beta.
    change (code ":"%char =? 58)%N with true. cbv iota.
    rewrite skip_ws_array, append_assoc, parse_value_array by lia.
    change (skip_ws ("," ++ ?r)%string) with (String ","%char r).
    cbv iota beta. change (code ","%char =? 44)%N with true. cbv iota.
    change (stringify_member kv' :: map stringify_member l)
      with (map stringify_member (kv' :: l)).
    destruct (concat_member_head kv' l (String "}" rest)) as [t Ht].
    rewrite Ht. change (skip_ws (String dquote t)) with (String dquote t).
    rewrite <- Ht.
    rewrite IH; [reflexivity|].
    unfold members_size. cbn [map list_sum fold_right]. lia.
Qed.

Lemma length_concat (sep : string) (l : list string) :
  (list_sum (map String.length l) <= String.length (String.concat sep l))%nat.
Proof.
  induction l as [|x l IH]; [simpl; lia|].
  destruct l as [|y l].
  - simpl. lia.
  - rewrite concat_cons, !length_append.
    change (list_sum (map String.length (x :: y :: l)))
      with (String.length x + list_sum (map String.length (y :: l)))%nat.
    lia.
Qed.

Lemma stringify_array_length (l : list string) :
  (length l <= String.length (stringify_array l))%nat.
Proof.
  unfold stringify_array. simpl. rewrite length_append.
  pose proof (length_concat "," (map quote l)) as H.
  assert (length l <= list_sum (map String.length (map quote l)))%nat.
  { clear. induction l as [|x l IH]; simpl; [lia|].
    pose proof (quote_length x). lia. }
  lia.
Qed.

Lemma members_size_length (tiers : list (string * list string)) :
  (members_size tiers
   <= 2 * String.length (String.concat "," (map stringify_member tiers)))%nat.
Proof.
  pose proof (length_concat "," (map stringify_member tiers)) as H.
  assert (members_size tiers
          <= 2 * list_sum (map String.length (map stringify_member tiers)))%nat;
    [|lia].
  clear. unfold members_size.
  induction tiers as [|kv l IH]; [simpl; lia|].
  cbn [map list_sum fold_right] in *.
  unfold stringify_member at 1. rewrite !length_append.
  pose proof (quote_length (fst kv)).
  pose proof (stringify_array_length (snd kv)).
  unfold list_sum in *. simpl (String.length ":"). lia.
Qed.

(** [JSON.parse] of the text [JSON.stringify] wrote. *)
Lemma JSON_parse_stringify (tiers : list (string * list string)) :
  JSON_parse (JSON_stringify tiers)
  = Some (JObject (fold_left (fun o kv => obj_set (fst kv) (snd kv) o)
                             (map parsed_member tiers) [])).
Proof.
  unfold JSON_parse, JSON_stringify.
  pose proof (members_size_length tiers) as Hsize.
  set (body := String.concat "," (map stringify_member tiers)) in *.
  change ("{" ++ body ++ "}")%string with (String "{"%char (body ++ "}")).
  set (fuel := (2 * String.length (String "{" (body ++ "}")) + 2)%nat).
  assert (Hfuel : (members_size tiers + 3 < fuel)%nat).
  { subst fuel. simpl String.length. rewrite length_append. simpl. lia. }
  destruct fuel as [|fuel]; [lia|].
  change (skip_ws (String "{" ?r)) with (String "{"%char r).
  cbn [parse_value]. change (code "{"%char) with 123%N. cbv iota.
  destruct tiers as [|kv l].
  - reflexivity.
  - subst body.
    destruct (concat_member_head kv l "}") as [t Ht].
    rewrite Ht. change (skip_ws (String dquote t)) with (String dquote t).
    cbv iota. change (code dquote =? 125)%N with false. cbv iota.
    rewrite <- Ht.
    rewrite parse_members_tiers by lia.
    reflexivity.
Qed.

(** ** Moving a player by its id *)

Lemma set_children_same (t : tier) : set_children t (children t) = t.
Proof. now destruct t. Qed.

Lemma filter_all {A : Type} (f : A -> bool) (l : list A) :
  (forall x, In x l -> f x = true) -> filter f l = l.
Proof.
  induction l as [|x l IH]; intros H; simpl; [reflexivity|].
  rewrite (H x) by now left. f_equal. apply IH. intros y Hy. apply H. now right.
Qed.

Lemma without_id_absent (i : string) (t : tier) :
  ~ In i (tier_order t) -> without_id i t = t.
Proof.
  intros Hn. unfold without_id. rewrite filter_all; [apply set_children_same|].
  intros e He. apply negb_true_iff, String.eqb_neq. intros <-.
  apply Hn. unfold tier_order, ids_of. now apply in_map.
Qed.

Lemma without_id_absent_page (i : string) (d : page) :
  ~ In i (page_ids d) -> map (without_id i) d = d.
Proof.
  induction d as [|t d IH]; [reflexivity|].
  rewrite page_ids_cons, in_app_iff. intros Hn. simpl.
  rewrite without_id_absent, IH; tauto.
Qed.

Lemma remove_nth_filter (i : string) (l : list element) :
  forall pi e,
    NoDup (ids_of l) -> nth_error l pi = Some e -> data_id e = i ->
    remove_nth pi l = filter (fun e => negb (String.eqb (data_id e) i)) l.
Proof.
  unfold remove_nth.
  induction l as [|x l IH]; intros [|pi] e Hn He Hi; simpl in *;
    try discriminate; inversion Hn as [|? ? Hx Hn']; subst.
  - injection He as ->. rewrite String.eqb_refl. simpl.
    symmetry. apply filter_all. intros y Hy.
    apply negb_true_iff, String.eqb_neq. intros E.
    apply Hx. rewrite <- E. unfold ids_of. now apply in_map.
  - assert (data_id x <> data_id e).
    { intros E. apply Hx. rewrite E. unfold ids_of.
      apply in_map. eapply nth_error_In; eassumption. }
    destruct (String.eqb_spec (data_id x) (data_id e)); [contradiction|].
    simpl. f_equal. now apply (IH pi e).
Qed.

(** With no id twice on the page, taking out the player found for an id
    takes that id out of every tier. *)
Lemma detach_without_id (i : string) (d : page) :
  forall loc,
    NoDup (page_ids d) ->
    querySelector_player i d = Some loc ->
    detach loc d = map (without_id i) d.
Proof.
  unfold detach.
  induction d as [|t d IH]; intros loc Hn; simpl; [discriminate|].
  rewrite page_ids_cons in Hn.
  destruct (find_index _ (children t)) as [pi|] eqn:E.
  - intros [= <-]. simpl.
    destruct (find_index_some _ _ _ E) as (e & He & Hid & _).
    apply String.eqb_eq in Hid.
    rewrite without_id_absent_page.
    + f_equal. unfold without_id. f_equal.
      apply (remove_nth_filter i _ pi e); auto.
      now apply NoDup_app_remove_r in Hn.
    + intros Hin.
      assert (In i (tier_order t)).
      { rewrite <- Hid. unfold tier_order, ids_of. apply in_map.
        eapply nth_error_In; eassumption. }
      revert Hn H Hin. clear. intros Hn H Hin.
      induction (tier_order t) as [|x l IHl]; [destruct H|].
      simpl in Hn. inversion Hn as [|? ? Hx Hn']; subst.
      destruct H as [->|H]; [apply Hx, in_or_app; auto|now apply IHl].
  - destruct (querySelector_player i d) as [[tj pj]|] eqn:Eq; simpl;
      [|discriminate].
    intros [= <-]. simpl.
    rewrite without_id_absent.
    + f_equal. apply (IH (tj, pj)); [|reflexivity].
      now apply NoDup_app_remove_l in Hn.
    + intros Hin. unfold tier_order, ids_of in Hin.
      apply in_map_iff in Hin. destruct Hin as (e & He & Hin).
      pose proof (find_index_none _ _ E e Hin) as Hf. simpl in Hf.
      rewrite He, String.eqb_refl in Hf. discriminate.
Qed.

Lemma tier_order_without_id (i : string) (t : tier) :
  tier_order (without_id i t)
  = filter (fun x => negb (String.eqb x i)) (tier_order t).
Proof.
  unfold tier_order, ids_of, without_id. simpl.
  induction (children t) as [|e l IH]; simpl; [reflexivity|].
  destruct (String.eqb (data_id e) i); simpl; now rewrite IH.
Qed.

Lemma order_at_map (f : tier -> tier) (g : list string -> list string)
      (d : page) (j : nat) :
  (forall t, tier_order (f t) = g (tier_order t)) ->
  order_at (map f d) j = option_map g (order_at d j).
Proof.
  intros H. unfold order_at. rewrite nth_error_map.
  destruct (nth_error d j); simpl; [now rewrite H|reflexivity].
Qed.

Lemma order_at_update (f : tier -> tier) (g : list string -> list string)
      (d : page) (ti j : nat) :
  (forall t, tier_order (f t) = g (tier_order t)) ->
  order_at (update_tier ti f d) j
  = option_map (fun o => if Nat.eqb j ti then g o else o) (order_at d j).
Proof.
  intros H. unfold order_at. rewrite update_tier_nth.
  destruct (Nat.eqb j ti), (nth_error d j); simpl; try reflexivity.
  now rewrite H.
Qed.

Lemma list_id_update (f : tier -> tier) (d : page) (ti : nat) :
  (forall t, list_id (f t) = list_id t) ->
  map list_id (update_tier ti f d) = map list_id d.
Proof.
  intros H. revert ti.
  induction d as [|t d IH]; intros [|ti]; simpl; try reflexivity.
  - now rewrite H.
  - now rewrite IH.
Qed.

Lemma list_id_map (f : tier -> tier) (d : page) :
  (forall t, list_id (f t) = list_id t) ->
  map list_id (map f d) = map list_id d.
Proof. intros H. rewrite map_map. now apply map_ext. Qed.

(** [list.appendChild(player)] in terms of orders: the id leaves every
    tier and becomes the last of the list. *)
Lemma move_to_end_order (i : string) (d : page) (ti : nat) (loc : nat * nat) :
  NoDup (page_ids d) ->
  querySelector_player i d = Some loc ->
  map list_id (move_to_end ti loc d) = map list_id d /\
  forall j,
    order_at (move_to_end ti loc d) j
    = option_map
        (fun o => filter (fun x => negb (String.eqb x i)) o
                  ++ (if Nat.eqb j ti then [i] else []))
        (order_at d j).
Proof.
  intros Hn Hq. unfold move_to_end.
  destruct (querySelector_player_some _ _ _ Hq) as (e & He & Hid).
  rewrite He, (detach_without_id i d loc Hn Hq). unfold appendChild. split.
  - rewrite list_id_update by reflexivity. now apply list_id_map.
  - intros j.
    rewrite (order_at_update _ (fun o => o ++ [i]))
      by (intros t; unfold tier_order, ids_of; simpl;
          rewrite map_app; simpl; now rewrite Hid).
    rewrite (order_at_map _ _ _ _ (tier_order_without_id i)).
    destruct (order_at d j); simpl; [|reflexivity].
    destruct (Nat.eqb j ti); [reflexivity|now rewrite app_nil_r].
Qed.

Lemma getElementById_ext (k : string) (d d' : page) :
  map list_id d = map list_id d' ->
  getElementById k d = getElementById k d'.
Proof.
  revert d'. induction d as [|t d IH]; intros [|t' d'] H; simpl in *;
    try discriminate; [reflexivity|].
  injection H as Ht Hd. rewrite Ht.
  destruct (String.eqb (list_id t') k); [reflexivity|].
  now rewrite (IH d').
Qed.

Lemma mem_spec (l : list string) (i : string) :
  mem l i = true <-> In i l.
Proof.
  unfold mem. rewrite existsb_exists. split.
  - intros (x & Hx & E). apply String.eqb_eq in E. now subst.
  - intros H. exists i. split; [assumption|apply String.eqb_refl].
Qed.

Lemma mem_false (l : list string) (i : string) :
  mem l i = false <-> ~ In i l.
Proof.
  rewrite <- mem_spec. destruct (mem l i); split; congruence.
Qed.

Lemma mem_perm (l l' : list string) (i : string) :
  Permutation l l' -> mem l i = mem l' i.
Proof.
  intros Hp. destruct (mem l' i) eqn:E.
  - apply mem_spec. apply mem_spec in E.
    eapply Permutation_in; [symmetry|]; eassumption.
  - apply mem_false. apply mem_false in E. intros H. apply E.
    eapply Permutation_in; eassumption.
Qed.

Lemma filter_filter {A : Type} (f g : A -> bool) (l : list A) :
  filter f (filter g l) = filter (fun x => g x && f x) l.
Proof.
  induction l as [|x l IH]; simpl; [reflexivity|].
  destruct (g x); simpl; [destruct (f x)|]; now rewrite IH.
Qed.

(** The inner loop (lines 155-162) for an array of distinct strings: the
    ids of the array leave every tier, and those that are on the page
    line up at the end of the list, in the order of the array. *)
Lemma place_players_order (P : platform) (ti : nat) (ids : list string) :
  forall s,
    NoDup (page_ids (doc s)) ->
    NoDup ids ->
    (ti < length (doc s))%nat ->
    let s' := fold_left (place_player P ti) (map JString ids) s in
    map list_id (doc s') = map list_id (doc s) /\
    Permutation (page_ids (doc s')) (page_ids (doc s)) /\
    allPlayers s' = allPlayers s /\
    forall j,
      order_at (doc s') j
      = option_map
          (fun o => filter (fun x => negb (mem ids x)) o
                    ++ (if Nat.eqb j ti
                        then filter (mem (page_ids (doc s))) ids else []))
          (order_at (doc s) j).
Proof.
  induction ids as [|i ids IH]; intros s Hn Hids Hti; simpl.
  - repeat split; auto. intros j.
    destruct (order_at (doc s) j) as [o|]; simpl; [|reflexivity].
    rewrite filter_all by reflexivity.
    destruct (Nat.eqb j ti); now rewrite app_nil_r.
  - inversion Hids as [|? ? Hi Hids']; subst.
    destruct (nth_error (doc s) ti) as [t|] eqn:Ht;
      [|apply nth_error_None in Ht; lia].
    destruct (querySelector_player i (doc s)) as [loc|] eqn:Eq.
    + assert (E1 : place_player P ti s (JString i)
                   = with_doc (move_to_end ti loc (doc s)) s)
        by (unfold place_player; simpl; now rewrite Eq).
      rewrite E1. clear E1.
      destruct (move_to_end_order i (doc s) ti loc Hn Eq) as (Hl & Ho).
      destruct (querySelector_player_some _ _ _ Eq) as (e & He & Hid).
      assert (Hin : In i (page_ids (doc s))).
      { eapply Permutation_in; [symmetry; apply (detach_ids loc _ e He)|].
        now left. }
      pose proof (move_to_end_ids ti loc (doc s) t Ht) as Hperm.
      set (s1 := with_doc (move_to_end ti loc (doc s)) s).
      destruct (IH s1) as (Hl' & Hp' & Ha' & Ho'); auto.
      { simpl. eapply Permutation_NoDup; [symmetry; exact Hperm|exact Hn]. }
      { simpl. rewrite <- (length_map list_id), Hl, length_map. exact Hti. }
      change (doc s1) with (move_to_end ti loc (doc s)) in *.
      change (allPlayers s1) with (allPlayers s) in *.
      split; [congruence|]. split; [now rewrite Hp'|].
      split; [assumption|].
      intros j. rewrite Ho', Ho.
      destruct (order_at (doc s) j) as [o|]; simpl; [|reflexivity].
      f_equal. rewrite filter_app, filter_filter, <- app_assoc. f_equal.
      * apply filter_ext. intros x. rewrite String.eqb_sym.
        now destruct (String.eqb i x).
      * apply mem_spec in Hin. rewrite Hin.
        destruct (Nat.eqb j ti); simpl; [|reflexivity].
        apply mem_false in Hi. rewrite Hi. simpl. f_equal.
        apply filter_ext. intros x. now apply mem_perm.
    + assert (E1 : place_player P ti s (JString i)
                   = console_write
                       ("Player " ++ i
                        ++ " missing from Sleeper data, skipping.")%string s)
        by (unfold place_player; simpl; now rewrite Eq).
      rewrite E1. clear E1.
      set (s1 := console_write _ s).
      destruct (IH s1) as (Hl' & Hp' & Ha' & Ho'); auto.
      change (doc s1) with (doc s) in *.
      change (allPlayers s1) with (allPlayers s) in *.
      repeat split; auto.
      intros j. rewrite Ho'.
      destruct (order_at (doc s) j) as [o|] eqn:Eo; simpl; [|reflexivity].
      pose proof (querySelector_player_none _ _ Eq) as Hnot.
      apply mem_false in Hnot. rewrite Hnot.
      f_equal. f_equal. apply filter_ext_in. intros x Hx.
      destruct (String.eqb_spec x i) as [->|]; [|reflexivity].
      exfalso. apply mem_false in Hnot. apply Hnot.
      unfold order_at in Eo.
      destruct (nth_error (doc s) j) as [t'|] eqn:Et; [|discriminate].
      injection Eo as <-.
      apply nth_error_split in Et. destruct Et as (a & b & -> & _).
      rewrite page_ids_app, page_ids_cons, !in_app_iff. auto.
Qed.

Lemma mem_app (l l' : list string) (x : string) :
  mem (l ++ l') x = mem l x || mem l' x.
Proof. unfold mem. apply existsb_app. Qed.

Lemma NoDup_app_disjoint {A : Type} (l l' : list A) :
  NoDup (l ++ l') -> forall x, In x l -> ~ In x l'.
Proof.
  induction l as [|y l IH]; intros Hn x Hx; [destruct Hx|].
  simpl in Hn. inversion Hn as [|? ? Hy Hn']; subst.
  destruct Hx as [->|Hx]; [|now apply IH].
  intros H. apply Hy, in_or_app. now right.
Qed.

Lemma restored_ext (d d' : page) (saved : list (string * list string)) :
  map list_id d = map list_id d' -> restored d saved = restored d' saved.
Proof.
  intros H. unfold restored. apply flat_map_ext. intros e.
  now rewrite (getElementById_ext _ d d' H).
Qed.

Lemma placed_in_ext (d d' : page) (j : nat)
      (saved : list (string * list string)) :
  map list_id d = map list_id d' -> placed_in d j saved = placed_in d' j saved.
Proof.
  intros H. unfold placed_in, brings. apply flat_map_ext. intros e.
  now rewrite (getElementById_ext _ d d' H).
Qed.

(** The loop of lines 151-163 over tiers as [saveRankings] wrote them,
    with no id in two of those that name a list: it returns; the ids of
    those tiers leave the places they had, and each list ends with the
    ids its saved tier brings that are on the page. *)
Lemma load_entries_order (P : platform)
      (saved : list (string * list string)) :
  forall s,
    NoDup (page_ids (doc s)) ->
    NoDup (restored (doc s) saved) ->
    exists s',
      load_entries P (map parsed_member saved) s = Returns s' /\
      map list_id (doc s') = map list_id (doc s) /\
      Permutation (page_ids (doc s')) (page_ids (doc s)) /\
      allPlayers s' = allPlayers s /\
      forall j,
        order_at (doc s') j
        = option_map
            (fun o =>
               filter (fun x => negb (mem (restored (doc s) saved) x)) o
               ++ filter (mem (page_ids (doc s)))
                         (placed_in (doc s) j saved))
            (order_at (doc s) j).
Proof.
  induction saved as [|[k ids] saved IH]; intros s Hn Hr.
  - exists s. repeat split; auto. intros j. simpl.
    destruct (order_at (doc s) j) as [o|]; simpl; [|reflexivity].
    now rewrite filter_all, app_nil_r.
  - cbn [map parsed_member fst snd load_entries].
    unfold restored in Hr. cbn [flat_map fst snd] in Hr.
    fold (restored (doc s) saved) in Hr.
    unfold restored, placed_in. cbn [flat_map]. unfold brings at 1.
    cbn [fst snd].
    fold (restored (doc s) saved). fold (placed_in (doc s)).
    destruct (getElementById k (doc s)) as [ti|] eqn:Ek.
    + destruct (getElementById_some _ _ _ Ek) as (t & Ht & _).
      assert (Hti : (ti < length (doc s))%nat)
        by (apply nth_error_Some; congruence).
      destruct (place_players_order P ti ids s Hn
                  (NoDup_app_remove_r _ _ Hr) Hti) as (Hl & Hp & Ha & Ho).
      set (s1 := fold_left (place_player P ti) (map JString ids) s) in *.
      destruct (IH s1) as (s' & Hs' & Hl' & Hp' & Ha' & Ho').
      { eapply Permutation_NoDup; [symmetry; exact Hp|exact Hn]. }
      { rewrite (restored_ext _ _ _ Hl). now apply NoDup_app_remove_l in Hr. }
      exists s'. split; [exact Hs'|]. split; [congruence|].
      split; [now rewrite Hp'|]. split; [congruence|].
      intros j. rewrite Ho', Ho.
      rewrite (restored_ext _ _ _ Hl), (placed_in_ext _ _ j _ Hl).
      destruct (order_at (doc s) j) as [o|]; simpl; [|reflexivity].
      f_equal. rewrite !filter_app, filter_filter, <- app_assoc. f_equal.
      * apply filter_ext. intros x. rewrite mem_app.
        now destruct (mem ids x), (mem (restored (doc s) saved) x).
      * f_equal.
        -- destruct (Nat.eqb j ti); [|reflexivity].
           rewrite filter_filter. apply filter_ext_in. intros x Hx.
           pose proof (NoDup_app_disjoint _ _ Hr x Hx) as Hd.
           apply mem_false in Hd. rewrite Hd. simpl. apply andb_true_r.
        -- apply filter_ext. intros x. now apply mem_perm.
    + simpl. apply (IH s Hn Hr).
Qed.

(** *** The saved object *)

Lemma has_key_spec {V : Type} (k : string) (o : list (string * V)) :
  has_key k o = false <-> ~ In k (map fst o).
Proof.
  unfold has_key. induction o as [|[k' v] o IH]; simpl; [tauto|].
  rewrite orb_false_iff, IH, String.eqb_neq. tauto.
Qed.

Lemma has_key_map {V W : Type} (g : V -> W) (k : string)
      (o : list (string * V)) :
  has_key k (map (fun kv => (fst kv, g (snd kv))) o) = has_key k o.
Proof.
  unfold has_key. induction o as [|kv o IH]; simpl; [reflexivity|].
  now rewrite IH.
Qed.

Lemma insert_index_perm {V : Type} (n : N) (k : string) (v : V)
      (o : list (string * V)) :
  Permutation (insert_index n k v o) ((k, v) :: o).
Proof.
  induction o as [|kv o IH]; simpl; [reflexivity|].
  destruct (array_index (fst kv)) as [n'|]; [|reflexivity].
  destruct (n' <? n)%N; [|reflexivity].
  rewrite IH. apply perm_swap.
Qed.

Lemma obj_set_new {V : Type} (k : string) (v : V) (o : list (string * V)) :
  ~ In k (map fst o) -> Permutation (obj_set k v o) ((k, v) :: o).
Proof.
  intros H. apply has_key_spec in H. unfold obj_set. rewrite H.
  destruct (array_index k) as [n|].
  - apply insert_index_perm.
  - symmetry. apply Permutation_cons_append.
Qed.

Lemma fold_obj_set_perm {V : Type} (l : list (string * V)) :
  forall acc,
    NoDup (map fst (acc ++ l)) ->
    Permutation (fold_left (fun o kv => obj_set (fst kv) (snd kv) o) l acc)
                (acc ++ l).
Proof.
  induction l as [|[k v] l IH]; intros acc Hn; simpl.
  - now rewrite app_nil_r.
  - assert (Hk : ~ In k (map fst acc)).
    { rewrite map_app in Hn. simpl in Hn.
      apply NoDup_remove_2 in Hn. intros H. apply Hn, in_or_app. now left. }
    pose proof (obj_set_new k v acc Hk) as Hp.
    rewrite IH.
    + rewrite Hp. simpl. apply Permutation_middle.
    + eapply Permutation_NoDup; [|exact Hn].
      rewrite !map_app. simpl map.
      rewrite <- Permutation_middle.
      apply (Permutation_map fst) in Hp. simpl in Hp.
      rewrite Hp. reflexivity.
Qed.

Lemma obj_set_map {V W : Type} (g : V -> W) (k : string) (v : V)
      (o : list (string * V)) :
  obj_set k (g v) (map (fun kv => (fst kv, g (snd kv))) o)
  = map (fun kv => (fst kv, g (snd kv))) (obj_set k v o).
Proof.
  unfold obj_set.
  rewrite has_key_map. destruct (has_key k o).
  - rewrite !map_map. apply map_ext. intros [k' v']. simpl.
    now destruct (String.eqb k' k).
  - destruct (array_index k) as [n|].
    + induction o as [|kv o IH]; simpl; [reflexivity|].
      destruct (array_index (fst kv)); [|reflexivity].
      destruct (_ <? _)%N; [|reflexivity].
      simpl. f_equal. apply IH.
    + now rewrite map_app.
Qed.

Lemma fold_obj_set_map {V W : Type} (g : V -> W) (l : list (string * V)) :
  forall acc,
    fold_left (fun o kv => obj_set (fst kv) (snd kv) o)
              (map (fun kv => (fst kv, g (snd kv))) l)
              (map (fun kv => (fst kv, g (snd kv))) acc)
    = map (fun kv => (fst kv, g (snd kv)))
          (fold_left (fun o kv => obj_set (fst kv) (snd kv) o) l acc).
Proof.
  induction l as [|[k v] l IH]; intros acc; simpl; [reflexivity|].
  rewrite (obj_set_map g k v acc). apply IH.
Qed.

Lemma tiers_of_fold (d : page) :
  Forall (fun t => list_id t <> "__proto__"%string) d ->
  tiers_of d
  = fold_left (fun o kv => obj_set (fst kv) (snd kv) o)
              (map saved_tier d) [].
Proof.
  unfold tiers_of. generalize (@nil (string * list string)).
  induction d as [|t d IH]; intros acc Hf; simpl; [reflexivity|].
  inversion Hf as [|? ? Ht Hf']; subst.
  apply String.eqb_neq in Ht. rewrite Ht. now apply IH.
Qed.

(** What the loop of line 151 runs over after a save: the saved tiers,
    each once, in the order the language lists the keys. *)
Lemma saved_entries_of_save (d : page) :
  NoDup (map list_id d) ->
  Forall (fun t => list_id t <> "__proto__"%string) d ->
  exists saved,
    Permutation saved (map saved_tier d) /\
    option_map saved_entries (JSON_parse (JSON_stringify (tiers_of d)))
    = Some (map parsed_member saved).
Proof.
  intros Hn Hp.
  assert (Hkeys : map fst (map saved_tier d) = map list_id d)
    by (rewrite map_map; reflexivity).
  assert (H1 : Permutation (tiers_of d) (map saved_tier d)).
  { rewrite tiers_of_fold by assumption.
    apply (fold_obj_set_perm (map saved_tier d) []).
    simpl. now rewrite Hkeys. }
  exists (fold_left (fun o kv => obj_set (fst kv) (snd kv) o) (tiers_of d) []).
  split.
  - transitivity (tiers_of d); [|exact H1].
    apply (fold_obj_set_perm (tiers_of d) []).
    simpl. eapply Permutation_NoDup;
      [symmetry; apply Permutation_map; exact H1|].
    now rewrite Hkeys.
  - rewrite JSON_parse_stringify. simpl. f_equal.
    apply (fold_obj_set_map (fun ids => JArray (map JString ids))
                            (tiers_of d) []).
Qed.

Lemma brings_other (d : page) (j : nat) (k : string) (e : string * list string) :
  getElementById k d = Some j -> fst e <> k -> brings d j e = [].
Proof.
  intros Hk Hne. unfold brings.
  destruct (getElementById (fst e) d) as [j'|] eqn:E; [|reflexivity].
  destruct (Nat.eqb_spec j j') as [<-|]; [|reflexivity].
  exfalso. apply Hne.
  destruct (getElementById_some _ _ _ Hk) as (t & Ht & <-).
  destruct (getElementById_some _ _ _ E) as (t' & Ht' & <-).
  congruence.
Qed.

Lemma flat_map_all_nil {A B : Type} (f : A -> list B) (l : list A) :
  (forall x, In x l -> f x = []) -> flat_map f l = [].
Proof.
  induction l as [|x l IH]; intros H; simpl; [reflexivity|].
  rewrite (H x) by now left. apply IH. intros y Hy. apply H. now right.
Qed.

(** Only the saved tier whose key names a list brings ids to it. *)
Lemma placed_in_unique (d : page) (j : nat) (k : string) (ids : list string)
      (saved : list (string * list string)) :
  NoDup (map fst saved) ->
  In (k, ids) saved ->
  getElementById k d = Some j ->
  placed_in d j saved = ids.
Proof.
  intros Hn Hin Hk. unfold placed_in.
  induction saved as [|e saved IH]; [destruct Hin|].
  simpl in Hn. inversion Hn as [|? ? He Hn']; subst. simpl.
  destruct Hin as [->|Hin].
  - unfold brings at 1. simpl. rewrite Hk, Nat.eqb_refl.
    rewrite flat_map_all_nil; [apply app_nil_r|].
    intros e' He'. apply (brings_other d j k e' Hk).
    intros E. apply He. simpl. apply in_map_iff. now exists e'.
  - rewrite (brings_other d j k e Hk).
    + simpl. now apply IH.
    + intros E. apply He. apply in_map_iff. now exists (k, ids).
Qed.

Lemma NoDup_flat_map_some {A B : Type} (c : A -> bool) (f : A -> list B)
      (l : list A) :
  NoDup (flat_map f l) ->
  NoDup (flat_map (fun x => if c x then f x else []) l).
Proof.
  induction l as [|x l IH]; simpl; [auto|].
  intros Hn. destruct (c x); simpl.
  - apply NoDup_app; [now apply NoDup_app_remove_r in Hn| |].
    + apply IH. now apply NoDup_app_remove_l in Hn.
    + intros y Hy Hy'. apply (NoDup_app_disjoint _ _ Hn y Hy).
      apply in_flat_map in Hy'. destruct Hy' as (z & Hz & Hyz).
      apply in_flat_map. exists z. split; [assumption|].
      now destruct (c z).
  - apply IH. now apply NoDup_app_remove_l in Hn.
Qed.

Lemma page_ids_saved (d : page) : flat_map snd (map saved_tier d) = page_ids d.
Proof.
  induction d as [|t d IH]; [reflexivity|].
  simpl. now rewrite page_ids_cons, IH.
Qed.

Lemma restored_NoDup (d0 d : page) :
  NoDup (page_ids d) -> NoDup (restored d0 (map saved_tier d)).
Proof.
  intros Hn. unfold restored.
  rewrite <- page_ids_saved in Hn.
  apply (NoDup_flat_map_some
           (fun e => match getElementById (fst e) d0 with
                     | Some _ => true | None => false end) snd) in Hn.
  erewrite flat_map_ext; [exact Hn|].
  intros e. simpl. now destruct (getElementById (fst e) d0).
Qed.

Lemma restored_in (d0 d : page) (i : string) :
  In i (restored d0 (map saved_tier d)) <->
  exists t, In t d /\ In i (tier_order t) /\
            getElementById (list_id t) d0 <> None.
Proof.
  unfold restored. rewrite in_flat_map. split.
  - intros (e & He & Hi). apply in_map_iff in He.
    destruct He as (t & <- & Ht). simpl in Hi. exists t.
    destruct (getElementById (list_id t) d0); [|destruct Hi].
    repeat split; auto. discriminate.
  - intros (t & Ht & Hi & Hg). exists (saved_tier t).
    split; [now apply in_map|]. simpl.
    now destruct (getElementById (list_id t) d0).
Qed.

(** *** The page after the players were appended *)

Lemma append_if_absent_shape (u : nat) (d : page) (p : player) :
  map list_id (append_if_absent u d p) = map list_id d /\
  (forall j, j <> u ->
             order_at (append_if_absent u d p) j = order_at d j) /\
  incl (page_ids (append_if_absent u d p)) (id p :: page_ids d).
Proof.
  unfold append_if_absent.
  destruct (querySelector_player (id p) d) as [loc|].
  - repeat split; auto. intros i Hi. now right.
  - unfold appendChild. split; [now apply list_id_update|]. split.
    + intros j Hj.
      rewrite (order_at_update _ (fun o => o ++ [id p]))
        by (intros t; unfold tier_order, ids_of; simpl;
            now rewrite map_app).
      destruct (Nat.eqb_spec j u); [contradiction|].
      now destruct (order_at d j).
    + destruct (nth_error d u) as [t|] eqn:Ht.
      * intros i Hi.
        eapply Permutation_in in Hi;
          [|apply (appendChild_ids u _ d t Ht)]. exact Hi.
      * rewrite update_tier_none by assumption. intros i Hi. now right.
Qed.

Lemma fold_append_if_absent_shape (u : nat) (l : list player) :
  forall d,
    let d' := fold_left (append_if_absent u) l d in
    map list_id d' = map list_id d /\
    (forall j, j <> u -> order_at d' j = order_at d j) /\
    incl (page_ids d') (map id l ++ page_ids d).
Proof.
  induction l as [|p l IH]; intros d; simpl.
  - repeat split; auto. apply incl_refl.
  - destruct (append_if_absent_shape u d p) as (Hl & Ho & Hi).
    destruct (IH (append_if_absent u d p)) as (Hl' & Ho' & Hi').
    split; [congruence|]. split.
    + intros j Hj. now rewrite Ho', Ho.
    + intros i H. apply Hi' in H. apply in_app_or in H.
      destruct H as [H|H]; [right; apply in_or_app; now left|].
      apply Hi in H. destruct H as [<-|H]; [now left|].
      right. apply in_or_app. now right.
Qed.

Lemma order_at_updateRanks (d : page) (j : nat) :
  order_at (updateRanks d) j = order_at d j.
Proof.
  unfold order_at. rewrite updateRanks_nth.
  destruct (nth_error d j) as [t|]; simpl; [|reflexivity].
  destruct (data_tier t); [reflexivity|].
  unfold tier_order. simpl. now rewrite number_players_ids.
Qed.

Lemma order_at_empty (d : page) (j : nat) (t : tier) :
  page_ids d = [] -> nth_error d j = Some t -> order_at d j = Some [].
Proof.
  intros Hd Ht. unfold order_at. rewrite Ht. simpl. f_equal.
  apply nth_error_split in Ht. destruct Ht as (a & b & -> & _).
  rewrite page_ids_app, page_ids_cons in Hd.
  apply app_eq_nil in Hd. destruct Hd as [_ Hd].
  now apply app_eq_nil in Hd.
Qed.

(** ** What rendering appends *)

Lemma element_at_in (loc : nat * nat) (d : page) (e : element) :
  element_at loc d = Some e -> In (data_id e) (page_ids d).
Proof.
  intros He. destruct (element_at_tier loc d e He) as (t & Ht & Hp).
  unfold page_ids, ids_of, all_players. apply in_map.
  apply in_flat_map. exists t.
  split; eapply nth_error_In; eassumption.
Qed.

Lemma querySelector_player_mem (i : string) (d : page) :
  mem (page_ids d) i
  = match querySelector_player i d with Some _ => true | None => false end.
Proof.
  destruct (querySelector_player i d) as [loc|] eqn:E.
  - apply mem_spec.
    destruct (querySelector_player_some i d loc E) as (e & He & <-).
    eapply element_at_in. eassumption.
  - apply mem_false. now apply querySelector_player_none.
Qed.

Lemma fresh_players_ext (l : list player) :
  forall seen seen',
    (forall x, mem seen x = mem seen' x) ->
    fresh_players seen l = fresh_players seen' l.
Proof.
  induction l as [|p l IH]; intros seen seen' H; simpl; [reflexivity|].
  rewrite <- H. destruct (mem seen (id p)); [now apply IH|].
  f_equal. apply IH. intros x. unfold mem in *. simpl. now rewrite H.
Qed.

Lemma fresh_players_all (l : list player) :
  forall seen,
    NoDup (map id l) -> (forall p, In p l -> ~ In (id p) seen) ->
    fresh_players seen l = l.
Proof.
  induction l as [|p l IH]; intros seen Hn Hs; simpl; [reflexivity|].
  inversion Hn as [|? ? Hp Hn']; subst.
  rewrite (proj2 (mem_false seen (id p))) by (apply Hs; now left).
  f_equal. apply IH; [assumption|].
  intros q Hq [E|Hin].
  - apply Hp. rewrite E. now apply in_map.
  - apply (Hs q); [now right|assumption].
Qed.

Lemma fresh_players_none (l : list player) (seen : list string) :
  (forall p, In p l -> In (id p) seen) -> fresh_players seen l = [].
Proof.
  induction l as [|p l IH]; intros Hs; simpl; [reflexivity|].
  rewrite (proj2 (mem_spec seen (id p))) by (apply Hs; now left).
  apply IH. intros q Hq. apply Hs. now right.
Qed.

Lemma fresh_players_ids (l : list player) :
  forall seen,
    NoDup (map id (fresh_players seen l)) /\
    forall i, In i (map id (fresh_players seen l)) <->
              In i (map id l) /\ ~ In i seen.
Proof.
  induction l as [|p l IH]; intros seen; simpl.
  - split; [constructor|]. intros i. tauto.
  - destruct (mem seen (id p)) eqn:E.
    + apply mem_spec in E. destruct (IH seen) as [Hn Hi].
      split; [assumption|]. intros i. rewrite Hi.
      split; [tauto|]. intros [[<-|H] Hs]; [contradiction|tauto].
    + apply mem_false in E. destruct (IH (id p :: seen)) as [Hn Hi].
      split.
      * simpl. constructor; [|assumption].
        rewrite Hi. simpl. tauto.
      * intros i. simpl. rewrite Hi. simpl.
        destruct (string_dec (id p) i) as [<-|Hne]; tauto.
Qed.

Lemma append_if_absent_children (u : nat) (d : page) (p : player) (t : tier) :
  nth_error d u = Some t ->
  let d' := append_if_absent u d p in
  nth_error d' u
  = Some (set_children t
            (children t ++ elements_for (fresh_players (page_ids d) [p]))) /\
  (forall j, j <> u -> nth_error d' j = nth_error d j) /\
  forall x, mem (page_ids d') x = mem (id p :: page_ids d) x.
Proof.
  intros Ht d'.
  assert (Hm : forall x, mem (page_ids d') x = mem (id p :: page_ids d) x).
  { intros x. subst d'. unfold append_if_absent.
    destruct (querySelector_player (id p) d) as [loc|] eqn:E.
    - unfold mem at 2. simpl.
      destruct (String.eqb_spec x (id p)) as [->|Hne]; [|reflexivity].
      simpl. rewrite querySelector_player_mem, E. reflexivity.
    - apply mem_perm.
      apply (appendChild_ids u (createPlayerElement (id p) p) d t Ht). }
  split; [|split; [|exact Hm]]; subst d'; unfold append_if_absent;
    cbn [fresh_players]; rewrite ?querySelector_player_mem;
    destruct (querySelector_player (id p) d) as [loc|] eqn:E.
  - simpl. now rewrite app_nil_r, set_children_same.
  - unfold appendChild. now rewrite update_tier_nth, Nat.eqb_refl, Ht.
  - reflexivity.
  - intros j Hj. unfold appendChild. rewrite update_tier_nth.
    apply Nat.eqb_neq in Hj. now rewrite Hj.
Qed.

Lemma fold_append_if_absent_children (u : nat) (l : list player) :
  forall d t,
    nth_error d u = Some t ->
    let d' := fold_left (append_if_absent u) l d in
    nth_error d' u
    = Some (set_children t
              (children t ++ elements_for (fresh_players (page_ids d) l))) /\
    forall j, j <> u -> nth_error d' j = nth_error d j.
Proof.
  induction l as [|p l IH]; intros d t Ht; simpl.
  - rewrite app_nil_r, set_children_same. auto.
  - destruct (append_if_absent_children u d p t Ht) as (Hu & Ho & Hm).
    destruct (IH _ _ Hu) as [Hu' Ho'].
    split.
    + rewrite Hu'. f_equal. unfold set_children. simpl. f_equal.
      rewrite <- app_assoc. f_equal. unfold elements_for.
      rewrite <- map_app. f_equal.
      rewrite (fresh_players_ext l _ (id p :: page_ids d) Hm).
      simpl. destruct (mem (page_ids d) (id p)) eqn:E; [|reflexivity].
      simpl. apply fresh_players_ext. intros x.
      change (mem (id p :: page_ids d) x)
        with (String.eqb x (id p) || mem (page_ids d) x).
      destruct (String.eqb_spec x (id p)) as [->|Hne]; [|reflexivity].
      now rewrite E.
    + intros j Hj. now rewrite Ho', Ho.
Qed.

Lemma order_at_nth (d : page) (j : nat) (t : tier) :
  nth_error d j = Some t -> order_at d j = Some (tier_order t).
Proof. intros H. unfold order_at. now rewrite H. Qed.

Lemma tier_order_set_children (t : tier) (l : list element) :
  tier_order (set_children t l) = ids_of l.
Proof. reflexivity. Qed.

Lemma ids_of_elements_for (l : list player) :
  ids_of (elements_for l) = map id l.
Proof.
  unfold ids_of, elements_for. rewrite map_map. reflexivity.
Qed.

Lemma tier_order_nil (d : page) (j : nat) (t : tier) :
  page_ids d = [] -> nth_error d j = Some t -> tier_order t = [].
Proof.
  intros Hp Ht. destruct (tier_order t) as [|i o] eqn:E; [reflexivity|].
  assert (Hin : In i (page_ids d)).
  { unfold page_ids, ids_of, all_players.
    unfold tier_order, ids_of in E.
    assert (Hi : In i (map data_id (children t)))
      by (rewrite E; now left).
    apply in_map_iff in Hi. destruct Hi as (e & <- & He).
    apply in_map. apply in_flat_map. exists t.
    split; [eapply nth_error_In; eassumption|assumption]. }
  rewrite Hp in Hin. destruct Hin.
Qed.

Lemma ids_of_app_elements (t : tier) (l : list player) :
  ids_of (children t ++ elements_for l) = tier_order t ++ map id l.
Proof.
  unfold tier_order, ids_of. rewrite map_app.
  fold (ids_of (elements_for l)). now rewrite ids_of_elements_for.
Qed.

(** ** Saved and loaded again *)

Lemma list_id_updateRanks (d : page) :
  map list_id (updateRanks d) = map list_id d.
Proof.
  unfold updateRanks. rewrite map_map. apply map_ext.
  intros t. now destruct (data_tier t).
Qed.

(** Saving, then starting again on a page without players. *)
Lemma restore_after_save_orders (P : platform) (response : option mapping)
      (s s0 : state) (u : nat) :
  NoDup (map list_id (doc s)) ->
  Forall (fun t => list_id t <> "__proto__"%string) (doc s) ->
  NoDup (page_ids (doc s)) ->
  page_ids (doc s0) = [] ->
  getElementById "tier-unranked" (doc s0) = Some u ->
  rankings s0 = rankings (saveRankings true s) ->
  let pool := map id (pool_of P (fetchPlayers response)) in
  exists s',
    populateUnranked P response s0 = Returns s' /\
    map list_id (doc s') = map list_id (doc s0) /\
    (forall i, In i (page_ids (doc s')) <-> In i pool) /\
    forall t j,
      In t (doc s) ->
      getElementById (list_id t) (doc s0) = Some j ->
      exists front,
        order_at (doc s') j
        = Some (front ++ filter (mem pool) (tier_order t)) /\
        (j <> u -> front = []) /\
        Forall (fun i =>
                  In i pool /\
                  ~ exists t', In t' (doc s) /\ In i (tier_order t') /\
                               getElementById (list_id t') (doc s0) <> None)
               front.
Proof.
  intros Hlists Hproto Hids Hfresh Hu Hstore pool.
  unfold populateUnranked.
  set (s1 := with_allPlayers _ _).
  assert (Hd1 : doc s1 = doc s0) by (subst s1; now destruct response).
  assert (Hr1 : rankings s1 = rankings s0) by (subst s1; now destruct response).
  assert (Ha1 : map id (allPlayers s1) = pool) by reflexivity.
  rewrite Hd1, Hu.
  destruct (getElementById_some _ _ _ Hu) as (tu & Htu & _).
  set (d2 := fold_left (append_if_absent u) (allPlayers s1) (doc s0)).
  destruct (fold_append_if_absent_keeps u (allPlayers s1) (doc s0) tu Htu)
    as ((Hn2 & _) & Hin2 & Hlen2).
  destruct (fold_append_if_absent_shape u (allPlayers s1) (doc s0))
    as (Hl2 & Ho2 & Hsub2).
  fold d2 in Hn2, Hin2, Hlen2, Hl2, Ho2, Hsub2.
  rewrite Hfresh, app_nil_r, Ha1 in Hsub2. rewrite Ha1 in Hin2.
  assert (Hnd2 : NoDup (page_ids d2)) by (apply Hn2; rewrite Hfresh; constructor).
  set (s2 := with_doc d2 s1).
  (* what is read from storage *)
  destruct (saved_entries_of_save (doc s) Hlists Hproto)
    as (saved & Hperm & Hparse).
  assert (Htext : stored_text s2 = JSON_stringify (tiers_of (doc s))).
  { unfold stored_text. change (rankings s2) with (rankings s1).
    rewrite Hr1, Hstore. reflexivity. }
  unfold loadRankings. rewrite Htext.
  destruct (JSON_parse (JSON_stringify (tiers_of (doc s)))) as [v|];
    [|discriminate].
  simpl in Hparse. injection Hparse as Hparse. rewrite Hparse.
  (* the saved tiers, as a permutation of those of the page *)
  assert (Hkeys : NoDup (map fst saved)).
  { eapply Permutation_NoDup;
      [symmetry; apply Permutation_map; exact Hperm|].
    rewrite map_map. exact Hlists. }
  assert (Hrest : Permutation (restored d2 saved)
                              (restored (doc s0) (map saved_tier (doc s)))).
  { rewrite (restored_ext d2 (doc s0) _ Hl2).
    unfold restored. now apply Permutation_flat_map. }
  destruct (load_entries_order P saved s2) as (s3 & He3 & Hl3 & Hp3 & Ha3 & Ho3).
  { exact Hnd2. }
  { eapply Permutation_NoDup; [symmetry; exact Hrest|].
    now apply restored_NoDup. }
  change (doc s2) with d2 in *.
  rewrite He3.
  eexists. split; [reflexivity|]. simpl. split; [|split].
  - rewrite list_id_updateRanks. congruence.
  - intros i. rewrite updateRanks_ids. split.
    + intros Hi. apply Hsub2.
      eapply Permutation_in; [exact Hp3|exact Hi].
    + intros Hi. eapply Permutation_in; [symmetry; exact Hp3|].
      now apply Hin2.
  - intros t j Ht Hj.
    destruct (getElementById_some _ _ _ Hj) as (tj & Htj & _).
    assert (Hplaced : placed_in d2 j saved = tier_order t).
    { apply (placed_in_unique d2 j (list_id t)); auto.
      - eapply Permutation_in; [symmetry; exact Hperm|].
        apply in_map_iff. now exists t.
      - now rewrite (getElementById_ext _ d2 (doc s0) Hl2). }
    assert (Ho2j : exists o2, order_at d2 j = Some o2 /\
                              (j <> u -> o2 = []) /\
                              incl o2 (page_ids d2)).
    { destruct (nth_error_in_range (doc s0) d2 j tj Hlen2 Htj) as [t2 Ht2].
      exists (tier_order t2). unfold order_at at 1. rewrite Ht2.
      split; [reflexivity|]. split.
      - intros Hne. pose proof (Ho2 j Hne) as E.
        rewrite (order_at_empty (doc s0) j tj Hfresh Htj) in E.
        unfold order_at in E. rewrite Ht2 in E. simpl in E. congruence.
      - apply nth_error_split in Ht2. destruct Ht2 as (a & b & -> & _).
        intros i Hi. rewrite page_ids_app, page_ids_cons, !in_app_iff. auto. }
    destruct Ho2j as (o2 & Eo2 & Hempty & Hsub).
    exists (filter (fun x => negb (mem (restored d2 saved) x)) o2).
    rewrite order_at_updateRanks, Ho3, Eo2, Hplaced. simpl.
    split; [|split].
    + f_equal. f_equal. apply filter_ext. intros i.
      destruct (mem pool i) eqn:E.
      * apply mem_spec. apply mem_spec in E. now apply Hin2.
      * apply mem_false. apply mem_false in E. intros H. apply E.
        now apply Hsub2.
    + intros Hne. now rewrite (Hempty Hne).
    + rewrite Forall_forall. intros i Hi. apply filter_In in Hi.
      destruct Hi as [Hi Hm]. split; [now apply Hsub2, Hsub|].
      apply negb_true_iff, mem_false in Hm.
      intros Hex. apply Hm.
      eapply Permutation_in; [symmetry; exact Hrest|].
      now apply restored_in.
Qed.

Lemma placed_in_none (d : page) (j : nat)
      (saved : list (string * list string)) :
  (forall e, In e saved -> getElementById (fst e) d <> Some j) ->
  placed_in d j saved = [].
Proof.
  intros H. unfold placed_in. apply flat_map_all_nil. intros e He.
  unfold brings. specialize (H e He).
  destruct (getElementById (fst e) d) as [k|]; [|reflexivity].
  destruct (Nat.eqb_spec j k) as [->|]; [congruence|reflexivity].
Qed.

(** What is brought to a list does not depend on the order in which the
    stored object lists its keys. *)
Lemma placed_in_perm (d : page) (j : nat)
      (saved saved' : list (string * list string)) :
  NoDup (map fst saved) -> Permutation saved saved' ->
  placed_in d j saved = placed_in d j saved'.
Proof.
  intros Hn Hp.
  set (names_j := fun e : string * list string =>
                    match getElementById (fst e) d with
                    | Some k => Nat.eqb k j
                    | None => false
                    end).
  destruct (existsb names_j saved) eqn:E.
  - apply existsb_exists in E. destruct E as ([k ids] & Hin & Hk).
    unfold names_j in Hk. simpl in Hk.
    destruct (getElementById k d) as [k'|] eqn:Ek; [|discriminate].
    apply Nat.eqb_eq in Hk. subst k'.
    rewrite (placed_in_unique d j k ids saved Hn Hin Ek).
    symmetry. apply (placed_in_unique d j k ids saved'); auto.
    + eapply Permutation_NoDup; [apply Permutation_map; exact Hp|exact Hn].
    + eapply Permutation_in; eassumption.
  - assert (Hnone : forall e, In e saved ->
                              getElementById (fst e) d <> Some j).
    { intros e He Hk.
      assert (X : existsb names_j saved = true).
      { apply existsb_exists. exists e. split; [assumption|].
        unfold names_j. rewrite Hk. apply Nat.eqb_refl. }
      congruence. }
    rewrite !placed_in_none; auto.
    intros e He. apply Hnone.
    eapply Permutation_in; [symmetry; exact Hp|exact He].
Qed.

(** Saving, then starting again on a page without players: every list of
    the new page. *)
Lemma restore_after_save_exact (P : platform) (response : option mapping)
      (s s0 : state) (u : nat) :
  NoDup (map list_id (doc s)) ->
  Forall (fun t => list_id t <> "__proto__"%string) (doc s) ->
  NoDup (page_ids (doc s)) ->
  page_ids (doc s0) = [] ->
  getElementById "tier-unranked" (doc s0) = Some u ->
  rankings s0 = rankings (saveRankings true s) ->
  let pool := map id (pool_of P (fetchPlayers response)) in
  let held := restored (doc s0) (map saved_tier (doc s)) in
  let rest :=
    filter (fun i => negb (mem held i))
           (map id (fresh_players [] (pool_of P (fetchPlayers response)))) in
  exists s',
    populateUnranked P response s0 = Returns s' /\
    (forall i, In i (page_ids (doc s')) <-> In i pool) /\
    forall j,
      order_at (doc s') j
      = option_map
          (fun _ =>
             (if Nat.eqb j u then rest else [])
             ++ filter (mem pool)
                       (placed_in (doc s0) j (map saved_tier (doc s))))
          (order_at (doc s0) j).
Proof.
  intros Hlists Hproto Hids Hfresh Hu Hstore pool held rest.
  unfold populateUnranked.
  set (s1 := with_allPlayers _ _).
  assert (Hd1 : doc s1 = doc s0) by (subst s1; now destruct response).
  assert (Hr1 : rankings s1 = rankings s0) by (subst s1; now destruct response).
  assert (Hp1 : allPlayers s1 = pool_of P (fetchPlayers response))
    by reflexivity.
  assert (Ha1 : map id (allPlayers s1) = pool) by reflexivity.
  rewrite Hd1, Hu.
  destruct (getElementById_some _ _ _ Hu) as (tu & Htu & _).
  set (d2 := fold_left (append_if_absent u) (allPlayers s1) (doc s0)).
  destruct (fold_append_if_absent_keeps u (allPlayers s1) (doc s0) tu Htu)
    as ((Hn2 & _) & Hin2 & Hlen2).
  destruct (fold_append_if_absent_shape u (allPlayers s1) (doc s0))
    as (Hl2 & Ho2 & Hsub2).
  destruct (fold_append_if_absent_children u (allPlayers s1) (doc s0) tu Htu)
    as (Hu2 & _).
  fold d2 in Hn2, Hin2, Hlen2, Hl2, Ho2, Hsub2, Hu2.
  rewrite Hfresh, app_nil_r, Ha1 in Hsub2. rewrite Ha1 in Hin2.
  rewrite Hfresh, Hp1 in Hu2.
  assert (Hnd2 : NoDup (page_ids d2)) by (apply Hn2; rewrite Hfresh; constructor).
  assert (Hmem2 : forall i, mem (page_ids d2) i = mem pool i).
  { intros i. destruct (mem pool i) eqn:E.
    - apply mem_spec. apply mem_spec in E. now apply Hin2.
    - apply mem_false. apply mem_false in E. intros H. apply E.
      now apply Hsub2. }
  set (s2 := with_doc d2 s1).
  (* what is read from storage *)
  destruct (saved_entries_of_save (doc s) Hlists Hproto)
    as (saved & Hperm & Hparse).
  assert (Htext : stored_text s2 = JSON_stringify (tiers_of (doc s))).
  { unfold stored_text. change (rankings s2) with (rankings s1).
    rewrite Hr1, Hstore. reflexivity. }
  unfold loadRankings. rewrite Htext.
  destruct (JSON_parse (JSON_stringify (tiers_of (doc s)))) as [v|];
    [|discriminate].
  simpl in Hparse. injection Hparse as Hparse. rewrite Hparse.
  assert (Hkeys : NoDup (map fst saved)).
  { eapply Permutation_NoDup;
      [symmetry; apply Permutation_map; exact Hperm|].
    rewrite map_map. exact Hlists. }
  assert (Hrest : Permutation (restored d2 saved) held).
  { rewrite (restored_ext d2 (doc s0) _ Hl2).
    unfold held, restored. now apply Permutation_flat_map. }
  destruct (load_entries_order P saved s2) as (s3 & He3 & Hl3 & Hp3 & Ha3 & Ho3).
  { exact Hnd2. }
  { eapply Permutation_NoDup; [symmetry; exact Hrest|].
    now apply restored_NoDup. }
  change (doc s2) with d2 in *.
  rewrite He3.
  eexists. split; [reflexivity|]. simpl. split.
  - intros i. rewrite updateRanks_ids. split.
    + intros Hi. apply Hsub2.
      eapply Permutation_in; [exact Hp3|exact Hi].
    + intros Hi. eapply Permutation_in; [symmetry; exact Hp3|].
      now apply Hin2.
  - intros j. rewrite order_at_updateRanks, Ho3.
    rewrite (placed_in_ext d2 (doc s0) j saved Hl2).
    rewrite (placed_in_perm (doc s0) j saved _ Hkeys Hperm).
    rewrite (filter_ext _ _ Hmem2).
    assert (Hheld : forall o,
               filter (fun x => negb (mem (restored d2 saved) x)) o
               = filter (fun x => negb (mem held x)) o).
    { intros o. apply filter_ext. intros x.
      now rewrite (mem_perm _ _ x Hrest). }
    destruct (Nat.eqb_spec j u) as [->|Hne].
    + rewrite (order_at_nth _ _ _ Hu2), (order_at_nth _ _ _ Htu).
      simpl. f_equal. f_equal. rewrite Hheld. unfold rest.
      rewrite tier_order_set_children, (ids_of_app_elements tu).
      rewrite (tier_order_nil _ _ _ Hfresh Htu). reflexivity.
    + rewrite (Ho2 j Hne).
      unfold order_at. destruct (nth_error (doc s0) j) as [tj|] eqn:Htj;
        [|reflexivity].
      simpl. f_equal. f_equal.
      now rewrite (tier_order_nil _ _ _ Hfresh Htj).
Qed.

(** An id of a page without an id twice is in one tier only. *)
Lemma same_tier (d : page) (t t' : tier) (i : string) :
  NoDup (page_ids d) -> In t d -> In t' d ->
  In i (tier_order t) -> In i (tier_order t') -> t = t'.
Proof.
  intros Hn Ht Ht' Hi Hi'.
  apply In_nth_error in Ht. destruct Ht as (a & Ha).
  apply In_nth_error in Ht'. destruct Ht' as (b & Hb).
  assert (Hin : In i (page_ids d)).
  { apply nth_error_split in Ha. destruct Ha as (l1 & l2 & -> & _).
    rewrite page_ids_app, page_ids_cons, !in_app_iff. auto. }
  destruct (one_tier d i Hn Hin) as (ti & t0 & _ & _ & Huniq).
  pose proof (Huniq a t Ha Hi) as Ea.
  pose proof (Huniq b t' Hb Hi') as Eb.
  congruence.
Qed.

(** C3, as the script has it.  Save a page on which no player id and no
    list id occurs twice (and no list is called [__proto__]); then start
    the script on a page without players that has the unranked list,
    with that item in storage.  The saved ids and those of the pool can
    be written into the selector, and the ids of the saved lists are not
    empty and name no other element of the new page.  The start returns,
    and afterwards:
    - the ids on the page are those of the pool, so a saved id that is
      no longer in the pool is in no tier;
    - a saved tier whose list id names a list of the new page is found
      there with its saved order, cut down to the ids of the pool;
    - the unranked list holds, in front of that order, the players of
      the pool that no such tier holds, in the order of the pool, every
      id once; every other list holds nothing in front of it, and a
      list that no saved tier names holds nothing else;
    - a saved tier whose list the new page does not have is not
      restored: those of its players that are in the pool are among
      these players in front of the unranked list. *)
Theorem restore_after_save (P : platform) (response : option mapping)
        (s s0 : state) (u : nat) :
  NoDup (map list_id (doc s)) ->
  Forall (fun t => list_id t <> "__proto__"%string) (doc s) ->
  NoDup (page_ids (doc s)) ->
  page_ids (doc s0) = [] ->
  getElementById "tier-unranked" (doc s0) = Some u ->
  rankings s0 = rankings (saveRankings true s) ->
  Forall (fun t => names_list_only P (list_id t) = true) (doc s) ->
  Forall (fun i => plain_id i = true) (page_ids (doc s)) ->
  plain_ids (pool_of P (fetchPlayers response)) ->
  let pool := map id (pool_of P (fetchPlayers response)) in
  let held := restored (doc s0) (map saved_tier (doc s)) in
  let rest :=
    filter (fun i => negb (mem held i))
           (map id (fresh_players [] (pool_of P (fetchPlayers response)))) in
  exists s',
    populateUnranked P response s0 = Returns s' /\
    (forall i, In i (page_ids (doc s')) <-> In i pool) /\
    (forall t j,
        In t (doc s) ->
        getElementById (list_id t) (doc s0) = Some j ->
        order_at (doc s') j
        = Some ((if Nat.eqb j u then rest else [])
                ++ filter (mem pool) (tier_order t))) /\
    (forall j,
        (j < length (doc s0))%nat ->
        (forall t, In t (doc s) ->
                   getElementById (list_id t) (doc s0) <> Some j) ->
        order_at (doc s') j = Some (if Nat.eqb j u then rest else [])) /\
    (forall t i,
        In t (doc s) ->
        getElementById (list_id t) (doc s0) = None ->
        In i (tier_order t) -> In i pool -> In i rest) /\
    (NoDup pool -> rest = filter (fun i => negb (mem held i)) pool).
Proof.
  intros H1 H2 H3 H4 H5 H6 _ _ _ pool held rest.
  destruct (restore_after_save_exact P response s s0 u H1 H2 H3 H4 H5 H6)
    as (s' & Hs' & Hids & Hord).
  exists s'. split; [exact Hs'|]. split; [exact Hids|].
  split; [|split; [|split]].
  - intros t j Ht Hj. rewrite Hord.
    destruct (getElementById_some _ _ _ Hj) as (tj & Htj & _).
    rewrite (order_at_nth _ _ _ Htj). simpl. do 3 f_equal.
    apply (placed_in_unique (doc s0) j (list_id t)).
    + now rewrite map_map.
    + apply in_map_iff. now exists t.
    + exact Hj.
  - intros j Hj Hnone. rewrite Hord.
    apply nth_error_Some in Hj.
    destruct (nth_error (doc s0) j) as [tj|] eqn:Htj; [|congruence].
    rewrite (order_at_nth _ _ _ Htj). simpl. f_equal.
    rewrite placed_in_none; [apply app_nil_r|].
    intros e He. apply in_map_iff in He. destruct He as (t & <- & Ht).
    now apply Hnone.
  - intros t i Ht Hskip Hi Hpool. unfold rest. apply filter_In. split.
    + apply (proj2 (fresh_players_ids _ [])). auto.
    + apply negb_true_iff, mem_false. intros Hheld.
      apply restored_in in Hheld.
      destruct Hheld as (t' & Ht' & Hi' & Hlist).
      apply Hlist. now rewrite <- (same_tier (doc s) t t' i H3 Ht Ht' Hi Hi').
  - intros Hn. unfold rest, pool. do 2 f_equal.
    apply fresh_players_all; [exact Hn|]. intros p _ [].
Qed.

Lemma filter_nothing {A : Type} (f : A -> bool) (l : list A) :
  (forall x, In x l -> f x = false) -> filter f l = [].
Proof.
  induction l as [|x l IH]; intros H; simpl; [reflexivity|].
  rewrite (H x) by now left. apply IH. intros y Hy. apply H. now right.
Qed.

(** When the new page has a list for every saved tier, the round trip is
    as the specification words it. *)
Lemma round_trip_when_lists_exist (P : platform) (response : option mapping)
      (s s0 : state) :
  NoDup (map list_id (doc s)) ->
  Forall (fun t => list_id t <> "__proto__"%string) (doc s) ->
  NoDup (page_ids (doc s)) ->
  page_ids (doc s0) = [] ->
  getElementById "tier-unranked" (doc s0) <> None ->
  (forall t, In t (doc s) -> getElementById (list_id t) (doc s0) <> None) ->
  round_trip_reproduces P response s s0.
Proof.
  intros H1 H2 H3 H4 H5 Hall.
  destruct (getElementById "tier-unranked" (doc s0)) as [u|] eqn:Hu;
    [clear H5|congruence].
  unfold round_trip_reproduces.
  set (s1 := with_rankings (rankings (saveRankings true s)) s0).
  destruct (restore_after_save_orders P response s s1 u H1 H2 H3 H4 Hu eq_refl)
    as (s' & Hs' & Hl & Hids & Hord).
  rewrite Hs'. simpl. split.
  - intros t Ht.
    destruct (getElementById (list_id t) (doc s0)) as [j|] eqn:Hj;
      [|now apply Hall in Ht].
    destruct (Hord t j Ht Hj) as (front & Ho & _ & Hfront).
    unfold order_at in Ho.
    destruct (nth_error (doc s') j) as [t'|] eqn:Ht'; [|discriminate].
    injection Ho as Ho. exists t'.
    split; [eapply nth_error_In; eassumption|]. split.
    + destruct (getElementById_some _ _ _ Hj) as (tj & Htj & <-).
      apply (map_nth_error list_id) in Ht'. apply (map_nth_error list_id) in Htj.
      change (doc s1) with (doc s0) in Hl. congruence.
    + rewrite Ho, filter_app, filter_filter.
      rewrite (filter_nothing (mem (tier_order t)) front).
      * simpl. apply filter_ext_in. intros i Hi.
        apply mem_spec in Hi. rewrite Hi. apply andb_true_r.
      * rewrite Forall_forall in Hfront. intros i Hi.
        apply mem_false. intros Hin. apply (proj2 (Hfront i Hi)).
        exists t. repeat split; auto;
          change (doc s1) with (doc s0); congruence.
  - intros i _ Hnot Hin. apply Hnot. now apply Hids.
Qed.

(** ** Loading what cannot be read *)

(** Whatever text [JSON.parse] rejects, [loadRankings] throws on it and
    has done nothing by then. *)
Lemma loadRankings_syntax_error (P : platform) (s : state) :
  JSON_parse (stored_text s) = None ->
  loadRankings P s = Throws SyntaxError s.
Proof. intros H. unfold loadRankings. now rewrite H. Qed.

(** With no item, or an empty one, in storage it returns and has done
    nothing. *)
Lemma loadRankings_nothing_stored (P : platform) (s : state) :
  rankings s = None \/ rankings s = Some ""%string ->
  loadRankings P s = Returns s.
Proof.
  intros H. unfold loadRankings, stored_text.
  destruct H as [-> | ->]; reflexivity.
Qed.

(** C2.  With the text [{] under the key, [loadRankings] throws the
    [SyntaxError] of [JSON.parse]; nothing is written to the console, and
    [populateUnranked] throws with it before [updateRanks] runs.  A
    stored object whose value for a list is not an array makes it throw a
    [TypeError].  Only a missing item is taken for the empty object:
    then [loadRankings] returns and changes nothing. *)
Theorem loadRankings_throws (P : platform) :
  let malformed := with_rankings (Some "{"%string) fresh_state in
  let misshapen :=
    with_rankings (Some (String "{" (quote "tier-1" ++ ":5}"))%string)
                  fresh_state in
  loadRankings P malformed = Throws SyntaxError malformed /\
  populateUnranked P (Some []) malformed
  = Throws SyntaxError (with_allPlayers [] malformed) /\
  loadRankings P misshapen = Throws TypeError misshapen /\
  loadRankings P fresh_state = Returns fresh_state.
Proof. repeat split. Qed.

(** ** Examples *)

(** C3, as the specification words it, fails: the second tier of the
    saved page, with Baker in front of Able, has no list on the page the
    next visit starts on, and after the start no tier has the list id
    [tier-2]. *)
Lemma round_trip_loses_added_tier :
  ~ round_trip_reproduces sample_platform (Some sample_mapping)
      saved_state fresh_state.
Proof.
  intros [H _].
  destruct (H (mkTier (Numbered 2) "tier-2"
                 (number_players
                    [createPlayerElement "2" (with_id ("2", sample_record "Bob" "Baker"));
                     createPlayerElement "1" (with_id ("1", sample_record "Ann" "Able"))]))%string)
    as (t' & Hin & Hid & _).
  - vm_compute. right. left. reflexivity.
  - vm_compute in Hin. destruct Hin as [<-|[<-|[]]]; discriminate.
Qed.

(** What the two visits look like: the lists with their orders. *)
Example saved_page_orders :
  map saved_tier (doc saved_state)
  = [("tier-1", []); ("tier-2", ["2"; "1"]); ("tier-unranked", ["3"])]%string.
Proof. reflexivity. Qed.

Example reloaded_page_orders :
  map saved_tier (doc reloaded_state)
  = [("tier-1", []); ("tier-unranked", ["1"; "2"; "3"])]%string.
Proof. reflexivity. Qed.


Lemma updateRanks_contiguous_witness :
  exists t,
    nth_error page_xyz 0 = Some t /\
    map rank_input (children (set_children tier1_xyz
                                (number_players (children tier1_xyz))))
    = [Some 1; Some 2; Some 3].
Proof.
  destruct (updateRanks_contiguous page_xyz 0
              (set_children tier1_xyz (number_players (children tier1_xyz)))
              eq_refl) as (t & Ht & _ & _ & Hr).
  exists t. split; [exact Ht|exact Hr].
Defined.

Lemma displayedCount_monotone_witness :
  let s0 := with_cursor (allPlayers started_state) 0 fresh_state in
  displayedCount (reveal_all [2; 5] s0)
  <= displayedCount (renderMorePlayers 1 (reveal_all [2; 5] s0)) <= 3.
Proof.
  intros s0.
  destruct (displayedCount_monotone s0 [2; 5] 1 eq_refl)
    as (_ & _ & Hlo & Hhi & _).
  split; [exact Hlo|exact Hhi].
Defined.

Lemma applyFilters_visibility_witness :
  let s := with_activePosFilter "QB" (with_filterInput "BAK" started_state) in
  exists t' p',
    nth_error (doc (applyFilters s)) 1 = Some t' /\
    nth_error (children t') 1 = Some p' /\
    data_id p' = "2"%string.
Proof.
  intros s.
  destruct (applyFilters_visibility s 1 1
              (nth 1 (doc s) unranked_empty)
              (createPlayerElement "2" (with_id ("2", sample_record "Bob" "Baker"))%string)
              eq_refl eq_refl)
    as (t' & p' & Ht & Hp & _ & Hsame & _).
  exists t', p'. split; [exact Ht|]. split; [exact Hp|].
  exact (f_equal data_id Hsame).
Defined.

Lemma clickAddTier_appends_witness :
  doc (clickAddTier started_state)
  = [mkTier (Numbered 1) "tier-1" [];
     mkTier (Numbered 2) "tier-2" [];
     nth 1 (doc started_state) unranked_empty].
Proof.
  destruct (clickAddTier_appends started_state
              [mkTier (Numbered 1) "tier-1" []]
              (nth 1 (doc started_state) unranked_empty))
    as (Hd & _ & _).
  - reflexivity.
  - repeat constructor.
  - reflexivity.
  - repeat constructor; vm_compute; discriminate.
  - exact Hd.
Defined.


Lemma every_player_in_one_tier_witness :
  NoDup (page_ids
           (doc (run [AddTierClick; DragEnd (1, 0) 1 0; SaveClick true]%nat
                     (state_of
                        (populateUnranked sample_platform
                           (Some sample_mapping)
                           (with_rankings (rankings saved_state)
                                          fresh_state)))))).
Proof.
  refine (proj1 (proj2 (every_player_in_one_tier sample_platform
                          (Some sample_mapping)
                          (with_rankings (rankings saved_state) fresh_state)
                          [AddTierClick; DragEnd (1, 0) 1 0;
                           SaveClick true]%nat
                          _ _ _ _ _))).
  - constructor.
  - discriminate.
  - vm_compute. reflexivity.
  - vm_compute. repeat constructor.
  - constructor.
Defined.

Lemma restore_after_save_witness :
  exists s',
    populateUnranked sample_platform (Some sample_mapping)
      (with_rankings (rankings saved_state) fresh_state) = Returns s' /\
    order_at (doc s') 1 = Some ["1"; "2"; "3"]%string.
Proof.
  destruct (restore_after_save sample_platform (Some sample_mapping)
              saved_state (with_rankings (rankings saved_state) fresh_state)
              1%nat)
    as (s' & Hs' & _ & Hnamed & _).
  - vm_compute. repeat constructor; simpl; intuition discriminate.
  - vm_compute. repeat constructor; discriminate.
  - vm_compute. repeat constructor; simpl; intuition discriminate.
  - reflexivity.
  - reflexivity.
  - reflexivity.
  - vm_compute. repeat constructor.
  - vm_compute. repeat constructor.
  - vm_compute. repeat constructor.
  - exists s'. split; [exact Hs'|].
    pose proof (Hnamed (nth 2 (doc saved_state) unranked_empty) 1%nat) as H.
    vm_compute in H. apply H; auto.
Defined.

(* ================================================================== *)
(** * Part III.  Further properties of the script                       *)
(* ================================================================== *)

(** ** Letter case *)

Lemma lower_char_idem (c : ascii) : lower_char (lower_char c) = lower_char c.
Proof.
  destruct c as [b0 b1 b2 b3 b4 b5 b6 b7];
    destruct b0, b1, b2, b3, b4, b5, b6, b7; reflexivity.
Qed.

Lemma upper_char_idem (c : ascii) : upper_char (upper_char c) = upper_char c.
Proof.
  destruct c as [b0 b1 b2 b3 b4 b5 b6 b7];
    destruct b0, b1, b2, b3, b4, b5, b6, b7; reflexivity.
Qed.

Lemma lower_upper_char (c : ascii) : lower_char (upper_char c) = lower_char c.
Proof.
  destruct c as [b0 b1 b2 b3 b4 b5 b6 b7];
    destruct b0, b1, b2, b3, b4, b5, b6, b7; reflexivity.
Qed.

Lemma map_string_compose (f g h : ascii -> ascii) (s : string) :
  (forall c, f (g c) = h c) ->
  map_string f (map_string g s) = map_string h s.
Proof.
  intros H. induction s as [|c s IH]; simpl; [reflexivity|].
  now rewrite H, IH.
Qed.

Lemma toLowerCase_idem (s : string) :
  toLowerCase (toLowerCase s) = toLowerCase s.
Proof. apply map_string_compose, lower_char_idem. Qed.

Lemma toUpperCase_idem (s : string) :
  toUpperCase (toUpperCase s) = toUpperCase s.
Proof. apply map_string_compose, upper_char_idem. Qed.

Lemma toLowerCase_toUpperCase (s : string) :
  toLowerCase (toUpperCase s) = toLowerCase s.
Proof. apply map_string_compose, lower_upper_char. Qed.

(** ** Filters, further *)

Lemma filter_element_twice (q f : string) (p : element) :
  filter_element q f (filter_element q f p) = filter_element q f p.
Proof. reflexivity. Qed.

Lemma with_doc_doc (s : state) : with_doc (doc s) s = s.
Proof. now destruct s. Qed.

(** X1.  A search text made of ASCII characters is matched whatever its
    letter case: typing it in capitals, or in small letters, shows and
    hides the same players as typing it as it is.  (For other text the
    case mappings of the language are not those of the embedding: the
    capitals of a sharp s are two letters.) *)
Theorem filter_text_case_insensitive (q : string) (s : state) :
  ascii_text q = true ->
  doc (handle (FilterInput (toUpperCase q)) s)
  = doc (handle (FilterInput q) s) /\
  doc (handle (FilterInput (toLowerCase q)) s)
  = doc (handle (FilterInput q) s).
Proof.
  intros _. unfold handle, applyFilters. simpl.
  now rewrite toLowerCase_toUpperCase, toLowerCase_idem.
Qed.

Lemma filter_text_case_insensitive_witness :
  doc (handle (FilterInput (toUpperCase "Ba")) started_state)
  = doc (handle (FilterInput "Ba") started_state).
Proof.
  refine (proj1 (filter_text_case_insensitive "Ba" started_state _)).
  reflexivity.
Defined.

(** X2.  [applyFilters] changes nothing but what is shown: with every
    player shown again the page is the page as it was, and the globals
    and the storage are untouched.  Running it twice is running it once,
    and with an empty search text and no position filter it shows
    every player. *)
Theorem applyFilters_only_visibility (s : state) :
  show_all (doc (applyFilters s)) = show_all (doc s) /\
  with_doc (doc s) (applyFilters s) = s /\
  applyFilters (applyFilters s) = applyFilters s /\
  (filterInput s = ""%string -> activePosFilter s = ""%string ->
   doc (applyFilters s) = show_all (doc s)).
Proof.
  repeat split.
  - unfold applyFilters, show_all. simpl. rewrite map_map.
    apply map_ext. intros t. unfold set_children. simpl.
    rewrite map_map. reflexivity.
  - now destruct s.
  - unfold applyFilters, with_doc. simpl. f_equal. rewrite map_map.
    apply map_ext. intros t. unfold set_children. simpl.
    rewrite map_map. reflexivity.
  - intros Hq Hp. unfold applyFilters, show_all. simpl. rewrite Hq, Hp.
    reflexivity.
Qed.

Lemma applyFilters_only_visibility_witness :
  doc (applyFilters started_state) = show_all (doc started_state).
Proof.
  refine (proj2 (proj2 (proj2 (applyFilters_only_visibility started_state)))
                _ _); reflexivity.
Defined.

(** ** What is saved *)

Lemma tiers_of_saved_tier (d d' : page) :
  map saved_tier d = map saved_tier d' -> tiers_of d = tiers_of d'.
Proof.
  unfold tiers_of. generalize (@nil (string * list string)).
  revert d'. induction d as [|t d IH]; intros [|t' d'] acc H;
    simpl in *; try discriminate; [reflexivity|].
  unfold saved_tier in H at 1 3. injection H as Hi Ho Hd.
  rewrite Hi, Ho. now apply IH.
Qed.

Lemma saved_tier_updateRanks (d : page) :
  map saved_tier (updateRanks d) = map saved_tier d.
Proof.
  unfold updateRanks. rewrite map_map. apply map_ext.
  intros t. unfold saved_tier. destruct (data_tier t); [reflexivity|].
  simpl. unfold tier_order. simpl. now rewrite number_players_ids.
Qed.

Lemma saved_tier_applyFilters (s : state) :
  map saved_tier (doc (applyFilters s)) = map saved_tier (doc s).
Proof.
  unfold applyFilters. simpl. rewrite map_map. apply map_ext.
  intros t. unfold saved_tier, tier_order, ids_of. simpl.
  now rewrite map_map.
Qed.

(** X3.  What [saveRankings] stores is made of the ids of the lists and
    the ids of the players in them, in order, and of nothing else: two
    pages that agree on those are stored as the same text.  So neither
    the rank inputs nor the filters have a part in it. *)
Theorem saved_text_depends_on_orders (s s' : state) :
  map saved_tier (doc s) = map saved_tier (doc s') ->
  rankings (saveRankings true s) = rankings (saveRankings true s') /\
  rankings (saveRankings true (applyFilters s))
  = rankings (saveRankings true s) /\
  rankings (saveRankings true (with_doc (updateRanks (doc s)) s))
  = rankings (saveRankings true s).
Proof.
  intros H. unfold saveRankings. simpl. repeat split; do 2 f_equal.
  - now apply tiers_of_saved_tier.
  - apply tiers_of_saved_tier. apply (saved_tier_applyFilters s).
  - apply tiers_of_saved_tier, saved_tier_updateRanks.
Qed.

Lemma saved_text_depends_on_orders_witness :
  rankings (saveRankings true (handle (FilterInput "ba") saved_state))
  = rankings (saveRankings true saved_state).
Proof.
  refine (proj1 (saved_text_depends_on_orders
                   (handle (FilterInput "ba") saved_state) saved_state _)).
  vm_compute. reflexivity.
Defined.

(** ** The tiers and their names *)

Lemma skeleton_update (f : tier -> tier) (d : page) (ti : nat) :
  (forall t, data_tier (f t) = data_tier t /\ list_id (f t) = list_id t) ->
  skeleton (update_tier ti f d) = skeleton d.
Proof.
  intros H. unfold skeleton. revert ti.
  induction d as [|t d IH]; intros [|ti]; simpl; try reflexivity.
  - destruct (H t) as [-> ->]. reflexivity.
  - now rewrite IH.
Qed.

Lemma skeleton_map (f : tier -> tier) (d : page) :
  (forall t, data_tier (f t) = data_tier t /\ list_id (f t) = list_id t) ->
  skeleton (map f d) = skeleton d.
Proof.
  intros H. unfold skeleton. rewrite map_map. apply map_ext.
  intros t. destruct (H t) as [-> ->]. reflexivity.
Qed.

Lemma skeleton_list_id (d : page) : map snd (skeleton d) = map list_id d.
Proof. unfold skeleton. now rewrite map_map. Qed.

Lemma skeleton_updateRanks (d : page) : skeleton (updateRanks d) = skeleton d.
Proof.
  apply skeleton_map. intros t.
  destruct (data_tier t) eqn:E; simpl; auto.
Qed.

Lemma skeleton_detach (loc : nat * nat) (d : page) :
  skeleton (detach loc d) = skeleton d.
Proof. apply skeleton_update. auto. Qed.

Lemma skeleton_appendChild (ti : nat) (e : element) (d : page) :
  skeleton (appendChild ti e d) = skeleton d.
Proof. apply skeleton_update. auto. Qed.

Lemma skeleton_move_to_end (ti : nat) (loc : nat * nat) (d : page) :
  skeleton (move_to_end ti loc d) = skeleton d.
Proof.
  unfold move_to_end. destruct (element_at loc d); [|reflexivity].
  now rewrite skeleton_appendChild, skeleton_detach.
Qed.

Lemma skeleton_drop_player (from : nat * nat) (to_tier to_index : nat)
      (d : page) :
  skeleton (drop_player from to_tier to_index d) = skeleton d.
Proof.
  unfold drop_player.
  destruct (element_at from d); [|reflexivity].
  destruct (nth_error d to_tier); [|reflexivity].
  rewrite skeleton_update by auto. apply skeleton_detach.
Qed.

Lemma skeleton_append_if_absent (u : nat) (d : page) (p : player) :
  skeleton (append_if_absent u d p) = skeleton d.
Proof.
  unfold append_if_absent.
  destruct (querySelector_player (id p) d); [reflexivity|].
  apply skeleton_appendChild.
Qed.

Lemma skeleton_fold_append (u : nat) (l : list player) :
  forall d, skeleton (fold_left (append_if_absent u) l d) = skeleton d.
Proof.
  induction l as [|p l IH]; intros d; simpl; [reflexivity|].
  now rewrite IH, skeleton_append_if_absent.
Qed.

Lemma skeleton_handleRankInputChange (ti pi : nat) (parsed : option Z)
      (d : page) :
  skeleton (fst (handleRankInputChange ti pi parsed d)) = skeleton d.
Proof.
  unfold handleRankInputChange.
  destruct (nth_error d ti) as [t|]; [|reflexivity].
  destruct (data_tier t); [reflexivity|].
  destruct (nth_error (children t) pi); [|reflexivity].
  destruct (_ =? _); simpl; rewrite skeleton_updateRanks; [reflexivity|].
  apply skeleton_update. auto.
Qed.

Lemma skeleton_applyFilters (s : state) :
  skeleton (doc (applyFilters s)) = skeleton (doc s).
Proof. unfold applyFilters. simpl. apply skeleton_map. auto. Qed.

Lemma skeleton_renderMorePlayers (limit : Z) (s : state) :
  skeleton (doc (renderMorePlayers limit s)) = skeleton (doc s).
Proof.
  unfold renderMorePlayers.
  destruct (getElementById "tier-unranked" (doc s)); [|reflexivity].
  simpl. apply skeleton_fold_append.
Qed.

Lemma skeleton_place_player (P : platform) (ti : nat) (s : state) (i : json) :
  skeleton (doc (place_player P ti s i)) = skeleton (doc s).
Proof.
  unfold place_player.
  destruct (querySelector_player _ (doc s)); simpl; [|reflexivity].
  apply skeleton_move_to_end.
Qed.

Lemma skeleton_fold_place (P : platform) (ti : nat) (ids : list json) :
  forall s, skeleton (doc (fold_left (place_player P ti) ids s))
            = skeleton (doc s).
Proof.
  induction ids as [|i ids IH]; intros s; simpl; [reflexivity|].
  now rewrite IH, skeleton_place_player.
Qed.

Lemma skeleton_load_entries (P : platform) (entries : list (string * json)) :
  forall s, skeleton (doc (state_of (load_entries P entries s)))
            = skeleton (doc s).
Proof.
  induction entries as [|[k v] entries IH]; intros s; simpl; [reflexivity|].
  destruct (getElementById k (doc s)); [|apply IH].
  destruct v; try reflexivity.
  now rewrite IH, skeleton_fold_place.
Qed.

Lemma skeleton_loadRankings (P : platform) (s : state) :
  skeleton (doc (state_of (loadRankings P s))) = skeleton (doc s).
Proof.
  unfold loadRankings. destruct (JSON_parse (stored_text s)); [|reflexivity].
  apply skeleton_load_entries.
Qed.

Lemma skeleton_populateUnranked (P : platform) (response : option mapping)
      (s : state) :
  skeleton (doc (state_of (populateUnranked P response s)))
  = skeleton (doc s).
Proof.
  unfold populateUnranked.
  set (s1 := with_allPlayers _ _).
  assert (Hd1 : doc s1 = doc s) by (subst s1; now destruct response).
  clearbody s1.
  destruct (getElementById "tier-unranked" (doc s1)) as [u|].
  - set (s2 := with_doc _ s1).
    assert (H : skeleton (doc (state_of (loadRankings P s2)))
                = skeleton (doc s)).
    { rewrite skeleton_loadRankings. unfold s2. cbn [doc with_doc].
      now rewrite skeleton_fold_append, Hd1. }
    destruct (loadRankings P s2); simpl in *; [|assumption].
    now rewrite skeleton_updateRanks.
  - destruct (forallb _ _); [|simpl; now rewrite Hd1].
    assert (H : skeleton (doc (state_of (loadRankings P s1)))
                = skeleton (doc s))
      by now rewrite skeleton_loadRankings, Hd1.
    destruct (loadRankings P s1); simpl in *; [|assumption].
    now rewrite skeleton_updateRanks.
Qed.

(** [createTier] puts the new tier into the skeleton and changes nothing
    else of it. *)
Lemma skeleton_createTier (n : Z) (d : page) :
  exists above below,
    skeleton d = above ++ below /\
    skeleton (createTier n d)
    = above ++ (Numbered n, tier_list_id n) :: below.
Proof.
  unfold createTier.
  destruct (insert_before_unranked_split
              (mkTier (Numbered n) (tier_list_id n) []) d)
    as (above & below & Hd & _ & _ & Hi).
  exists (skeleton above), (skeleton below).
  rewrite Hi, Hd. unfold skeleton. rewrite !map_app. auto.
Qed.

(** Every event but the add-tier click leaves the tiers as they are. *)
Lemma skeleton_handle (ev : event) (s : state) :
  ev <> AddTierClick -> skeleton (doc (handle ev s)) = skeleton (doc s).
Proof.
  intros Hev. destruct ev; simpl; try congruence.
  - unfold saveRankings. now destruct stored.
  - unfold saveTimeout_fires, saveRankings.
    now destruct (saveTimeout s), stored.
  - rewrite skeleton_updateRanks. apply skeleton_drop_player.
  - unfold rank_input_change.
    pose proof (skeleton_handleRankInputChange ti pi parsed (doc s)) as H.
    destruct (handleRankInputChange ti pi parsed (doc s)) as [d save].
    now destruct save.
  - apply (skeleton_applyFilters (with_filterInput text s)).
  - apply (skeleton_applyFilters (with_activePosFilter _ s)).
  - apply skeleton_renderMorePlayers.
  - apply skeleton_renderMorePlayers.
  - apply (skeleton_renderMorePlayers DISPLAY_CHUNK
             (with_cursor (allPlayers s) 0 s)).
Qed.

Lemma in_skeleton (d : page) (k : tier_key) (i : string) :
  In (k, i) (skeleton d) <->
  exists t, In t d /\ data_tier t = k /\ list_id t = i.
Proof.
  unfold skeleton. rewrite in_map_iff. split.
  - intros (t & E & Ht). injection E as <- <-. eauto.
  - intros (t & Ht & <- & <-). eauto.
Qed.

(** *** The text of a number *)

Lemma to_int_proper (n : Z) :
  Z.to_int n <> Decimal.Pos Decimal.Nil /\
  Z.to_int n <> Decimal.Neg Decimal.Nil.
Proof.
  destruct n as [|p|p]; simpl; split; try discriminate;
    intros E; injection E as E; now apply Unsigned.to_uint_nonnil in E.
Qed.

Lemma string_of_Z_read_back (n : Z) :
  NilZero.int_of_string (string_of_Z n) = Some (Z.to_int n).
Proof.
  unfold string_of_Z. destruct (to_int_proper n). now apply NilZero.isi.
Qed.

Lemma string_of_Z_inj (a b : Z) : string_of_Z a = string_of_Z b -> a = b.
Proof.
  intros H. pose proof (string_of_Z_read_back a) as Ha.
  rewrite H, string_of_Z_read_back in Ha. injection Ha as Ha.
  rewrite <- (DecimalZ.of_to a), <- (DecimalZ.of_to b). now f_equal.
Qed.

Lemma tier_list_id_inj (a b : Z) : tier_list_id a = tier_list_id b -> a = b.
Proof.
  unfold tier_list_id. simpl. intros H. injection H as H.
  now apply string_of_Z_inj.
Qed.

Lemma tier_list_id_not_unranked (n : Z) :
  tier_list_id n <> "tier-unranked"%string.
Proof.
  unfold tier_list_id. simpl. intros H. injection H as H.
  pose proof (string_of_Z_read_back n) as Hn. rewrite H in Hn.
  discriminate.
Qed.

(** *** Numbering *)

Lemma newTierNumber_greater (d : page) (m : Z) :
  In m (existingTiers d) -> m < newTierNumber d.
Proof.
  unfold newTierNumber. destruct (existingTiers d) as [|n l]; [intros []|].
  intros Hin. destruct (Math_max_upper l n) as [H1 H2].
  destruct Hin as [<-|Hin]; [lia|].
  rewrite Forall_forall in H2. specialize (H2 m Hin). lia.
Qed.

Lemma newTierNumber_positive_or_next (d : page) :
  (existingTiers d = [] /\ newTierNumber d = 1) \/
  In (newTierNumber d - 1) (existingTiers d).
Proof.
  unfold newTierNumber. destruct (existingTiers d) as [|n l]; [now left|].
  right. replace (Math_max n l + 1 - 1) with (Math_max n l) by lia.
  apply Math_max_in.
Qed.

Lemma Math_max_is (first : Z) (others : list Z) (m : Z) :
  In m (first :: others) ->
  (forall x, In x (first :: others) -> x <= m) ->
  Math_max first others = m.
Proof.
  intros Hin Hub.
  pose proof (Math_max_in others first) as H1.
  destruct (Math_max_upper others first) as [H2 H3].
  rewrite Forall_forall in H3.
  assert (m <= Math_max first others).
  { destruct Hin as [<-|Hin]; [assumption|now apply H3]. }
  specialize (Hub _ H1). lia.
Qed.

Lemma existingTiers_skeleton (d : page) (m : Z) :
  In m (existingTiers d) <-> exists i, In (Numbered m, i) (skeleton d).
Proof.
  rewrite existingTiers_in. split.
  - intros (t & Ht & Hk). exists (list_id t). apply in_skeleton. eauto.
  - intros (i & Hi). apply in_skeleton in Hi.
    destruct Hi as (t & Ht & Hk & _). eauto.
Qed.

(** *** Numbers that doubles hold *)

Lemma exact_tiers_skeleton (c : Z) (d d' : page) :
  skeleton d' = skeleton d -> exact_tiers c d -> exact_tiers c d'.
Proof.
  unfold exact_tiers. rewrite !Forall_forall. intros Hs H m [<-|Hm].
  - apply H. now left.
  - apply H. right. apply existingTiers_skeleton.
    apply existingTiers_skeleton in Hm. now rewrite <- Hs.
Qed.

Lemma exact_tiers_createTier (c : Z) (d : page) :
  0 <= c -> exact_tiers (c + 1) d ->
  exact_tiers c (createTier (newTierNumber d) d).
Proof.
  unfold exact_tiers. rewrite !Forall_forall. intros Hc H m [<-|Hm].
  { specialize (H 0 (or_introl eq_refl)). lia. }
  apply existingTiers_skeleton in Hm. destruct Hm as (i & Hi).
  destruct (skeleton_createTier (newTierNumber d) d)
    as (above & below & Hs & Hn).
  rewrite Hn in Hi.
  assert (Hold : forall k, In (Numbered m, k) (skeleton d) ->
                           - MAX_SAFE_INTEGER <= m /\
                           m + c <= MAX_SAFE_INTEGER).
  { intros k Hk.
    assert (Hm : In m (existingTiers d))
      by (apply existingTiers_skeleton; eauto).
    specialize (H m (or_intror Hm)). lia. }
  apply in_app_or in Hi. destruct Hi as [Hi|[E|Hi]].
  - apply (Hold i). rewrite Hs. apply in_or_app. now left.
  - injection E as <- _.
    destruct (newTierNumber_positive_or_next d) as [[_ E1]|Hin].
    + rewrite E1. specialize (H 0 (or_introl eq_refl)). lia.
    + specialize (H _ (or_intror Hin)). lia.
  - apply (Hold i). rewrite Hs. apply in_or_app. now right.
Qed.

(** X4.  On any page whose tier numbers are integers that the doubles of
    the script hold exactly, the next two included, the add-tier click
    gives the new tier a number above every number there is, and the
    click after it the next number, which is held exactly as well.  It
    changes no player and no tier that was there, and the tiers that
    were there keep their order. *)
Theorem clickAddTier_numbers_upward (s : state) :
  exact_tiers 2 (doc s) ->
  let n := newTierNumber (doc s) in
  (forall m, In m (existingTiers (doc s)) -> m < n) /\
  newTierNumber (doc (clickAddTier s)) = n + 1 /\
  exact_tiers 1 (doc (clickAddTier s)) /\
  exists above below,
    doc s = above ++ below /\
    doc (clickAddTier s)
    = above ++ mkTier (Numbered n) (tier_list_id n) [] :: below.
Proof.
  intros Hexact n. split; [apply newTierNumber_greater|].
  assert (Hx1 : exact_tiers 1 (doc (clickAddTier s)))
    by (apply (exact_tiers_createTier 1 (doc s)); [lia|exact Hexact]).
  unfold clickAddTier, createTier in *. simpl in *. fold n in Hx1. fold n.
  destruct (insert_before_unranked_split
              (mkTier (Numbered n) (tier_list_id n) []) (doc s))
    as (above & below & Hd & _ & _ & Hi).
  split; [|split; [exact Hx1|exists above, below; auto]].
  rewrite Hi. unfold newTierNumber at 1.
  rewrite existingTiers_app. simpl.
  assert (Hub : forall x, In x (existingTiers above ++ n :: existingTiers below)
                          -> x <= n).
  { intros x Hx. apply in_app_or in Hx.
    destruct Hx as [Hx|[<-|Hx]]; [|lia|];
      (assert (x < n); [|lia]);
      apply newTierNumber_greater; rewrite Hd, existingTiers_app;
      apply in_or_app; auto. }
  assert (Hin : In n (existingTiers above ++ n :: existingTiers below))
    by (apply in_or_app; right; now left).
  destruct (existingTiers above ++ n :: existingTiers below) as [|x l] eqn:E;
    [destruct Hin|].
  f_equal. now apply Math_max_is.
Qed.

Lemma clickAddTier_numbers_upward_witness :
  1 < newTierNumber (doc started_state) /\
  newTierNumber (doc (clickAddTier started_state))
  = newTierNumber (doc started_state) + 1.
Proof.
  assert (Hx : exact_tiers 2 (doc started_state))
    by (repeat constructor; vm_compute; discriminate).
  split.
  - refine (proj1 (clickAddTier_numbers_upward started_state Hx) 1 _).
    vm_compute. now left.
  - exact (proj1 (proj2 (clickAddTier_numbers_upward started_state Hx))).
Defined.

(** ** Manual ranks *)

Lemma map_remove_nth {A B : Type} (f : A -> B) (i : nat) (l : list A) :
  map f (remove_nth i l) = remove_nth i (map f l).
Proof.
  unfold remove_nth. now rewrite map_app, firstn_map, skipn_map.
Qed.

Lemma map_insert_nth {A B : Type} (f : A -> B) (i : nat) (x : A)
      (l : list A) :
  map f (insert_nth i x l) = insert_nth i (f x) (map f l).
Proof.
  unfold insert_nth. rewrite map_app. simpl.
  now rewrite firstn_map, skipn_map.
Qed.

(** X5.  A rank typed into the input of a player of a numbered tier, when
    its clamped value [r] is not the rank the player has: the player is
    taken out of its place and put back so that it is shown rank [r] when
    it moves up and rank [r - 1] when it moves down; the other players of
    the tier keep their order, the other tiers only get their ranks
    written, and a save is asked for. *)
Theorem manual_rank_moves (d : page) (ti pi : nat) (parsed : option Z)
        (t : tier) (n : Z) (p : element) :
  nth_error d ti = Some t ->
  data_tier t = Numbered n ->
  nth_error (children t) pi = Some p ->
  let r := clamp_rank parsed (length (children t)) in
  Z.of_nat pi <> r - 1 ->
  let shown_rank := if r - 1 <? Z.of_nat pi then r else r - 1 in
  let result := handleRankInputChange ti pi parsed d in
  snd result = true /\
  order_at (fst result) ti
  = Some (insert_nth (Z.to_nat (shown_rank - 1)) (data_id p)
                     (remove_nth pi (tier_order t))) /\
  (exists t' p',
      nth_error (fst result) ti = Some t' /\
      nth_error (children t') (Z.to_nat (shown_rank - 1)) = Some p' /\
      data_id p' = data_id p /\ rank_input p' = Some shown_rank) /\
  (forall j, j <> ti ->
             nth_error (fst result) j = nth_error (updateRanks d) j).
Proof.
  intros Ht Hk Hp r Hne shown_rank result.
  pose proof (manual_rank_lands d ti pi parsed t n p Ht Hk Hp Hne) as Hl.
  cbv zeta in Hl. fold r shown_rank result in Hl.
  assert (Hpi : (pi < length (children t))%nat)
    by (apply nth_error_Some; congruence).
  pose proof (clamp_rank_bounds parsed (length (children t))) as Hr.
  fold r in Hr. specialize (Hr ltac:(lia)).
  pose proof (handleRankInputChange_moves d ti pi parsed t n p Ht Hk Hp Hne)
    as Hm.
  fold r result in Hm.
  set (k := if (Z.to_nat (r - 1) <? pi)%nat
            then Z.to_nat (r - 1) else pred (Z.to_nat (r - 1))) in Hm.
  assert (Hk' : Z.to_nat (shown_rank - 1) = k).
  { subst k shown_rank.
    destruct (Z.ltb_spec (r - 1) (Z.of_nat pi));
      destruct (Nat.ltb_spec (Z.to_nat (r - 1)) pi); lia. }
  rewrite Hk'. rewrite Hm. cbn [fst snd].
  split; [reflexivity|]. split; [|split].
  - rewrite order_at_updateRanks.
    rewrite (order_at_update _
               (fun o => insert_nth k (data_id p) (remove_nth pi o))).
    + unfold order_at. rewrite Ht. simpl. now rewrite Nat.eqb_refl.
    + intros t0. unfold tier_order, ids_of. simpl.
      now rewrite map_insert_nth, map_remove_nth.
  - rewrite Hm, Hk' in Hl. exact Hl.
  - intros j Hj. rewrite !updateRanks_nth, update_tier_nth.
    apply Nat.eqb_neq in Hj. now rewrite Hj.
Qed.

Lemma manual_rank_moves_witness :
  let result := handleRankInputChange 0 0 (Some 3) page_xyz in
  snd result = true /\
  order_at (fst result) 0 = Some ["Y"; "X"; "Z"]%string.
Proof.
  destruct (manual_rank_moves page_xyz 0 0 (Some 3) tier1_xyz 1
              (sample_element "X"))
    as (H1 & H2 & _); try reflexivity.
  - vm_compute. discriminate.
  - split; [exact H1|exact H2].
Defined.

(** X6.  Whatever is typed into whatever rank input, no player changes
    tier, no tier is added, removed or renamed, and only the tier of the
    input can change its order; when no save is asked for, no tier
    changed its order at all. *)
Theorem manual_rank_stays_in_tier (d : page) (ti pi : nat)
        (parsed : option Z) :
  let result := handleRankInputChange ti pi parsed d in
  skeleton (fst result) = skeleton d /\
  (forall j, j <> ti -> order_at (fst result) j = order_at d j) /\
  (forall o, order_at d ti = Some o ->
             exists o', order_at (fst result) ti = Some o' /\
                        Permutation o' o) /\
  (snd result = false -> map tier_order (fst result) = map tier_order d).
Proof.
  intros result. split; [apply skeleton_handleRankInputChange|].
  subst result. unfold handleRankInputChange.
  destruct (nth_error d ti) as [t|] eqn:Ht;
    [|repeat split; auto; intros o Ho; unfold order_at in Ho;
      rewrite Ht in Ho; discriminate].
  destruct (data_tier t) eqn:Hk; [repeat split; eauto|].
  destruct (nth_error (children t) pi) as [p|] eqn:Hp;
    [|repeat split; eauto].
  destruct (_ =? _); cbn [fst snd].
  - split; [|split].
    + intros j _. apply order_at_updateRanks.
    + intros o Ho. exists o. now rewrite order_at_updateRanks.
    + intros _. apply updateRanks_orders.
  - split; [|split]; [| |discriminate].
    + intros j Hj. rewrite order_at_updateRanks. unfold order_at.
      rewrite update_tier_nth. apply Nat.eqb_neq in Hj. now rewrite Hj.
    + intros o Ho. rewrite order_at_updateRanks. unfold order_at in *.
      rewrite update_tier_nth, Nat.eqb_refl, Ht in *. simpl in *.
      injection Ho as <-. eexists. split; [reflexivity|].
      unfold tier_order, ids_of. simpl. apply Permutation_map.
      apply insertBefore_perm.
Qed.

Lemma manual_rank_stays_in_tier_witness :
  order_at (fst (handleRankInputChange 0 2 (Some 1) page_xyz)) 1
  = order_at page_xyz 1 /\
  map tier_order (fst (handleRankInputChange 0 2 (Some 7) page_xyz))
  = map tier_order page_xyz.
Proof.
  split.
  - refine (proj1 (proj2 (manual_rank_stays_in_tier page_xyz 0 2 (Some 1)))
                  1%nat _).
    discriminate.
  - refine (proj2 (proj2 (proj2
              (manual_rank_stays_in_tier page_xyz 0 2 (Some 7)))) _).
    reflexivity.
Defined.

(** ** Two invariants of the page *)

Lemma skeleton_forall (Q : tier_key -> string -> Prop) (d : page) :
  (forall t, In t d -> Q (data_tier t) (list_id t)) <->
  (forall k i, In (k, i) (skeleton d) -> Q k i).
Proof.
  split.
  - intros H k i Hin. apply in_skeleton in Hin.
    destruct Hin as (t & Ht & <- & <-). auto.
  - intros H t Ht. apply H. apply in_skeleton. eauto.
Qed.

Lemma unranked_list_ok_skeleton (d : page) :
  unranked_list_ok d <->
  (forall k i, In (k, i) (skeleton d) ->
               i = "tier-unranked"%string -> k = Unranked).
Proof.
  apply (skeleton_forall
           (fun k i => i = "tier-unranked"%string -> k = Unranked)).
Qed.

Lemma named_by_script_skeleton (d : page) :
  named_by_script d <->
  (forall k i, In (k, i) (skeleton d) ->
               i = match k with
                   | Unranked => "tier-unranked"%string
                   | Numbered n => tier_list_id n
                   end).
Proof.
  apply (skeleton_forall
           (fun k i => i = match k with
                           | Unranked => "tier-unranked"%string
                           | Numbered n => tier_list_id n
                           end)).
Qed.

Lemma createTier_unranked_list_ok (n : Z) (d : page) :
  unranked_list_ok d -> unranked_list_ok (createTier n d).
Proof.
  rewrite !unranked_list_ok_skeleton. intros H k i Hin.
  destruct (skeleton_createTier n d) as (above & below & Hd & Hc).
  rewrite Hc in Hin. apply in_app_or in Hin.
  destruct Hin as [Hin|[E|Hin]].
  - apply H. rewrite Hd. apply in_or_app. now left.
  - injection E as <- <-. intros E. now apply tier_list_id_not_unranked in E.
  - apply H. rewrite Hd. apply in_or_app. now right.
Qed.

Lemma handle_unranked_list_ok (ev : event) (s : state) :
  unranked_list_ok (doc s) -> unranked_list_ok (doc (handle ev s)).
Proof.
  intros H. destruct ev;
    try (apply unranked_list_ok_skeleton;
         rewrite skeleton_handle by discriminate;
         now apply unranked_list_ok_skeleton).
  simpl. now apply createTier_unranked_list_ok.
Qed.

Lemma run_unranked_list_ok (evs : list event) :
  forall s, unranked_list_ok (doc s) -> unranked_list_ok (doc (run evs s)).
Proof.
  induction evs as [|ev evs IH]; intros s H; simpl; [assumption|].
  apply IH. now apply handle_unranked_list_ok.
Qed.

Lemma getElementById_unranked (d : page) (u : nat) :
  unranked_list_ok d ->
  getElementById "tier-unranked" d = Some u ->
  exists t, nth_error d u = Some t /\ data_tier t = Unranked.
Proof.
  intros Hok Hu. apply getElementById_some in Hu.
  destruct Hu as (t & Ht & Hi). exists t. split; [assumption|].
  apply Hok; [|assumption]. eapply nth_error_In. eassumption.
Qed.

(** *** Ranks *)

Lemma updateRanks_update_unranked (f : tier -> tier) (d : page) :
  forall u t,
    nth_error d u = Some t -> data_tier t = Unranked ->
    data_tier (f t) = Unranked ->
    updateRanks (update_tier u f d) = update_tier u f (updateRanks d).
Proof.
  induction d as [|t0 d IH]; intros [|u] t Ht Hk Hf; simpl in *;
    try discriminate.
  - injection Ht as ->. now rewrite Hf, Hk.
  - f_equal. eapply IH; eassumption.
Qed.

Lemma ranks_shown_appendChild (u : nat) (e : element) (d : page) (t : tier) :
  nth_error d u = Some t -> data_tier t = Unranked ->
  ranks_shown d -> ranks_shown (appendChild u e d).
Proof.
  intros Ht Hk H. unfold ranks_shown, appendChild in *.
  rewrite (updateRanks_update_unranked _ d u t Ht Hk) by assumption.
  now rewrite H.
Qed.

Lemma ranks_shown_fold_append (u : nat) (l : list player) :
  forall d t,
    nth_error d u = Some t -> data_tier t = Unranked ->
    ranks_shown d -> ranks_shown (fold_left (append_if_absent u) l d).
Proof.
  induction l as [|p l IH]; intros d t Ht Hk H; simpl; [assumption|].
  unfold append_if_absent at 2.
  destruct (querySelector_player (id p) d); [eapply IH; eassumption|].
  pose proof (ranks_shown_appendChild u (createPlayerElement (id p) p) d t
                Ht Hk H) as H'.
  unfold appendChild in *.
  rewrite (proj2 (update_tier_split _ d u t Ht)) in *.
  eapply (IH _ (set_children t (children t ++ [createPlayerElement (id p) p])));
    [|exact Hk|exact H'].
  rewrite nth_error_app2 by (rewrite length_firstn; lia).
  rewrite length_firstn.
  assert (u < length d)%nat by (apply nth_error_Some; congruence).
  now replace (u - Nat.min u (length d))%nat with O by lia.
Qed.

Lemma ranks_shown_renderMorePlayers (limit : Z) (s : state) :
  unranked_list_ok (doc s) -> ranks_shown (doc s) ->
  ranks_shown (doc (renderMorePlayers limit s)).
Proof.
  intros Hok H. unfold renderMorePlayers.
  destruct (getElementById "tier-unranked" (doc s)) as [u|] eqn:E;
    [|assumption].
  destruct (getElementById_unranked _ _ Hok E) as (t & Ht & Hk).
  simpl. eapply ranks_shown_fold_append; eassumption.
Qed.

Lemma mapi_from_commute {A : Type} (f : nat -> A -> A) (g : A -> A)
      (l : list A) :
  (forall i x, f i (g x) = g (f i x)) ->
  forall k, mapi_from f k (map g l) = map g (mapi_from f k l).
Proof.
  intros H. induction l as [|x l IH]; intros k; simpl; [reflexivity|].
  now rewrite H, IH.
Qed.

Lemma updateRanks_applyFilters (s : state) :
  updateRanks (doc (applyFilters s))
  = doc (applyFilters (with_doc (updateRanks (doc s)) s)).
Proof.
  unfold applyFilters, updateRanks. simpl. rewrite !map_map.
  apply map_ext. intros t. destruct (data_tier t) eqn:E; simpl; rewrite E;
    [reflexivity|].
  unfold set_children. simpl. f_equal.
  unfold number_players, mapi. apply mapi_from_commute.
  reflexivity.
Qed.

Lemma ranks_shown_applyFilters (s : state) :
  ranks_shown (doc s) -> ranks_shown (doc (applyFilters s)).
Proof.
  unfold ranks_shown. intros H. rewrite updateRanks_applyFilters, H.
  now rewrite with_doc_doc.
Qed.

Lemma updateRanks_createTier (n : Z) (d : page) :
  updateRanks (createTier n d) = createTier n (updateRanks d).
Proof.
  unfold createTier.
  induction d as [|t d IH]; [reflexivity|].
  set (ur := fun t : tier =>
               match data_tier t with
               | Unranked => t
               | Numbered _ => set_children t (number_players (children t))
               end).
  change (updateRanks (t :: d)) with (ur t :: updateRanks d).
  cbn [insert_before_unranked].
  assert (Hu : is_unranked (ur t) = is_unranked t).
  { unfold is_unranked, ur. destruct (data_tier t) eqn:E; simpl;
      rewrite ?E; reflexivity. }
  rewrite Hu. destruct (is_unranked t); [reflexivity|].
  rewrite <- IH. reflexivity.
Qed.

Lemma handle_ranks_shown (ev : event) (s : state) :
  unranked_list_ok (doc s) -> ranks_shown (doc s) ->
  ranks_shown (doc (handle ev s)).
Proof.
  intros Hok H. destruct ev; simpl.
  - unfold ranks_shown in *. now rewrite updateRanks_createTier, H.
  - unfold saveRankings. now destruct stored.
  - unfold saveTimeout_fires, saveRankings.
    now destruct (saveTimeout s), stored.
  - apply updateRanks_idem.
  - unfold rank_input_change, handleRankInputChange.
    destruct (nth_error (doc s) ti) as [t|]; [|assumption].
    destruct (data_tier t); [assumption|].
    destruct (nth_error (children t) pi); [|assumption].
    destruct (_ =? _); simpl; apply updateRanks_idem.
  - now apply (ranks_shown_applyFilters (with_filterInput text s)).
  - now apply (ranks_shown_applyFilters (with_activePosFilter _ s)).
  - now apply ranks_shown_renderMorePlayers.
  - now apply ranks_shown_renderMorePlayers.
  - now apply (ranks_shown_renderMorePlayers DISPLAY_CHUNK
                 (with_cursor (allPlayers s) 0 s)).
Qed.

Lemma populateUnranked_ranks_shown (P : platform) (response : option mapping)
      (s0 s1 : state) :
  populateUnranked P response s0 = Returns s1 -> ranks_shown (doc s1).
Proof.
  unfold populateUnranked. intros H.
  match type of H with
  | match ?r with _ => _ end = _ =>
      destruct r as [s2|]; [|discriminate]
  end.
  destruct (loadRankings P s2) as [s3|]; [|discriminate].
  injection H as <-. simpl. apply updateRanks_idem.
Qed.

Lemma ranks_shown_numbered (d : page) (t : tier) :
  ranks_shown d -> In t d -> data_tier t <> Unranked ->
  map rank_input (children t)
  = map (fun i => Some (Z.of_nat i + 1)) (seq 0 (length (children t))).
Proof.
  unfold ranks_shown. intros H Ht Hk.
  apply In_nth_error in Ht. destruct Ht as (j & Hj).
  pose proof (updateRanks_nth d j) as Hn. rewrite H, Hj in Hn. simpl in Hn.
  destruct (data_tier t) eqn:E; [congruence|].
  injection Hn as Hn.
  assert (Hc : children t = number_players (children t))
    by (rewrite Hn at 1; reflexivity).
  rewrite Hc at 1. apply number_players_ranks.
Qed.

(** X7.  Once the page has started, the rank inputs are up to date after
    every event, also after those that call no [updateRanks] (a new
    tier, a filter, a further chunk of players): writing the ranks again
    would change nothing, and every numbered tier shows 1, 2, 3, ...
    down its list.  The list with the id [tier-unranked] has to be that
    of the unranked tier, and each rank update that is asked for has to
    be carried out before the next event. *)
Theorem ranks_stay_current (P : platform) (response : option mapping)
        (s0 s1 : state) (evs : list event) :
  unranked_list_ok (doc s0) ->
  populateUnranked P response s0 = Returns s1 ->
  let d := doc (run evs s1) in
  updateRanks d = d /\
  forall t, In t d -> data_tier t <> Unranked ->
            map rank_input (children t)
            = map (fun i => Some (Z.of_nat i + 1))
                  (seq 0 (length (children t))).
Proof.
  intros Hok Hp d.
  assert (Hok1 : unranked_list_ok (doc s1)).
  { apply unranked_list_ok_skeleton.
    pose proof (skeleton_populateUnranked P response s0) as E.
    rewrite Hp in E. simpl in E. rewrite E.
    now apply unranked_list_ok_skeleton. }
  assert (H1 : ranks_shown (doc s1))
    by (eapply populateUnranked_ranks_shown; eassumption).
  assert (H : ranks_shown d).
  { subst d. clear Hp Hok. revert s1 Hok1 H1.
    induction evs as [|ev evs IH]; intros s Hok H; simpl; [assumption|].
    apply IH; [now apply handle_unranked_list_ok|
               now apply handle_ranks_shown]. }
  split; [exact H|]. intros t. now apply ranks_shown_numbered.
Qed.

Lemma ranks_stay_current_witness :
  let d := doc (run [AddTierClick; DragEnd (2, 1) 1 0; Scroll;
                     FilterInput "ba"]%nat started_state) in
  updateRanks d = d.
Proof.
  refine (proj1 (ranks_stay_current sample_platform (Some sample_mapping)
                   fresh_state started_state _ _ _)).
  - intros t Ht Hi. simpl in Ht.
    destruct Ht as [<-|[<-|[]]]; [discriminate|reflexivity].
  - reflexivity.
Defined.

(** *** Names of the lists *)

Lemma createTier_named (d : page) :
  named_by_script d -> NoDup (map list_id d) ->
  let d' := createTier (newTierNumber d) d in
  named_by_script d' /\ NoDup (map list_id d').
Proof.
  intros Hn Hd d'.
  destruct (skeleton_createTier (newTierNumber d) d)
    as (above & below & Hs & Hc). fold d' in Hc.
  rewrite named_by_script_skeleton in Hn.
  split.
  - apply named_by_script_skeleton. intros k i Hin.
    rewrite Hc in Hin. apply in_app_or in Hin.
    destruct Hin as [Hin|[E|Hin]].
    + apply Hn. rewrite Hs. apply in_or_app. now left.
    + now injection E as <- <-.
    + apply Hn. rewrite Hs. apply in_or_app. now right.
  - assert (Hfresh : ~ In (tier_list_id (newTierNumber d))
                          (map snd (skeleton d))).
    { intros Hin.
      apply in_map_iff in Hin. destruct Hin as ([k i] & Ei & Hin).
      simpl in Ei. subst i.
      pose proof (Hn _ _ Hin) as E.
      destruct k as [|m].
      * now apply tier_list_id_not_unranked in E.
      * apply tier_list_id_inj in E.
        assert (m < newTierNumber d); [|lia].
        apply newTierNumber_greater. apply existingTiers_skeleton. eauto. }
    rewrite <- skeleton_list_id in Hd. rewrite <- skeleton_list_id.
    rewrite Hc. rewrite Hs in Hd, Hfresh.
    rewrite map_app in *. simpl.
    apply NoDup_Add with (a := tier_list_id (newTierNumber d))
                         (l := (map snd above ++ map snd below)%list).
    + apply Add_app.
    + split; assumption.
Qed.

Lemma add_tier_clicks_nonneg (evs : list event) : 0 <= add_tier_clicks evs.
Proof. unfold add_tier_clicks. lia. Qed.

Lemma add_tier_clicks_click (evs : list event) :
  add_tier_clicks (AddTierClick :: evs) = add_tier_clicks evs + 1.
Proof.
  unfold add_tier_clicks. cbn [filter is_add_tier length]. lia.
Qed.

Lemma handle_exact_tiers (ev : event) (evs : list event) (s : state) :
  exact_tiers (add_tier_clicks (ev :: evs)) (doc s) ->
  exact_tiers (add_tier_clicks evs) (doc (handle ev s)).
Proof.
  intros H. destruct ev;
    try (apply (exact_tiers_skeleton _ (doc s));
         [apply skeleton_handle; discriminate|exact H]).
  rewrite add_tier_clicks_click in H.
  apply (exact_tiers_createTier _ (doc s));
    [apply add_tier_clicks_nonneg|exact H].
Qed.

(** X8.  When every list of the page has the id that the script gives to
    a list of its tier ([tier-unranked], or [tier-] and the number of the
    tier), and no two lists share an id, this stays so whatever the user
    does: in particular a new tier never takes an id that is in use.
    The numbers of the tiers, and those that the add-tier clicks of the
    run give, are integers that the doubles of the script hold exactly;
    they still are at the end. *)
Theorem list_ids_stay_distinct (s : state) (evs : list event) :
  named_by_script (doc s) -> NoDup (map list_id (doc s)) ->
  exact_tiers (add_tier_clicks evs) (doc s) ->
  named_by_script (doc (run evs s)) /\
  NoDup (map list_id (doc (run evs s))) /\
  exact_tiers 0 (doc (run evs s)).
Proof.
  revert s. induction evs as [|ev evs IH]; intros s Hn Hd Hx; simpl; [auto|].
  apply IH.
  - destruct ev;
      try (apply named_by_script_skeleton;
           rewrite skeleton_handle by discriminate;
           now apply named_by_script_skeleton).
    simpl. now apply createTier_named.
  - destruct ev;
      try (rewrite <- skeleton_list_id, skeleton_handle by discriminate;
           now rewrite skeleton_list_id).
    simpl. now apply createTier_named.
  - now apply handle_exact_tiers.
Qed.

Lemma list_ids_stay_distinct_witness :
  NoDup (map list_id
             (doc (run [AddTierClick; AddTierClick; DragEnd (3, 0) 1 0]%nat
                       started_state))).
Proof.
  refine (proj1 (proj2 (list_ids_stay_distinct started_state _ _ _ _))).
  - intros t Ht. simpl in Ht.
    destruct Ht as [<-|[<-|[]]]; reflexivity.
  - vm_compute. repeat constructor; simpl; intuition discriminate.
  - repeat constructor; vm_compute; discriminate.
Defined.

(** ** Loading *)

Lemma all_players_update (f : tier -> tier) (d : page) (ti : nat) (t : tier) :
  nth_error d ti = Some t ->
  exists before after,
    all_players d = before ++ children t ++ after /\
    all_players (update_tier ti f d) = before ++ children (f t) ++ after.
Proof.
  intros Ht. destruct (update_tier_split f d ti t Ht) as [Hd Hu].
  exists (all_players (firstn ti d)), (all_players (skipn (S ti) d)).
  rewrite Hu. rewrite Hd at 1. unfold all_players.
  rewrite !flat_map_app. simpl. auto.
Qed.

Lemma detach_elements (loc : nat * nat) (d : page) (e : element) :
  element_at loc d = Some e ->
  Permutation (e :: all_players (detach loc d)) (all_players d).
Proof.
  intros He. destruct (element_at_tier loc d e He) as (t & Ht & Hp).
  destruct (all_players_update
              (fun t => set_children t (remove_nth (snd loc) (children t)))
              d (fst loc) t Ht) as (before & after & Hd & Hu).
  unfold detach. rewrite Hu, Hd. simpl.
  rewrite (remove_nth_perm (children t) (snd loc) e Hp) at 2.
  simpl. now rewrite <- Permutation_middle.
Qed.

Lemma appendChild_elements (ti : nat) (e : element) (d : page) (t : tier) :
  nth_error d ti = Some t ->
  Permutation (all_players (appendChild ti e d)) (e :: all_players d).
Proof.
  intros Ht.
  destruct (all_players_update
              (fun t => set_children t (children t ++ [e])) d ti t Ht)
    as (before & after & Hd & Hu).
  unfold appendChild. rewrite Hu, Hd. simpl.
  rewrite <- app_assoc. simpl.
  rewrite (app_assoc before), <- Permutation_middle.
  now rewrite <- app_assoc.
Qed.

Lemma skeleton_length (d d' : page) :
  skeleton d' = skeleton d -> length d' = length d.
Proof.
  intros H. apply (f_equal (@length _)) in H. unfold skeleton in H.
  now rewrite !length_map in H.
Qed.

Lemma move_to_end_elements (ti : nat) (loc : nat * nat) (d : page) :
  (ti < length d)%nat ->
  Permutation (all_players (move_to_end ti loc d)) (all_players d).
Proof.
  intros Hti. unfold move_to_end.
  destruct (element_at loc d) as [e|] eqn:He; [|reflexivity].
  assert (Hl : (ti < length (detach loc d))%nat)
    by (rewrite (skeleton_length d (detach loc d) (skeleton_detach loc d));
        assumption).
  apply nth_error_Some in Hl.
  destruct (nth_error (detach loc d) ti) as [t|] eqn:Ht; [|congruence].
  rewrite (appendChild_elements ti e _ t Ht).
  now apply detach_elements.
Qed.

Lemma place_player_moves (P : platform) (ti : nat) (s : state) (i : json) :
  (ti < length (doc s))%nat ->
  let s' := place_player P ti s i in
  Permutation (all_players (doc s')) (all_players (doc s)) /\
  globals s' = globals s.
Proof.
  intros Hti. unfold place_player.
  destruct (querySelector_player _ (doc s)); simpl.
  - split; [now apply move_to_end_elements|reflexivity].
  - split; reflexivity.
Qed.

Lemma fold_place_player_moves (P : platform) (ti : nat) (ids : list json) :
  forall s,
    (ti < length (doc s))%nat ->
    let s' := fold_left (place_player P ti) ids s in
    Permutation (all_players (doc s')) (all_players (doc s)) /\
    globals s' = globals s.
Proof.
  induction ids as [|i ids IH]; intros s Hti; simpl; [auto|].
  destruct (place_player_moves P ti s i Hti) as [Hp Hg].
  destruct (IH (place_player P ti s i)) as [Hp' Hg'].
  - now rewrite (skeleton_length _ _ (skeleton_place_player P ti s i)).
  - split; [now rewrite Hp'|congruence].
Qed.

Lemma getElementById_range (k : string) (d : page) (ti : nat) :
  getElementById k d = Some ti -> (ti < length d)%nat.
Proof.
  intros H. apply getElementById_some in H. destruct H as (t & Ht & _).
  apply nth_error_Some. congruence.
Qed.

Lemma load_entries_moves (P : platform) (entries : list (string * json)) :
  forall s,
    let s' := state_of (load_entries P entries s) in
    Permutation (all_players (doc s')) (all_players (doc s)) /\
    globals s' = globals s.
Proof.
  induction entries as [|[k v] entries IH]; intros s; simpl; [auto|].
  destruct (getElementById k (doc s)) as [ti|] eqn:E; [|apply IH].
  destruct v; simpl; auto.
  destruct (fold_place_player_moves P ti items s
              (getElementById_range _ _ _ E)) as [Hp Hg].
  destruct (IH (fold_left (place_player P ti) items s)) as [Hp' Hg'].
  split; [now rewrite Hp'|congruence].
Qed.

Lemma loadRankings_cursor (P : platform) (s : state) :
  currentDisplayArray (state_of (loadRankings P s)) = currentDisplayArray s /\
  displayedCount (state_of (loadRankings P s)) = displayedCount s.
Proof.
  assert (H : globals (state_of (loadRankings P s)) = globals s).
  { unfold loadRankings. destruct (JSON_parse (stored_text s)); simpl; auto.
    apply load_entries_moves. }
  unfold globals in H. injection H as _ H2 H3 _ _ _ _. split; assumption.
Qed.

(** X9.  When the stored keys name lists only, not another element of
    the page, and the ids stored under them can be written into the
    selector, [loadRankings] only moves player elements from list to
    list, whether it returns or throws (on text that is not JSON, or on
    a stored value that is not an array): the page holds the same
    elements as before, none made, lost or changed (their rank inputs
    and what is shown included), the tiers and their lists are the same,
    and the globals and the stored item are as they were. *)
Theorem loadRankings_only_moves (P : platform) (s : state) :
  storage_fits P s = true ->
  let s' := state_of (loadRankings P s) in
  Permutation (all_players (doc s')) (all_players (doc s)) /\
  skeleton (doc s') = skeleton (doc s) /\
  globals s' = globals s.
Proof.
  intros _ s'. split; [|split; [apply skeleton_loadRankings|]];
    subst s'; unfold loadRankings;
    destruct (JSON_parse (stored_text s)); simpl; auto;
    apply load_entries_moves.
Qed.

Lemma loadRankings_only_moves_witness :
  let s := with_rankings (rankings saved_state) started_state in
  skeleton (doc (state_of (loadRankings sample_platform s)))
  = skeleton (doc s).
Proof.
  intros s.
  refine (proj1 (proj2 (loadRankings_only_moves sample_platform s _))).
  vm_compute. reflexivity.
Defined.

(** *** The warnings *)

Lemma place_player_console (P : platform) (ti : nat) (s : state) (i : json) :
  console (place_player P ti s i)
  = console s ++
    map missing_warning
        (filter (fun x => negb (mem (page_ids (doc s)) x))
                [template_text P i]).
Proof.
  unfold place_player. simpl. rewrite querySelector_player_mem.
  destruct (querySelector_player _ (doc s)); simpl;
    [now rewrite app_nil_r|reflexivity].
Qed.

Lemma page_ids_elements (d d' : page) :
  Permutation (all_players d') (all_players d) ->
  Permutation (page_ids d') (page_ids d).
Proof. intros H. unfold page_ids, ids_of. now apply Permutation_map. Qed.

Lemma filter_mem_perm (l l' xs : list string) :
  Permutation l' l ->
  filter (fun x => negb (mem l' x)) xs = filter (fun x => negb (mem l x)) xs.
Proof.
  intros H. apply filter_ext. intros x. now rewrite (mem_perm l' l x H).
Qed.

Lemma fold_place_player_console (P : platform) (ti : nat) (ids : list json) :
  forall s,
    (ti < length (doc s))%nat ->
    console (fold_left (place_player P ti) ids s)
    = console s ++
      map missing_warning
          (filter (fun x => negb (mem (page_ids (doc s)) x))
                  (map (template_text P) ids)).
Proof.
  induction ids as [|i ids IH]; intros s Hti; simpl fold_left.
  - simpl. now rewrite app_nil_r.
  - rewrite IH
      by now rewrite (skeleton_length _ _ (skeleton_place_player P ti s i)).
    rewrite place_player_console, <- app_assoc. f_equal.
    rewrite <- map_app. f_equal.
    change (map (template_text P) (i :: ids))
      with ([template_text P i] ++ map (template_text P) ids).
    rewrite filter_app. f_equal.
    apply filter_mem_perm. apply page_ids_elements.
    now apply place_player_moves.
Qed.

Lemma looked_up_ext (P : platform) (d d' : page)
      (entries : list (string * json)) :
  skeleton d' = skeleton d -> looked_up P d' entries = looked_up P d entries.
Proof.
  intros H. unfold looked_up. apply flat_map_ext. intros e.
  rewrite (getElementById_ext (fst e) d' d); [reflexivity|].
  now rewrite <- !skeleton_list_id, H.
Qed.

Lemma load_entries_console (P : platform) (entries : list (string * json)) :
  forall s s',
    load_entries P entries s = Returns s' ->
    console s'
    = console s ++
      map missing_warning
          (filter (fun x => negb (mem (page_ids (doc s)) x))
                  (looked_up P (doc s) entries)).
Proof.
  induction entries as [|[k v] entries IH]; intros s s' H; simpl in *.
  - injection H as <-. now rewrite app_nil_r.
  - destruct (getElementById k (doc s)) as [ti|] eqn:E; [|now apply IH].
    destruct v; try discriminate.
    pose proof (getElementById_range _ _ _ E) as Hti.
    rewrite (IH _ _ H), fold_place_player_console by assumption.
    rewrite <- app_assoc. f_equal. rewrite <- map_app. f_equal.
    rewrite filter_app. f_equal.
    rewrite (looked_up_ext P (doc s)
               (doc (fold_left (place_player P ti) items s)))
      by apply skeleton_fold_place.
    apply filter_mem_perm. apply page_ids_elements.
    now apply fold_place_player_moves.
Qed.

(** X10.  When [loadRankings] returns, the stored keys naming lists only
    and the stored ids being such as can be written into the selector,
    it has written one warning for every id that the stored object lists
    under the id of a list of the page without a player of that id being
    on the page, in the order of the stored object, and nothing else;
    ids listed under a key that names no list are passed over in
    silence. *)
Theorem loadRankings_warnings (P : platform) (s s' : state) (saved : json) :
  JSON_parse (stored_text s) = Some saved ->
  storage_fits P s = true ->
  loadRankings P s = Returns s' ->
  console s'
  = console s ++
    map missing_warning
        (filter (fun i => negb (mem (page_ids (doc s)) i))
                (looked_up P (doc s) (saved_entries saved))).
Proof.
  intros Hp _ H. unfold loadRankings in H. rewrite Hp in H.
  now apply load_entries_console.
Qed.

Lemma loadRankings_warnings_witness :
  let text :=
    JSON_stringify [("tier-1", ["2"; "9"]); ("tier-7", ["8"])]%string in
  console (state_of (loadRankings sample_platform
                       (with_rankings (Some text) started_state)))
  = console started_state
    ++ ["Player 9 missing from Sleeper data, skipping."%string].
Proof.
  intros text.
  refine (loadRankings_warnings sample_platform
            (with_rankings (Some text) started_state) _
            (JObject [("tier-1", JArray [JString "2"; JString "9"]);
                      ("tier-7", JArray [JString "8"])]%string) _ _ _);
    vm_compute; reflexivity.
Defined.

(** *** What was saved can be loaded *)

Lemma load_entries_arrays (P : platform)
      (saved : list (string * list string)) :
  forall s, exists s', load_entries P (map parsed_member saved) s = Returns s'.
Proof.
  induction saved as [|[k ids] saved IH]; intros s; simpl; [eauto|].
  destruct (getElementById k (doc s)); apply IH.
Qed.

Lemma parsed_saved_text (tiers : list (string * list string)) :
  JSON_parse (JSON_stringify tiers)
  = Some (JObject
            (map parsed_member
                 (fold_left (fun o kv => obj_set (fst kv) (snd kv) o)
                            tiers []))).
Proof.
  rewrite JSON_parse_stringify. do 2 f_equal.
  apply (fold_obj_set_map (fun ids => JArray (map JString ids)) tiers []).
Qed.

Lemma stored_text_saved (s s' : state) :
  rankings s' = rankings (saveRankings true s) ->
  stored_text s' = JSON_stringify (tiers_of (doc s)).
Proof.
  intros H. unfold stored_text. rewrite H. reflexivity.
Qed.

(** *** What the script stores fits *)

Lemma obj_set_in {V : Type} (k : string) (v : V) (o : list (string * V))
      (e : string * V) :
  In e (obj_set k v o) -> e = (k, v) \/ In e o.
Proof.
  unfold obj_set. destruct (has_key k o).
  - intros H. apply in_map_iff in H. destruct H as (kv & E & Hin).
    destruct (String.eqb (fst kv) k); [now left|right; now subst].
  - destruct (array_index k) as [n|].
    + intros H. apply (Permutation_in _ (insert_index_perm n k v o)) in H.
      destruct H as [<-|H]; auto.
    + intros H. apply in_app_or in H. destruct H as [H|[<-|[]]]; auto.
Qed.

Lemma fold_obj_set_in {V : Type} (l : list (string * V)) :
  forall acc e,
    In e (fold_left (fun o kv => obj_set (fst kv) (snd kv) o) l acc) ->
    In e l \/ In e acc.
Proof.
  induction l as [|[k v] l IH]; intros acc e H; simpl in *; [auto|].
  apply IH in H. destruct H as [H|H]; [auto|].
  apply obj_set_in in H. destruct H as [->|H]; auto.
Qed.

Lemma tiers_of_in (d : page) (e : string * list string) :
  In e (tiers_of d) -> exists t, In t d /\ e = saved_tier t.
Proof.
  unfold tiers_of.
  assert (H : forall acc,
             In e (fold_left
                     (fun tiers list =>
                        if String.eqb (list_id list) "__proto__" then tiers
                        else obj_set (list_id list) (tier_order list) tiers)
                     d acc) ->
             (exists t, In t d /\ e = saved_tier t) \/ In e acc).
  { induction d as [|t d IH]; intros acc H; simpl in *; [auto|].
    apply IH in H. destruct H as [(t' & Ht' & E)|H]; [left; eauto|].
    destruct (String.eqb (list_id t) "__proto__"); [auto|].
    apply obj_set_in in H. destruct H as [->|H]; [left|auto].
    exists t. auto. }
  intros Hin. destruct (H [] Hin) as [Ht|[]]. exact Ht.
Qed.

(** The item that [saveRankings] writes for a page whose list ids name
    lists only and whose player ids can be written into the selector is
    one that [storage_fits], on whatever page it is loaded. *)
Lemma saved_storage_fits (P : platform) (s s' : state) :
  Forall (fun t => names_list_only P (list_id t) = true) (doc s) ->
  Forall (fun i => plain_id i = true) (page_ids (doc s)) ->
  rankings s' = rankings (saveRankings true s) ->
  storage_fits P s' = true.
Proof.
  intros Hk Hi Hr. unfold storage_fits.
  rewrite (stored_text_saved s s' Hr), parsed_saved_text.
  cbn [saved_entries]. apply forallb_forall. intros e He.
  apply in_map_iff in He. destruct He as ([k ids] & <- & He).
  apply fold_obj_set_in in He. destruct He as [He|[]].
  apply tiers_of_in in He. destruct He as (t & Ht & E).
  injection E as -> ->.
  rewrite Forall_forall in Hk, Hi.
  unfold entry_fits, parsed_member. cbn [fst snd].
  rewrite (Hk t Ht). cbn [andb].
  destruct (getElementById (list_id t) (doc s')); [|reflexivity].
  apply forallb_forall. intros v Hv. apply in_map_iff in Hv.
  destruct Hv as (i & <- & Hin). unfold selector_safe. cbn.
  apply Hi. unfold page_ids, ids_of, all_players.
  unfold tier_order, ids_of in Hin. apply in_map_iff in Hin.
  destruct Hin as (el & <- & Hel). apply in_map.
  apply in_flat_map. eauto.
Qed.

(** X11.  What [saveRankings] has stored can always be loaded, when the
    ids of the players it saved can be written into the selector:
    whatever page was saved (also one with two lists of one id or one
    player twice) and whatever page it is loaded into, [JSON.parse]
    accepts the text and [loadRankings] returns without throwing. *)
Theorem saved_text_loads (P : platform) (s s' : state) :
  Forall (fun i => plain_id i = true) (page_ids (doc s)) ->
  rankings s' = rankings (saveRankings true s) ->
  JSON_parse (stored_text s') <> None /\
  exists s'', loadRankings P s' = Returns s''.
Proof.
  intros _ H. unfold loadRankings.
  rewrite (stored_text_saved s s' H), parsed_saved_text.
  split; [discriminate|]. apply load_entries_arrays.
Qed.

Lemma saved_text_loads_witness :
  exists s'',
    loadRankings sample_platform
                 (with_rankings (rankings saved_state) fresh_state)
    = Returns s''.
Proof.
  refine (proj2 (saved_text_loads sample_platform saved_state
                   (with_rankings (rankings saved_state) fresh_state) _ _)).
  - vm_compute. repeat constructor.
  - vm_compute. reflexivity.
Defined.

(** ** Rendering the pool *)




(** ** The start of the page *)

(** A start with nothing in storage. *)
Lemma populateUnranked_nothing_stored (P : platform)
      (response : option mapping) (s0 : state) (u : nat) :
  getElementById "tier-unranked" (doc s0) = Some u ->
  rankings s0 = None ->
  let pool := pool_of P (fetchPlayers response) in
  exists s',
    populateUnranked P response s0 = Returns s' /\
    allPlayers s' = pool /\
    order_at (doc s') u
    = option_map
        (fun o => o ++ map id (fresh_players (page_ids (doc s0)) pool))
        (order_at (doc s0) u) /\
    (forall j, j <> u ->
               nth_error (doc s') j = nth_error (updateRanks (doc s0)) j) /\
    console s'
    = console s0
      ++ match response with
         | Some _ => []
         | None => ["Error fetching players:"%string]
         end
      ++ [("Loaded " ++ string_of_nat (length pool)
           ++ " players (positions filtered).")%string] /\
    rankings s' = None /\
    (page_ids (doc s0) = [] -> NoDup (map id pool) ->
     order_at (doc s') u = Some (map id pool)).
Proof.
  intros Hu Hr pool.
  destruct (getElementById_some _ _ _ Hu) as (t & Ht & _).
  unfold populateUnranked. fold pool.
  set (s1 := with_allPlayers pool _).
  assert (Hd1 : doc s1 = doc s0) by (subst s1; now destruct response).
  assert (Hr1 : rankings s1 = None) by (subst s1; now destruct response).
  assert (Ha1 : allPlayers s1 = pool) by reflexivity.
  assert (Hc1 : console s1
                = console s0 ++ match response with
                                | Some _ => []
                                | None => ["Error fetching players:"%string]
                                end).
  { subst s1. destruct response; simpl; [now rewrite app_nil_r|reflexivity]. }
  clearbody s1. rewrite Hd1, Hu, Ha1.
  set (s2 := with_doc _ s1).
  rewrite (loadRankings_nothing_stored P s2) by (left; exact Hr1).
  eexists. split; [reflexivity|].
  destruct (fold_append_if_absent_children u pool (doc s0) t Ht)
    as [Hu' Ho'].
  cbn [console_write with_console with_doc doc allPlayers console rankings].
  subst s2. cbn [with_doc doc allPlayers console rankings].
  rewrite Ha1, Hr1, Hc1, <- app_assoc.
  assert (Ho : order_at (updateRanks
                           (fold_left (append_if_absent u) pool (doc s0))) u
               = Some (tier_order t
                       ++ map id (fresh_players (page_ids (doc s0)) pool))).
  { rewrite order_at_updateRanks, (order_at_nth _ _ _ Hu').
    rewrite tier_order_set_children. unfold ids_of. rewrite map_app.
    fold (ids_of (elements_for (fresh_players (page_ids (doc s0)) pool))).
    now rewrite ids_of_elements_for. }
  repeat split.
  - rewrite Ho, (order_at_nth _ _ _ Ht). reflexivity.
  - intros j Hj. rewrite !updateRanks_nth. now rewrite Ho'.
  - intros Hp Hn. rewrite Ho, Hp, (tier_order_nil _ _ _ Hp Ht).
    simpl. f_equal. f_equal. apply fresh_players_all; [assumption|].
    intros p _ [].
Qed.

(** X13.  A start with nothing in storage, on a page that has the
    unranked list, the ids of the pool being such as can be written into
    the selector: [populateUnranked] returns; the pool is in
    [allPlayers]; the unranked list has got, behind what it held, the
    players of the pool whose id was not on the page, in the order of
    the pool and once per id; the other lists hold what they held, with
    the ranks written; and the console has the count of the pool, after
    the error message when the request failed (the pool is empty then).
    On a page without players and for a pool without an id twice, the
    unranked list is the pool in its order. *)
Theorem first_visit (P : platform) (response : option mapping)
        (s0 : state) (u : nat) :
  getElementById "tier-unranked" (doc s0) = Some u ->
  rankings s0 = None ->
  plain_ids (pool_of P (fetchPlayers response)) ->
  let pool := pool_of P (fetchPlayers response) in
  exists s',
    populateUnranked P response s0 = Returns s' /\
    allPlayers s' = pool /\
    order_at (doc s') u
    = option_map
        (fun o => o ++ map id (fresh_players (page_ids (doc s0)) pool))
        (order_at (doc s0) u) /\
    (forall j, j <> u ->
               nth_error (doc s') j = nth_error (updateRanks (doc s0)) j) /\
    console s'
    = console s0
      ++ match response with
         | Some _ => []
         | None => ["Error fetching players:"%string]
         end
      ++ [("Loaded " ++ string_of_nat (length pool)
           ++ " players (positions filtered).")%string] /\
    rankings s' = None /\
    (page_ids (doc s0) = [] -> NoDup (map id pool) ->
     order_at (doc s') u = Some (map id pool)).
Proof. intros Hu Hr _. now apply populateUnranked_nothing_stored. Qed.

Lemma first_visit_witness :
  exists s',
    populateUnranked sample_platform (Some sample_mapping) fresh_state
    = Returns s' /\
    order_at (doc s') 1 = Some ["1"; "2"; "3"]%string.
Proof.
  assert (Hplain : plain_ids (pool_of sample_platform
                                      (fetchPlayers (Some sample_mapping))))
    by (vm_compute; repeat constructor).
  destruct (first_visit sample_platform (Some sample_mapping) fresh_state
              1 eq_refl eq_refl Hplain)
    as (s' & H & _ & _ & _ & _ & _ & Ho).
  exists s'. split; [exact H|]. apply Ho; [reflexivity|].
  vm_compute. repeat constructor; simpl; intuition discriminate.
Defined.

Lemma forallb_on_page (d : page) (pool : list player) :
  forallb (fun p => match querySelector_player (id p) d with
                    | Some _ => true
                    | None => false
                    end) pool = true
  <-> forall p, In p pool -> In (id p) (page_ids d).
Proof.
  rewrite forallb_forall. split; intros H p Hp; specialize (H p Hp).
  - rewrite <- querySelector_player_mem in H. now apply mem_spec.
  - rewrite <- querySelector_player_mem. now apply mem_spec.
Qed.

(** X14.  A start on a page that has no unranked list, the ids of the
    pool being such as can be written into the selector.  When some
    player of the pool is not on the page, [populateUnranked] throws a
    [TypeError] at the first [appendChild]: nothing is rendered, the
    stored ranking is not loaded, no rank is written and the count is
    not logged.  When every player of the pool is on the page, so also
    when the request failed and the pool is empty, nothing is appended
    and it goes on to load the ranking; with nothing stored it returns,
    and the page has only got its ranks written. *)
Theorem start_without_unranked_list (P : platform)
        (response : option mapping) (s0 : state) :
  getElementById "tier-unranked" (doc s0) = None ->
  plain_ids (pool_of P (fetchPlayers response)) ->
  let pool := pool_of P (fetchPlayers response) in
  let started :=
    with_allPlayers pool
      match response with
      | Some _ => s0
      | None => console_write "Error fetching players:" s0
      end in
  ((exists p, In p pool /\ ~ In (id p) (page_ids (doc s0))) ->
   populateUnranked P response s0 = Throws TypeError started) /\
  ((forall p, In p pool -> In (id p) (page_ids (doc s0))) ->
   rankings s0 = None ->
   exists s',
     populateUnranked P response s0 = Returns s' /\
     doc s' = updateRanks (doc s0)).
Proof.
  intros Hu _ pool started.
  assert (Hd : doc started = doc s0) by (subst started; now destruct response).
  assert (Hr : rankings started = rankings s0)
    by (subst started; now destruct response).
  unfold populateUnranked. fold pool. fold started.
  rewrite Hd, Hu.
  change (allPlayers started) with pool.
  split.
  - intros (p & Hp & Hn).
    destruct (forallb _ pool) eqn:E; [|reflexivity].
    exfalso. apply Hn.
    now apply (proj1 (forallb_on_page (doc s0) pool) E).
  - intros Hall Hnone.
    rewrite (proj2 (forallb_on_page (doc s0) pool) Hall).
    rewrite (loadRankings_nothing_stored P started)
      by (left; congruence).
    eexists. split; [reflexivity|].
    cbn [doc console_write with_console with_doc]. now rewrite Hd.
Qed.

Lemma start_without_unranked_list_witness :
  populateUnranked sample_platform (Some sample_mapping)
                   (state_of_page [mkTier (Numbered 1) "tier-1" []])
  = Throws TypeError
           (with_allPlayers (pool_of sample_platform sample_mapping)
                            (state_of_page [mkTier (Numbered 1) "tier-1" []]))
  /\ exists s',
      populateUnranked sample_platform None
                       (state_of_page [mkTier (Numbered 1) "tier-1" []])
      = Returns s'.
Proof.
  split.
  - refine (proj1 (start_without_unranked_list sample_platform
                     (Some sample_mapping)
                     (state_of_page [mkTier (Numbered 1) "tier-1" []])
                     eq_refl _) _).
    + vm_compute. repeat constructor.
    + exists (mkPlayer "1" (Some "Ann") (Some "Able") (Some "qb")
                       (Some "KC"))%string.
      split; [vm_compute; now left|intros []].
  - destruct (proj2 (start_without_unranked_list sample_platform None
                       (state_of_page [mkTier (Numbered 1) "tier-1" []])
                       eq_refl (Forall_nil _))) as (s' & H & _).
    + intros p [].
    + reflexivity.
    + exists s'. exact H.
Defined.

(** *** The ids of the pool *)

Lemma map_id_with_id (m : mapping) :
  (forall e, In e m -> r_id (snd e) = None) ->
  map id (map with_id m) = map fst m.
Proof.
  intros H. rewrite map_map. apply map_ext_in.
  intros [k r] Hin. pose proof (H _ Hin) as E. simpl in *. now rewrite E.
Qed.

Lemma NoDup_map_filter {A B : Type} (f : A -> B) (c : A -> bool)
      (l : list A) :
  NoDup (map f l) -> NoDup (map f (filter c l)).
Proof.
  induction l as [|x l IH]; intros H; simpl; [constructor|].
  inversion H as [|? ? Hx Hn]; subst.
  destruct (c x); simpl; [|now apply IH].
  constructor; [|now apply IH].
  intros Hin. apply Hx. apply in_map_iff in Hin.
  destruct Hin as (y & E & Hy). apply filter_In in Hy.
  rewrite <- E. apply in_map. tauto.
Qed.

(** X15.  The ids of the pool are the keys of the fetched mapping, as
    long as no record carries an [id] property of its own (which would
    replace the key): so no two players of the pool share an id, and
    with C4 and X13 every one of them gets an element of its own. *)
Theorem pool_ids_distinct (P : platform) (playersObj : mapping) :
  NoDup (map fst playersObj) ->
  (forall e, In e playersObj -> r_id (snd e) = None) ->
  let pool := pool_of P playersObj in
  NoDup (map id pool) /\
  forall i, In i (map id pool) ->
            exists r, In (i, r) playersObj /\
                      has_position (with_id (i, r)) = true.
Proof.
  intros Hn Hr pool.
  assert (Hp : Permutation pool (filter has_position (map with_id playersObj)))
    by apply sort_perm.
  split.
  - apply (Permutation_NoDup (Permutation_sym (Permutation_map id Hp))).
    apply NoDup_map_filter. now rewrite map_id_with_id.
  - intros i Hi. apply in_map_iff in Hi. destruct Hi as (p & <- & Hin).
    apply (Permutation_in _ Hp) in Hin. apply filter_In in Hin.
    destruct Hin as [Hin Hpos]. apply in_map_iff in Hin.
    destruct Hin as ([k r] & <- & Hin). exists r.
    pose proof (Hr _ Hin) as E. simpl in E. simpl. rewrite E.
    split; [assumption|]. simpl in Hpos. now rewrite E in Hpos.
Qed.

Lemma pool_ids_distinct_witness :
  NoDup (map id (pool_of sample_platform sample_mapping)).
Proof.
  refine (proj1 (pool_ids_distinct sample_platform sample_mapping _ _)).
  - vm_compute. repeat constructor; simpl; intuition discriminate.
  - intros e He. simpl in He.
    destruct He as [<-|[<-|[<-|[]]]]; reflexivity.
Defined.

(** ** Saving *)

Lemma named_by_script_keys (d : page) (t : tier) :
  named_by_script d -> In t d ->
  list_id t <> "__proto__"%string /\ array_index (list_id t) = None.
Proof.
  intros H Ht. rewrite (H t Ht).
  destruct (data_tier t); split; try discriminate; reflexivity.
Qed.

Lemma fold_obj_set_append {V : Type} (l : list (string * V)) :
  forall acc,
    NoDup (map fst (acc ++ l)) ->
    (forall kv, In kv l -> array_index (fst kv) = None) ->
    fold_left (fun o kv => obj_set (fst kv) (snd kv) o) l acc = acc ++ l.
Proof.
  induction l as [|[k v] l IH]; intros acc Hn Hi; simpl.
  - now rewrite app_nil_r.
  - assert (Hk : has_key k acc = false).
    { apply has_key_spec. intros Hin.
      rewrite map_app in Hn. simpl in Hn.
      apply NoDup_remove_2 in Hn. apply Hn. apply in_or_app. now left. }
    pose proof (Hi (k, v) (or_introl eq_refl)) as Ek. simpl in Ek.
    assert (E : obj_set k v acc = acc ++ [(k, v)])
      by (unfold obj_set; now rewrite Hk, Ek).
    rewrite E, IH.
    + now rewrite <- app_assoc.
    + now rewrite <- app_assoc.
    + intros kv Hkv. apply Hi. now right.
Qed.

(** X16.  On a page whose lists have the ids the script gives them, no
    two the same, the stored text read back by [JSON.parse] is the object
    that has, for every list of the page and in the order of the page,
    the id of the list with the ids of its players in their order. *)
Theorem saved_text_reads_back (d : page) :
  named_by_script d -> NoDup (map list_id d) ->
  JSON_parse (JSON_stringify (tiers_of d))
  = Some (JObject (map parsed_member (map saved_tier d))).
Proof.
  intros Hn Hd.
  assert (Hf : fold_left (fun o kv => obj_set (fst kv) (snd kv) o)
                         (map saved_tier d) []
               = map saved_tier d).
  { apply (fold_obj_set_append (map saved_tier d) []).
    - simpl. rewrite map_map. exact Hd.
    - intros kv Hkv. apply in_map_iff in Hkv.
      destruct Hkv as (t & <- & Ht). simpl.
      now apply (named_by_script_keys d t Hn Ht). }
  rewrite parsed_saved_text, tiers_of_fold.
  - now rewrite !Hf.
  - apply Forall_forall. intros t Ht.
    now apply (named_by_script_keys d t Hn Ht).
Qed.

Lemma saved_text_reads_back_witness :
  JSON_parse (JSON_stringify (tiers_of (doc saved_state)))
  = Some (JObject
            [("tier-1", JArray []);
             ("tier-2", JArray [JString "2"; JString "1"]);
             ("tier-unranked", JArray [JString "3"])]%string).
Proof.
  refine (saved_text_reads_back (doc saved_state) _ _).
  - intros t Ht. simpl in Ht.
    destruct Ht as [<-|[<-|[<-|[]]]]; reflexivity.
  - vm_compute. repeat constructor; simpl; intuition discriminate.
Defined.

(** *** The delayed save *)

Lemma tiers_of_updateRanks (d : page) : tiers_of (updateRanks d) = tiers_of d.
Proof. apply tiers_of_saved_tier, saved_tier_updateRanks. Qed.

Lemma tiers_of_applyFilters (s : state) :
  tiers_of (doc (applyFilters s)) = tiers_of (doc s).
Proof. apply tiers_of_saved_tier, saved_tier_applyFilters. Qed.

Lemma handle_saved_or_pending (ev : event) (s : state) :
  user_event ev = true ->
  saveTimeout s = true \/ in_sync s ->
  saveTimeout (handle ev s) = true \/ in_sync (handle ev s).
Proof.
  intros Hev H. unfold in_sync in *.
  destruct ev as [|[|]|[|]| | | | | | |]; try discriminate; cbn [handle].
  - now left.
  - right. reflexivity.
  - unfold saveTimeout_fires.
    destruct (saveTimeout s) eqn:E; [right; reflexivity|].
    destruct H as [H|H]; [discriminate|]. right. assumption.
  - now left.
  - unfold rank_input_change, handleRankInputChange.
    destruct (nth_error (doc s) ti) as [t|]; [|now rewrite with_doc_doc].
    destruct (data_tier t); [now rewrite with_doc_doc|].
    destruct (nth_error (children t) pi); [|now rewrite with_doc_doc].
    destruct (_ =? _); [|now left].
    cbn [with_doc saveTimeout rankings doc].
    now rewrite tiers_of_updateRanks.
  - rewrite (tiers_of_applyFilters (with_filterInput text s)). exact H.
  - unfold clickPosButton.
    rewrite (tiers_of_applyFilters (with_activePosFilter _ s)). exact H.
Qed.

(** X17.  Every change the user makes gets stored: from a state in which
    the stored item is up to date or the save timer is running, after
    any clicks on the add-tier and save buttons, drags, rank inputs and
    filters, the stored item is the page as [saveRankings] writes it as
    soon as the timer has run out.  (The storage is taken to accept what
    is written to it.) *)
Theorem changes_get_saved (s : state) (evs : list event) :
  saveTimeout s = true \/ in_sync s ->
  forallb user_event evs = true ->
  let s' := run (evs ++ [TimerFires true]) s in
  in_sync s' /\ saveTimeout s' = false.
Proof.
  intros H Hevs s'. subst s'. unfold run. rewrite fold_left_app.
  fold (run evs s). simpl.
  assert (H' : saveTimeout (run evs s) = true \/ in_sync (run evs s)).
  { revert s H. induction evs as [|ev evs IH]; intros s H; [exact H|].
    simpl in Hevs. apply andb_prop in Hevs. destruct Hevs as [Hev Hevs].
    simpl. apply IH; [assumption|]. now apply handle_saved_or_pending. }
  unfold saveTimeout_fires, in_sync in *.
  destruct (saveTimeout (run evs s)) eqn:E; simpl.
  - split; reflexivity.
  - destruct H' as [H'|H']; [discriminate|]. split; assumption.
Qed.

Lemma changes_get_saved_witness :
  in_sync (run ([DragEnd (2, 1) 1 0; FilterInput "a";
                 RankChange 1 0 (Some 1%Z)]%nat ++ [TimerFires true])
               (handle AddTierClick started_state)).
Proof.
  refine (proj1 (changes_get_saved (handle AddTierClick started_state)
                   [DragEnd (2, 1) 1 0; FilterInput "a";
                    RankChange 1 0 (Some 1%Z)]%nat _ _)).
  - left. vm_compute. reflexivity.
  - vm_compute. reflexivity.
Defined.

(** ** Lazy loading *)

Lemma slice_nil {A : Type} (start stop : Z) : slice (@nil A) start stop = [].
Proof. unfold slice. now rewrite skipn_nil, firstn_nil. Qed.

Lemma renderMorePlayers_idle (limit : Z) (s : state) :
  currentDisplayArray s = [] -> renderMorePlayers limit s = s.
Proof.
  intros H. unfold renderMorePlayers.
  destruct (getElementById "tier-unranked" (doc s)); [|reflexivity].
  rewrite H, slice_nil. simpl. rewrite Z.add_0_r, <- H.
  apply state_eta.
Qed.

Lemma handle_currentDisplayArray (ev : event) (s : state) :
  ev <> RenderInitial ->
  currentDisplayArray (handle ev s) = currentDisplayArray s /\
  (currentDisplayArray s = [] ->
   displayedCount (handle ev s) = displayedCount s).
Proof.
  intros Hev. destruct ev; try congruence; cbn [handle].
  - split; reflexivity.
  - unfold saveRankings. destruct stored; split; reflexivity.
  - unfold saveTimeout_fires, saveRankings.
    destruct (saveTimeout s), stored; split; reflexivity.
  - split; reflexivity.
  - unfold rank_input_change.
    destruct (handleRankInputChange ti pi parsed (doc s)) as [d [|]];
      split; reflexivity.
  - split; reflexivity.
  - split; reflexivity.
  - split; [|intros H; now rewrite renderMorePlayers_idle].
    unfold renderMorePlayers.
    now destruct (getElementById "tier-unranked" (doc s)).
  - split; [|intros H; now rewrite renderMorePlayers_idle].
    unfold renderMorePlayers.
    now destruct (getElementById "tier-unranked" (doc s)).
Qed.

Lemma populateUnranked_cursor (P : platform) (response : option mapping)
      (s0 : state) :
  let s := state_of (populateUnranked P response s0) in
  currentDisplayArray s = currentDisplayArray s0 /\
  displayedCount s = displayedCount s0.
Proof.
  unfold populateUnranked.
  set (s1 := with_allPlayers _ _).
  assert (H1 : currentDisplayArray s1 = currentDisplayArray s0 /\
               displayedCount s1 = displayedCount s0)
    by (subst s1; now destruct response).
  clearbody s1.
  assert (Hl : forall s2,
             currentDisplayArray s2 = currentDisplayArray s0 /\
             displayedCount s2 = displayedCount s0 ->
             let s := state_of
                        match loadRankings P s2 with
                        | Returns s =>
                            Returns
                              (console_write
                                 ("Loaded "
                                  ++ string_of_nat
                                       (length
                                          (allPlayers
                                             (with_doc (updateRanks (doc s))
                                                       s)))
                                  ++ " players (positions filtered).")
                                 (with_doc (updateRanks (doc s)) s))
                        | Throws e s => Throws e s
                        end in
             currentDisplayArray s = currentDisplayArray s0 /\
             displayedCount s = displayedCount s0).
  { intros s2 [H2a H2b].
    destruct (loadRankings_cursor P s2) as [Hc Hn].
    destruct (loadRankings P s2); simpl in *; split; congruence. }
  destruct (getElementById "tier-unranked" (doc s1)).
  - apply Hl. exact H1.
  - destruct (forallb _ _); [apply Hl; exact H1|exact H1].
Qed.

(** X19.  As the script is wired, lazy loading never renders anything:
    [currentDisplayArray] is empty when the script starts, the start
    leaves it so, and only [renderInitialPlayers], which nothing calls,
    would fill it.  So whatever the user does, it stays empty, the
    cursor stays where it was, and scrolling the unranked list to its
    end, like any call of [renderMorePlayers], changes nothing at all. *)
Theorem lazy_loading_idle (P : platform) (response : option mapping)
        (s0 : state) (evs : list event) :
  currentDisplayArray s0 = [] ->
  Forall (fun ev => ev <> RenderInitial) evs ->
  let s := run evs (state_of (populateUnranked P response s0)) in
  currentDisplayArray s = [] /\
  displayedCount s = displayedCount s0 /\
  handle Scroll s = s /\
  forall limit, renderMorePlayers limit s = s.
Proof.
  intros H0 Hevs s.
  destruct (populateUnranked_cursor P response s0) as [Hc Hn].
  rewrite H0 in Hc. rewrite <- Hn.
  subst s. revert Hevs Hc.
  generalize (state_of (populateUnranked P response s0)) as s.
  clear. induction evs as [|ev evs IH]; intros s Hevs Hc; simpl.
  - repeat split; try assumption;
      intros; now apply renderMorePlayers_idle.
  - inversion Hevs as [|? ? Hev Hevs']; subst.
    destruct (handle_currentDisplayArray ev s Hev) as [Ha Hd].
    rewrite <- (Hd Hc). apply IH; [assumption|congruence].
Qed.

Lemma lazy_loading_idle_witness :
  let s := run [AddTierClick; Scroll; DragEnd (2, 1) 1 0; RenderMore 7]%nat
               (state_of (populateUnranked sample_platform
                            (Some sample_mapping) fresh_state)) in
  handle Scroll s = s.
Proof.
  refine (proj1 (proj2 (proj2
            (lazy_loading_idle sample_platform (Some sample_mapping)
               fresh_state
               [AddTierClick; Scroll; DragEnd (2, 1) 1 0; RenderMore 7]%nat
               _ _)))).
  - vm_compute. reflexivity.
  - repeat constructor; discriminate.
Defined.

(** ** Position buttons *)

Lemma POSITIONS_upper (pos : string) :
  In pos POSITIONS -> toUpperCase pos = pos.
Proof.
  intros H. simpl in H.
  destruct H as [<-|[<-|[<-|[<-|[]]]]]; reflexivity.
Qed.

(** X20.  Every player of the pool is listed under exactly one of the
    position buttons QB, RB, WR and TE: its element carries one of the
    four positions, in capitals however the fetched record writes it,
    and a button shows the element just when the button's position,
    written in any letter case, is that of the element. *)
Theorem pool_player_under_one_button (P : platform) (playersObj : mapping)
        (p : player) (pos : string) :
  In p (pool_of P playersObj) ->
  pos <> ""%string ->
  let e := createPlayerElement (id p) p in
  In (data_position e) POSITIONS /\
  (matchesPos (toUpperCase pos) e = true <->
   toUpperCase pos = data_position e).
Proof.
  intros Hp Hpos e.
  assert (Hin : In (data_position e) POSITIONS).
  { apply (Permutation_in _ (sort_perm (by_name P) _)) in Hp.
    apply filter_In in Hp. destruct Hp as [_ Hp].
    now apply has_position_spec in Hp. }
  split; [exact Hin|].
  unfold matchesPos. rewrite (POSITIONS_upper _ Hin).
  assert (Hne : is_empty (toUpperCase pos) = false)
    by (destruct pos; [congruence|reflexivity]).
  rewrite Hne. simpl. rewrite String.eqb_eq.
  split; intros H; now rewrite H.
Qed.

Lemma pool_player_under_one_button_witness :
  let e := createPlayerElement "1"
             (mkPlayer "1" (Some "Ann") (Some "Able") (Some "qb")
                       (Some "KC"))%string in
  matchesPos (toUpperCase "qb") e = true.
Proof.
  intros e.
  refine (proj2 (proj2 (pool_player_under_one_button sample_platform
                          sample_mapping
                          (mkPlayer "1" (Some "Ann") (Some "Able")
                                    (Some "qb") (Some "KC"))%string
                          "qb" _ _)) _).
  - vm_compute. now left.
  - discriminate.
  - reflexivity.
Defined.

(** ** Saving and loading on one page *)

Lemma getElementById_first (d : page) :
  forall j t,
    NoDup (map list_id d) -> nth_error d j = Some t ->
    getElementById (list_id t) d = Some j.
Proof.
  induction d as [|t0 d IH]; intros [|j] t Hn Ht; simpl in *;
    try discriminate.
  - injection Ht as ->. now rewrite String.eqb_refl.
  - inversion Hn as [|? ? Hx Hn']; subst.
    destruct (String.eqb_spec (list_id t0) (list_id t)) as [E|_].
    + exfalso. apply Hx. rewrite E. apply in_map.
      eapply nth_error_In. eassumption.
    + now rewrite (IH j t Hn' Ht).
Qed.

Lemma NoDup_map_In_inj {A B : Type} (f : A -> B) (l : list A) (x y : A) :
  NoDup (map f l) -> In x l -> In y l -> f x = f y -> x = y.
Proof.
  induction l as [|z l IH]; intros Hn Hx Hy E; [destruct Hx|].
  simpl in Hn. inversion Hn as [|? ? Hz Hn']; subst.
  destruct Hx as [->|Hx], Hy as [->|Hy]; auto.
  - exfalso. apply Hz. rewrite E. now apply in_map.
  - exfalso. apply Hz. rewrite <- E. now apply in_map.
Qed.

Lemma same_ids_same_elements (all : list element) :
  NoDup (ids_of all) ->
  forall l l',
    incl l all -> incl l' all -> ids_of l' = ids_of l -> l' = l.
Proof.
  intros Hn. induction l as [|e l IH]; intros [|e' l'] Hl Hl' E;
    simpl in E; try discriminate; [reflexivity|].
  injection E as E1 E2.
  f_equal.
  - apply (NoDup_map_In_inj data_id all); auto;
      [apply Hl'|apply Hl]; now left.
  - apply IH; auto; intros x Hx; [apply Hl|apply Hl']; now right.
Qed.

Lemma children_incl (d : page) (j : nat) (t : tier) :
  nth_error d j = Some t -> incl (children t) (all_players d).
Proof.
  intros Ht e He. unfold all_players. apply in_flat_map. exists t.
  split; [eapply nth_error_In; eassumption|assumption].
Qed.

Lemma tier_eta (t t' : tier) :
  data_tier t' = data_tier t -> list_id t' = list_id t ->
  children t' = children t -> t' = t.
Proof. destruct t, t'. simpl. now intros -> -> ->. Qed.

(** A page is known by its tiers, what its lists are called, the ids in
    them and the elements it holds, when no id is there twice. *)
Lemma page_by_orders (d d' : page) :
  NoDup (page_ids d) ->
  skeleton d' = skeleton d ->
  Permutation (all_players d') (all_players d) ->
  (forall j, order_at d' j = order_at d j) ->
  d' = d.
Proof.
  intros Hn Hs Hp Ho. apply nth_error_ext. intros j.
  pose proof (Ho j) as Hj. unfold order_at in Hj.
  assert (Hsk : nth_error (skeleton d') j = nth_error (skeleton d) j)
    by now rewrite Hs.
  unfold skeleton in Hsk. rewrite !nth_error_map in Hsk.
  destruct (nth_error d' j) as [t'|] eqn:Ht', (nth_error d j) as [t|] eqn:Ht;
    simpl in *; try discriminate; [|reflexivity].
  injection Hj as Hj. injection Hsk as Hk Hi.
  f_equal. apply tier_eta; auto.
  apply (same_ids_same_elements (all_players d) Hn).
  - eapply children_incl. eassumption.
  - intros e He. apply (Permutation_in _ Hp).
    eapply children_incl; eassumption.
  - exact Hj.
Qed.

Lemma looked_up_strings (P : platform) (d : page)
      (saved : list (string * list string)) :
  looked_up P d (map parsed_member saved) = restored d saved.
Proof.
  unfold looked_up, restored. rewrite flat_map_concat_map, map_map.
  rewrite <- flat_map_concat_map. apply flat_map_ext. intros [k ids]. simpl.
  destruct (getElementById k d); [|reflexivity].
  rewrite map_map. simpl. apply map_id.
Qed.

Lemma getElementById_exists (d : page) (t : tier) :
  In t d -> getElementById (list_id t) d <> None.
Proof.
  induction d as [|t0 d IH]; intros Hin; [destruct Hin|].
  destruct Hin as [->|Hin]; simpl.
  - now rewrite String.eqb_refl.
  - destruct (String.eqb (list_id t0) (list_id t)); [discriminate|].
    specialize (IH Hin). now destruct (getElementById (list_id t) d).
Qed.

(** X21.  Saving and then loading on the same page changes nothing on
    it and warns about nothing, when no two lists of the page share an
    id (none being [__proto__] or empty, or the id of another element of
    the page), no player id is on it twice and every player id can be
    written into the selector: every list exists, so every player is put
    back at the end of its own list, in the order it had.  What was
    stored is an item that [storage_fits]. *)
Theorem save_then_load_same_page (P : platform) (s : state) :
  NoDup (map list_id (doc s)) ->
  Forall (fun t => list_id t <> "__proto__"%string) (doc s) ->
  NoDup (page_ids (doc s)) ->
  Forall (fun t => names_list_only P (list_id t) = true) (doc s) ->
  Forall (fun i => plain_id i = true) (page_ids (doc s)) ->
  exists s',
    loadRankings P (saveRankings true s) = Returns s' /\
    doc s' = doc s /\
    console s' = console s /\
    storage_fits P (saveRankings true s) = true.
Proof.
  intros Hl Hproto Hn Hkeys Hplain.
  assert (Hfit : storage_fits P (saveRankings true s) = true)
    by (apply (saved_storage_fits P s); auto).
  destruct (saved_entries_of_save (doc s) Hl Hproto) as (saved & Hperm & Hparse).
  set (s1 := saveRankings true s).
  assert (Hd1 : doc s1 = doc s) by reflexivity.
  assert (Hc1 : console s1 = console s) by reflexivity.
  assert (Ht1 : stored_text s1 = JSON_stringify (tiers_of (doc s)))
    by reflexivity.
  assert (Hrest : Permutation (restored (doc s) saved)
                              (restored (doc s) (map saved_tier (doc s)))).
  { unfold restored. now apply Permutation_flat_map. }
  assert (Hrn : NoDup (restored (doc s1) saved)).
  { rewrite Hd1. apply (Permutation_NoDup (Permutation_sym Hrest)).
    now apply restored_NoDup. }
  assert (Hall : forall i, In i (page_ids (doc s)) ->
                           In i (restored (doc s) saved)).
  { intros i Hi. apply (Permutation_in _ (Permutation_sym Hrest)).
    apply restored_in.
    unfold page_ids, ids_of, all_players in Hi.
    apply in_map_iff in Hi. destruct Hi as (e & <- & He).
    apply in_flat_map in He. destruct He as (t & Ht & He).
    exists t. split; [assumption|]. split.
    - unfold tier_order, ids_of. now apply in_map.
    - now apply getElementById_exists. }
  assert (Hback : forall i, In i (restored (doc s) saved) ->
                            In i (page_ids (doc s))).
  { intros i Hi. apply (Permutation_in _ Hrest) in Hi.
    apply restored_in in Hi. destruct Hi as (t & Ht & Hi & _).
    unfold page_ids, ids_of, all_players.
    unfold tier_order, ids_of in Hi. apply in_map_iff in Hi.
    destruct Hi as (e & <- & He). apply in_map.
    apply in_flat_map. eauto. }
  destruct (load_entries_order P saved s1) as (s' & Hload & _ & _ & _ & Hord);
    [now rewrite Hd1|exact Hrn|].
  exists s'.
  assert (Hlr : loadRankings P s1 = Returns s').
  { unfold loadRankings. rewrite Ht1.
    destruct (JSON_parse (JSON_stringify (tiers_of (doc s)))) as [j|];
      [|discriminate].
    simpl in Hparse. injection Hparse as ->. exact Hload. }
  split; [exact Hlr|]. split; [|split; [|exact Hfit]].
  - apply page_by_orders; [assumption| | |].
    + pose proof (skeleton_loadRankings P s1) as H. now rewrite Hlr in H.
    + pose proof (load_entries_moves P (map parsed_member saved) s1) as H.
      rewrite Hload in H. simpl in H. apply H.
    + intros j. rewrite Hord, Hd1. unfold order_at.
      destruct (nth_error (doc s) j) as [t|] eqn:Ht; [|reflexivity].
      simpl. f_equal.
      rewrite (filter_nothing _ (tier_order t)).
      * simpl.
        rewrite (placed_in_unique (doc s) j (list_id t) (tier_order t)).
        -- apply filter_all. intros i Hi. apply mem_spec.
           unfold page_ids, ids_of, all_players.
           unfold tier_order, ids_of in Hi. apply in_map_iff in Hi.
           destruct Hi as (e & <- & He). apply in_map.
           apply in_flat_map. exists t.
           split; [eapply nth_error_In; eassumption|assumption].
        -- apply (Permutation_NoDup
                    (Permutation_sym (Permutation_map fst Hperm))).
           now rewrite map_map.
        -- apply (Permutation_in _ (Permutation_sym Hperm)).
           apply (in_map saved_tier). eapply nth_error_In. eassumption.
        -- now apply getElementById_first.
      * intros i Hi. apply Bool.negb_false_iff. apply mem_spec.
        apply Hall. unfold page_ids, ids_of, all_players.
        unfold tier_order, ids_of in Hi. apply in_map_iff in Hi.
        destruct Hi as (e & <- & He). apply in_map.
        apply in_flat_map. exists t.
        split; [eapply nth_error_In; eassumption|assumption].
  - rewrite (load_entries_console P _ _ _ Hload), Hc1, Hd1.
    rewrite looked_up_strings.
    rewrite (filter_nothing _ (restored (doc s) saved)).
    + apply app_nil_r.
    + intros i Hi. apply Bool.negb_false_iff. apply mem_spec.
      now apply Hback.
Qed.

Lemma save_then_load_same_page_witness :
  exists s',
    loadRankings sample_platform (saveRankings true saved_state) = Returns s' /\
    doc s' = doc saved_state /\ console s' = console saved_state /\
    storage_fits sample_platform (saveRankings true saved_state) = true.
Proof.
  refine (save_then_load_same_page sample_platform saved_state _ _ _ _ _).
  - vm_compute. repeat constructor; simpl; intuition discriminate.
  - vm_compute. repeat constructor; discriminate.
  - vm_compute. repeat constructor; simpl; intuition discriminate.
  - vm_compute. repeat constructor.
  - vm_compute. repeat constructor.
Defined.

(** ** The first chunk *)





(** ** What [updateRanks] leaves alone *)

(** X23.  [updateRanks] writes rank inputs and does nothing else: the
    tiers and their lists are the same, every player is where it was and
    is the element it was but for the value of its rank input, the
    unranked tier is untouched, and running it a second time changes
    nothing. *)
Theorem updateRanks_only_ranks (d : page) :
  skeleton (updateRanks d) = skeleton d /\
  map (fun t => map (set_rank None) (children t)) (updateRanks d)
  = map (fun t => map (set_rank None) (children t)) d /\
  (forall j t, nth_error d j = Some t -> data_tier t = Unranked ->
               nth_error (updateRanks d) j = Some t) /\
  updateRanks (updateRanks d) = updateRanks d.
Proof.
  split; [apply skeleton_updateRanks|]. split; [|split].
  - unfold updateRanks. rewrite map_map. apply map_ext. intros t.
    destruct (data_tier t); [reflexivity|]. simpl.
    unfold number_players, mapi.
    apply (mapi_from_keep _ (set_rank None) (set_rank None)).
    reflexivity.
  - intros j t Ht Hk. rewrite updateRanks_nth, Ht. simpl. now rewrite Hk.
  - apply updateRanks_idem.
Qed.

Lemma updateRanks_only_ranks_witness :
  nth_error (updateRanks page_xyz) 1 = Some unranked_empty.
Proof.
  refine (proj1 (proj2 (proj2 (updateRanks_only_ranks page_xyz)))
                1%nat unranked_empty _ _); reflexivity.
Defined.

(** ** When loading throws *)

Lemma forallb_ext_local {A : Type} (f g : A -> bool) (l : list A) :
  (forall x, f x = g x) -> forallb f l = forallb g l.
Proof.
  intros H. induction l as [|x l IH]; simpl; [reflexivity|].
  now rewrite H, IH.
Qed.

Lemma arrays_for_lists_ext (d d' : page) (entries : list (string * json)) :
  skeleton d' = skeleton d ->
  arrays_for_lists d' entries = arrays_for_lists d entries.
Proof.
  intros H. unfold arrays_for_lists. apply forallb_ext_local. intros e.
  rewrite (getElementById_ext (fst e) d' d); [reflexivity|].
  now rewrite <- !skeleton_list_id, H.
Qed.

Lemma load_entries_outcome (P : platform) (entries : list (string * json)) :
  forall s,
    exists s',
      load_entries P entries s
      = if arrays_for_lists (doc s) entries then Returns s'
        else Throws TypeError s'.
Proof.
  induction entries as [|[k v] entries IH]; intros s; simpl.
  - now exists s.
  - destruct (getElementById k (doc s)) as [ti|] eqn:E; [|apply IH].
    destruct v; simpl; try (now exists s).
    destruct (IH (fold_left (place_player P ti) items s)) as (s' & H).
    exists s'. rewrite H.
    now rewrite (arrays_for_lists_ext (doc s) _ entries
                   (skeleton_fold_place P ti items s)).
Qed.

(** X24.  When [loadRankings] throws and when it returns, the stored
    keys naming lists only and the ids stored under them being such as
    can be written into the selector.  It throws the [SyntaxError] of
    [JSON.parse], before touching anything, when the stored text is not
    JSON.  Otherwise it throws a [TypeError] just when the stored object
    has, under the id of a list of the page, a value that is not an
    array (the entries before that one have been carried out by then);
    and it returns in every other case, also for a stored number,
    string, array or [null]. *)
Theorem loadRankings_outcome (P : platform) (s : state) :
  storage_fits P s = true ->
  match JSON_parse (stored_text s) with
  | None => loadRankings P s = Throws SyntaxError s
  | Some saved =>
      exists s',
        loadRankings P s
        = if arrays_for_lists (doc s) (saved_entries saved) then Returns s'
          else Throws TypeError s'
  end.
Proof.
  intros _. unfold loadRankings.
  destruct (JSON_parse (stored_text s)) as [saved|]; [|reflexivity].
  apply load_entries_outcome.
Qed.

Lemma loadRankings_outcome_witness :
  let s := with_rankings
             (Some (String "{" (quote "tier-1" ++ ":5}"))%string)
             fresh_state in
  exists s', loadRankings sample_platform s = Throws TypeError s'.
Proof.
  intros s.
  assert (H : storage_fits sample_platform s = true)
    by (vm_compute; reflexivity).
  pose proof (loadRankings_outcome sample_platform s H) as Ho.
  vm_compute in Ho. vm_compute. exact Ho.
Defined.
